(** * The MAgent parallel-environment adapter (pettingzoo/magent/magent_env.py)

    A shallow embedding of [magent_parallel_env]: the class that adapts the
    MAgent grid-world engine to the dict-in / dict-out parallel API.  The
    engine itself is an external collaborator and enters the development as an
    interface ([Engine]); everything the adapter does around it (naming of
    agents, the flat action array, the per-agent dictionaries, the frame
    budget) is modelled from the Python source. *)

From stdpp Require Import gmap strings list fin_maps pretty.
From Stdlib Require Import ZArith Ascii.

Local Open Scope Z_scope.
Local Open Scope nat_scope.

(** ** Python exceptions and fallible computations *)

Inductive exn : Set :=
  | IndexError | KeyError | ValueError | AttributeError
  | AssertionError | OverflowError | AxisError | TypeError.

Inductive result (A : Type) : Type :=
  | Ok (a : A)
  | Raise (e : exn).
Arguments Ok {A} a.
Arguments Raise {A} e.

Definition bind {A B} (m : result A) (f : A -> result B) : result B :=
  match m with Ok a => f a | Raise e => Raise e end.

Notation "x <- m ;; k" := (bind m (fun x => k))
  (at level 100, m at next level, right associativity, only parsing).

Definition is_Ok {A} (m : result A) : Prop := exists a, m = Ok a.

Global Instance exn_eq_dec : EqDecision exn.
Proof. solve_decision. Defined.

Global Instance result_eq_dec {A} `{EqDecision A} : EqDecision (result A).
Proof. solve_decision. Defined.

(** [for x in l: acc = f(acc, x)], stopping at the first exception. *)
Fixpoint foldM {A B} (f : B -> A -> result B) (b : B) (l : list A) : result B :=
  match l with
  | [] => Ok b
  | x :: l' => b' <- f b x ;; foldM f b' l'
  end.

(** [[f(x) for x in l]], stopping at the first exception. *)
Fixpoint traverse {A B} (f : A -> result B) (l : list A) : result (list B) :=
  match l with
  | [] => Ok []
  | x :: l' => y <- f x ;; ys <- traverse f l' ;; Ok (y :: ys)
  end.

(** ** Python sequences and dictionaries *)

(** [enumerate(l)] *)
Definition enumerate {A} (l : list A) : list (nat * A) := zip (seq 0 (length l)) l.

(** [l[i]] for an index that a [range] or a literal produced (never negative). *)
Definition list_getitem {A} (l : list A) (i : nat) : result A :=
  match l !! i with Some x => Ok x | None => Raise IndexError end.

(** Python's index normalisation for a sequence of length [n]: a negative index
    counts from the end, anything outside [-n, n) is an [IndexError]. *)
Definition py_index (n : nat) (i : Z) : result nat :=
  if decide (0 <= i < Z.of_nat n)%Z then Ok (Z.to_nat i)
  else if decide (- Z.of_nat n <= i < 0)%Z then Ok (Z.to_nat (Z.of_nat n + i))
  else Raise IndexError.

(** [l[i] = x] *)
Definition list_setitem {A} (l : list A) (i : Z) (x : A) : result (list A) :=
  k <- py_index (length l) i ;; Ok (<[k := x]> l).

(** [for i, x in kvs: l[i] = x] *)
Definition list_setitems {A} (l : list A) (kvs : list (Z * A)) : result (list A) :=
  foldM (fun l kv => list_setitem l kv.1 kv.2) l kvs.

(** [d[k]] *)
Definition dict_getitem {V} (d : gmap string V) (k : string) : result V :=
  match d !! k with Some v => Ok v | None => Raise KeyError end.

(** A dictionary built from its items in order: a later item replaces an
    earlier one with the same key. *)
Definition dict_of {V} (items : list (string * V)) : gmap string V :=
  foldl (fun m kv => <[kv.1 := kv.2]> m) ∅ items.

(** [a[lo:hi]] for [0 <= lo <= hi]; a slice is clamped to the sequence. *)
Definition slice {A} (a : list A) (lo hi : nat) : list A := take (hi - lo) (drop lo a).

(** The character [c] does not occur in the string [s]. *)
Fixpoint free_of (c : Ascii.ascii) (s : string) : Prop :=
  match s with
  | EmptyString => True
  | String c' s' => c' <> c /\ free_of c s'
  end.

(** ** NumPy arrays *)

(** [n] consecutive chunks of [k] items. *)
Fixpoint chunks {A} (n k : nat) (d : list A) : list (list A) :=
  match n with
  | 0 => []
  | S n' => take k d :: chunks n' k (drop k d)
  end.

Definition product (shp : list nat) : nat := foldr Nat.mul 1 shp.

(** One-dimensional arrays are lists.  [a[ids] = vals] with an index array:
    every index is normalised and bounds-checked, [vals] is broadcast to the
    length of [ids] (equal length, or a single value), and where an index
    repeats the last value stays. *)
Definition np_broadcast {A} (n : nat) (vals : list A) : result (list A) :=
  if decide (length vals = n) then Ok vals
  else match vals with
       | [v] => Ok (replicate n v)
       | _ => Raise ValueError
       end.

Definition np_setitems {A} (a : list A) (ids : list Z) (vals : list A) : result (list A) :=
  vals' <- np_broadcast (length ids) vals ;;
  list_setitems a (zip ids vals').

(** [np.asarray(l, dtype=np.int32)] on Python integers (NumPy 1.x, 64-bit
    [long]): a value that fits a C [long] is cast to 32 bits, any other raises
    [OverflowError]. *)
Definition wrap_int32 (x : Z) : Z := ((x + 2 ^ 31) mod 2 ^ 32 - 2 ^ 31)%Z.

Definition to_int32 (x : Z) : result Z :=
  if decide (- 2 ^ 63 <= x < 2 ^ 63)%Z then Ok (wrap_int32 x) else Raise OverflowError.

Definition np_asarray_int32 (l : list Z) : result (list Z) := traverse to_int32 l.

Section NDArray.

Context {float : Type}.
Variable fzero : float.

(** An n-dimensional array: its shape and its items in row-major order. *)
Record ndarray : Type := NDArray { shape : list nat; data : list float }.

Definition np_full (shp : list nat) (x : float) : ndarray :=
  {| shape := shp; data := replicate (product shp) x |}.

Definition np_zeros (shp : list nat) : ndarray := np_full shp fzero.

Definition np_zeros_like (a : ndarray) : ndarray := np_zeros (shape a).

(** [np.expand_dims(a, axis)] for [axis >= 0]. *)
Definition np_expand_dims (a : ndarray) (axis : nat) : result ndarray :=
  if decide (axis <= length (shape a))
  then Ok {| shape := take axis (shape a) ++ 1 :: drop axis (shape a); data := data a |}
  else Raise AxisError.

(** [np.tile]: along each axis the array is repeated [reps] times; a shorter
    shape or a shorter [reps] is first padded with leading ones. *)
Fixpoint tile_data (shp reps : list nat) (d : list float) : list float :=
  match shp, reps with
  | n :: shp', r :: reps' =>
      mjoin (replicate r (mjoin (tile_data shp' reps' <$> chunks n (product shp') d)))
  | _, _ => d
  end.

Definition np_tile (a : ndarray) (reps : list nat) : ndarray :=
  let nd := length (shape a) `max` length reps in
  let shp := replicate (nd - length (shape a)) 1 ++ shape a in
  let rps := replicate (nd - length reps) 1 ++ reps in
  {| shape := zip_with Nat.mul shp rps; data := tile_data shp rps (data a) |}.

(** A shape split into its leading axes and its last axis. *)
Definition unsnoc (shp : list nat) : option (list nat * nat) :=
  match reverse shp with
  | [] => None
  | c :: pre => Some (reverse pre, c)
  end.

(** [np.concatenate([a, b], axis=-1)]: same number of axes (at least one) and
    same extents except on the last axis. *)
Definition np_concatenate_last (a b : ndarray) : result ndarray :=
  match unsnoc (shape a), unsnoc (shape b) with
  | Some (pa, ca), Some (pb, cb) =>
      if decide (pa = pb)
      then Ok {| shape := pa ++ [ca + cb];
                 data := mjoin (zip_with app (chunks (product pa) ca (data a))
                                             (chunks (product pa) cb (data b))) |}
      else Raise ValueError
  | _, _ => Raise ValueError
  end.

(** Iterating an array yields its sub-arrays along the first axis. *)
Definition np_iter (a : ndarray) : result (list ndarray) :=
  match shape a with
  | [] => Raise TypeError
  | n :: shp => Ok ((fun d => {| shape := shp; data := d |}) <$> chunks n (product shp) (data a))
  end.

(** In the words of the specification: the view of one agent, an [h] by [w]
    grid of cells with [c] channels, with the agent's feature vector appended
    to every cell along the channel axis. *)
Definition view_with_features (h w c : nat) (view_p feat_p : list float) : ndarray :=
  {| shape := [h; w; c + length feat_p];
     data := mjoin ((fun px => px ++ feat_p) <$> chunks (h * w) c view_p) |}.

End NDArray.

Arguments ndarray float : clear implicits.

(** ** The engine interface

    The grid-world engine ([magent.GridWorld]) is opaque: a state ([world]),
    lifecycle calls that change it, and queries that read it.  Group handles
    are opaque too. *)

Record Engine (float : Type) : Type := {
  world : Type;
  handle : Type;
  (* lifecycle and control *)
  gw_reset : world -> world;
  gw_step : world -> world * bool;
  gw_clear_dead : world -> world;
  gw_set_action : handle -> list Z -> world -> world;
  gw_set_seed : Z -> world -> world;
  (* static per-group metadata *)
  gw_get_num : world -> handle -> nat;
  gw_get_action_space : world -> handle -> list nat;
  gw_get_view_space : world -> handle -> list nat;
  gw_get_feature_space : world -> handle -> list nat;
  (* per-tick per-group data *)
  gw_get_agent_id : world -> handle -> list Z;
  gw_get_observation : world -> handle -> ndarray float * ndarray float;
  gw_get_reward : world -> handle -> list float;
  gw_get_alive : world -> handle -> list bool;
}.

Arguments world {float} _.
Arguments handle {float} _.
Arguments gw_reset {float} _ _.
Arguments gw_step {float} _ _.
Arguments gw_clear_dead {float} _ _.
Arguments gw_set_action {float} _ _ _ _.
Arguments gw_set_seed {float} _ _ _.
Arguments gw_get_num {float} _ _ _.
Arguments gw_get_action_space {float} _ _ _.
Arguments gw_get_view_space {float} _ _ _.
Arguments gw_get_feature_space {float} _ _ _.
Arguments gw_get_agent_id {float} _ _ _.
Arguments gw_get_observation {float} _ _ _.
Arguments gw_get_reward {float} _ _ _.
Arguments gw_get_alive {float} _ _ _.

(** ** gym spaces, as far as the adapter reads them *)

Record Discrete : Set := { n : nat }.

(** [Box(low=0., high=2., shape=..., dtype=np.float32)]; [low] is the array
    filled with the lower bound. *)
Record Box : Set := { box_shape : list nat }.

(** ** The adapter *)

Section Adapter.

Context {float : Type}.
Variable fzero : float.
Variable G : Engine float.

(** [generate_map] is supplied by each concrete environment; it populates the
    engine's map from the map size and the group handles. *)
Variable generate_map : Z -> list (handle G) -> world G -> world G.

Definition low (b : Box) : ndarray float := np_full (box_shape b) fzero.

(** The attributes of a [magent_parallel_env] object.  [num_agents] and
    [all_dones] exist only once [reset] has run. *)
Record magent_parallel_env : Type := {
  map_size : Z;
  max_frames : Z;
  env : world G;
  handles : list (handle G);
  team_sizes : list nat;
  agents : list string;
  possible_agents : list string;
  max_num_agents : nat;
  action_spaces : gmap string Discrete;
  observation_spaces : gmap string Box;
  _zero_obs : gmap string (ndarray float);
  frames : Z;
  num_agents : option nat;
  all_dones : option (gmap string bool);
}.

Definition set_env (e : world G) (s : magent_parallel_env) : magent_parallel_env :=
  {| map_size := map_size s; max_frames := max_frames s; env := e;
     handles := handles s; team_sizes := team_sizes s; agents := agents s;
     possible_agents := possible_agents s; max_num_agents := max_num_agents s;
     action_spaces := action_spaces s; observation_spaces := observation_spaces s;
     _zero_obs := _zero_obs s; frames := frames s; num_agents := num_agents s;
     all_dones := all_dones s |}.

Definition set_agents (l : list string) (s : magent_parallel_env) : magent_parallel_env :=
  {| map_size := map_size s; max_frames := max_frames s; env := env s;
     handles := handles s; team_sizes := team_sizes s; agents := l;
     possible_agents := possible_agents s; max_num_agents := max_num_agents s;
     action_spaces := action_spaces s; observation_spaces := observation_spaces s;
     _zero_obs := _zero_obs s; frames := frames s; num_agents := num_agents s;
     all_dones := all_dones s |}.

Definition set_frames (f : Z) (s : magent_parallel_env) : magent_parallel_env :=
  {| map_size := map_size s; max_frames := max_frames s; env := env s;
     handles := handles s; team_sizes := team_sizes s; agents := agents s;
     possible_agents := possible_agents s; max_num_agents := max_num_agents s;
     action_spaces := action_spaces s; observation_spaces := observation_spaces s;
     _zero_obs := _zero_obs s; frames := f; num_agents := num_agents s;
     all_dones := all_dones s |}.

Definition set_num_agents (k : nat) (s : magent_parallel_env) : magent_parallel_env :=
  {| map_size := map_size s; max_frames := max_frames s; env := env s;
     handles := handles s; team_sizes := team_sizes s; agents := agents s;
     possible_agents := possible_agents s; max_num_agents := max_num_agents s;
     action_spaces := action_spaces s; observation_spaces := observation_spaces s;
     _zero_obs := _zero_obs s; frames := frames s; num_agents := Some k;
     all_dones := all_dones s |}.

Definition set_all_dones (d : gmap string bool) (s : magent_parallel_env) : magent_parallel_env :=
  {| map_size := map_size s; max_frames := max_frames s; env := env s;
     handles := handles s; team_sizes := team_sizes s; agents := agents s;
     possible_agents := possible_agents s; max_num_agents := max_num_agents s;
     action_spaces := action_spaces s; observation_spaces := observation_spaces s;
     _zero_obs := _zero_obs s; frames := frames s; num_agents := num_agents s;
     all_dones := Some d |}.

(** *** Construction *)

(** [[f(xs[j], i) for j in range(len(team_sizes)) for i in range(team_sizes[j])]];
    [xs[j]] is only evaluated for a group that has a member. *)
Definition for_team_members {A B} (xs : list A) (sizes : list nat) (f : A -> nat -> B)
  : result (list B) :=
  groups <- traverse (B := list B)
              (fun js : nat * nat =>
                 match js.2 with
                 | 0 => Ok []
                 | S _ => x <- list_getitem xs js.1 ;; Ok (f x <$> seq 0 js.2)
                 end) (enumerate sizes) ;;
  Ok (mjoin (M := list) groups).

(** [f"{name}_{i}"] *)
Definition agent_name (name : string) (i : nat) : string := name +:+ "_" +:+ pretty i.

Definition _calc_obs_shapes (e : world G) (hs : list (handle G)) : result (list (list nat)) :=
  let view_spaces := gw_get_view_space G e <$> hs in
  let feature_spaces := gw_get_feature_space G e <$> hs in
  if negb (forallb (fun tup => length tup =? 3) view_spaces) then Raise AssertionError
  else if negb (forallb (fun tup => length tup =? 1) feature_spaces) then Raise AssertionError
  else traverse (fun vf : list nat * list nat =>
                   c <- list_getitem vf.1 2 ;;
                   f <- list_getitem vf.2 0 ;;
                   Ok (take 2 vf.1 ++ [c + f]))
                (zip view_spaces feature_spaces).

(** [magent_parallel_env.__init__(env, active_handles, names, map_size, max_frames)] *)
Definition init (e : world G) (active_handles : list (handle G)) (names : list string)
    (msize mframes : Z) : result magent_parallel_env :=
  let e := gw_reset G e in
  let e := generate_map msize active_handles e in
  let tsizes := gw_get_num G e <$> active_handles in
  ags <- for_team_members names tsizes agent_name ;;
  num_actions <- traverse (fun h => list_getitem (gw_get_action_space G e h) 0) active_handles ;;
  action_spaces_list <- for_team_members num_actions tsizes (fun k _ => {| n := k |}) ;;
  team_obs_shapes <- _calc_obs_shapes e active_handles ;;
  observation_space_list <-
    for_team_members team_obs_shapes tsizes (fun shp _ => {| box_shape := shp |}) ;;
  let obs_spaces := dict_of (zip ags observation_space_list) in
  Ok {| map_size := msize; max_frames := mframes; env := e;
        handles := active_handles; team_sizes := tsizes; agents := ags;
        possible_agents := ags; max_num_agents := sum_list tsizes;
        action_spaces := dict_of (zip ags action_spaces_list);
        observation_spaces := obs_spaces;
        _zero_obs := (fun space => np_zeros_like fzero (low space)) <$> obs_spaces;
        frames := 0; num_agents := None; all_dones := None |}.

(** [seed(seed)] with an explicit seed. *)
Definition seed (sd : Z) (s : magent_parallel_env) : magent_parallel_env :=
  set_env (gw_set_seed G sd (env s)) s.

(** *** Per-agent dictionaries *)

(** The dictionary comprehension shared by the three builders:
    [{agent: v for agent, v in zip(possible_agents, vals) if agent in set(agents)}]. *)
Definition live_items {V} (s : magent_parallel_env) (vals : list V) : list (string * V) :=
  let ret_agents : gset string := list_to_set (agents s) in
  filter (fun av => av.1 ∈ ret_agents) (zip (possible_agents s) vals).

(** The observation batch of one group: the view with the feature vector
    tiled over the view's two spatial axes and appended on the channel axis. *)
Definition group_obs (view features : ndarray float) : result (ndarray float) :=
  f1 <- np_expand_dims features 1 ;;
  feat_reshape <- np_expand_dims f1 1 ;;
  h <- list_getitem (shape view) 1 ;;
  w <- list_getitem (shape view) 2 ;;
  let feat_img := np_tile feat_reshape [1; h; w; 1] in
  np_concatenate_last view feat_img.

(** The body of the loop over handles in [_observe_all]. *)
Definition observe_group (s : magent_parallel_env)
    (observes : list (option (ndarray float))) (hd : handle G)
  : result (list (option (ndarray float))) :=
  let ids := gw_get_agent_id G (env s) hd in
  let '(view, features) := gw_get_observation G (env s) hd in
  fin_obs <- group_obs view features ;;
  rows <- np_iter fin_obs ;;
  list_setitems observes (zip ids (Some <$> rows)).

Definition _observe_all (s : magent_parallel_env) : result (gmap string (ndarray float)) :=
  let observes := replicate (max_num_agents s) None in
  observes <- foldM (observe_group s) observes (handles s) ;;
  items <- traverse (fun ao : string * option (ndarray float) =>
                      match ao.2 with
                      | Some obs => Ok (ao.1, obs)
                      | None => z <- dict_getitem (_zero_obs s) ao.1 ;; Ok (ao.1, z)
                      end) (live_items s observes) ;;
  Ok (dict_of items).

Definition _all_rewards (s : magent_parallel_env) : result (gmap string float) :=
  let rewards := replicate (max_num_agents s) fzero in
  rewards <- foldM (fun rewards hd =>
                     let ids := gw_get_agent_id G (env s) hd in
                     np_setitems rewards ids (gw_get_reward G (env s) hd))
                  rewards (handles s) ;;
  Ok (dict_of (live_items s rewards)).

Definition _all_dones (s : magent_parallel_env) (step_done : bool) : result (gmap string bool) :=
  let dones := replicate (max_num_agents s) true in
  dones <- (if negb step_done
           then foldM (fun dones hd =>
                         let ids := gw_get_agent_id G (env s) hd in
                         np_setitems dones ids (negb <$> gw_get_alive G (env s) hd))
                      dones (handles s)
           else Ok dones) ;;
  Ok (dict_of (live_items s dones)).

(** *** reset *)

Definition reset (s : magent_parallel_env)
  : magent_parallel_env * result (gmap string (ndarray float)) :=
  let s := set_num_agents (length (possible_agents s)) s in
  let s := set_agents (possible_agents s) s in
  let s := set_env (gw_reset G (env s)) s in
  let s := set_frames 0 s in
  let s := set_all_dones (dict_of ((fun agent => (agent, false)) <$> possible_agents s)) s in
  let s := set_env (generate_map (map_size s) (handles s) (env s)) s in
  (s, _observe_all s).

(** *** step *)

(** [[agent for agent in self.agents if not self.all_dones[agent]]]:
    [self.all_dones] is read once per agent, so an object without agents
    never reads it. *)
Definition live_agents (s : magent_parallel_env) : result (list string) :=
  keep <- traverse (fun agent =>
                      match all_dones s with
                      | None => Raise AttributeError
                      | Some dones => d <- dict_getitem dones agent ;; Ok (agent, negb d)
                      end) (agents s) ;;
  Ok (fst <$> filter (fun ak : string * bool => ak.2 = true) keep).

(** The flat action array: zero everywhere, then the supplied action at the
    position of every possible agent that has one. *)
Definition fill_actions (s : magent_parallel_env) (all_actions : gmap string Z)
    (action_list : list Z) : result (list Z) :=
  foldM (fun action_list ia =>
           match all_actions !! ia.2 with
           | Some a => list_setitem action_list (Z.of_nat ia.1) a
           | None => Ok action_list
           end) action_list (enumerate (possible_agents s)).

(** [np.asarray(action_list, dtype=np.int32)] once the supplied actions are
    filled in. *)
Definition action_array (s : magent_parallel_env) (all_actions : gmap string Z)
    (action_list : list Z) : result (list Z) :=
  action_list <- fill_actions s all_actions action_list ;;
  np_asarray_int32 action_list.

(** The loop that hands each group its slice of the flat array.  The engine
    keeps every action already set when an index fails. *)
Fixpoint set_actions (hs : list (handle G)) (sizes : list nat) (all_actions : list Z)
    (idx : list nat) (start_point : nat) (e : world G) : world G * result nat :=
  match idx with
  | [] => (e, Ok start_point)
  | i :: idx' =>
      match list_getitem sizes i with
      | Raise ex => (e, Raise ex)
      | Ok size =>
          match list_getitem hs i with
          | Raise ex => (e, Raise ex)
          | Ok hd =>
              let e := gw_set_action G hd (slice all_actions start_point (start_point + size)) e in
              set_actions hs sizes all_actions idx' (start_point + size) e
          end
      end
  end.

Definition step_output : Type :=
  gmap string (ndarray float) * gmap string float * gmap string bool
  * gmap string (gmap string Z).

Definition out_observes (out : step_output) : gmap string (ndarray float) := out.1.1.1.
Definition out_rewards (out : step_output) : gmap string float := out.1.1.2.
Definition out_dones (out : step_output) : gmap string bool := out.1.2.
Definition out_infos (out : step_output) : gmap string (gmap string Z) := out.2.

(** The tail of [step], after the engine tick: the four dictionaries. *)
Definition step_results (s : magent_parallel_env) (done : bool) : result step_output :=
  let all_infos := dict_of ((fun agent => (agent, ∅)) <$> agents s) in
  all_dones <- _all_dones s done ;;
  all_rewards <- _all_rewards s ;;
  all_observes <- _observe_all s ;;
  Ok (all_observes, all_rewards, all_dones, all_infos).

Definition step (s : magent_parallel_env) (all_actions : gmap string Z)
  : magent_parallel_env * result step_output :=
  let action_list := replicate (max_num_agents s) 0%Z in
  match live_agents s with
  | Raise ex => (s, Raise ex)
  | Ok ags =>
  let s := set_agents ags s in
  let s := set_env (gw_clear_dead G (env s)) s in
  match action_array s all_actions action_list with
  | Raise ex => (s, Raise ex)
  | Ok all_actions =>
  let '(e, r) := set_actions (handles s) (team_sizes s) all_actions
                             (seq 0 (length (handles s))) 0 (env s) in
  let s := set_env e s in
  match r with
  | Raise ex => (s, Raise ex)
  | Ok _ =>
  let s := set_frames (frames s + 1) s in
  let '(e, signal) := gw_step G (env s) in
  let s := set_env e s in
  let done := signal || (frames s >=? max_frames s)%Z in
  match step_results s done with
  | Raise ex => (s, Raise ex)
  | Ok out => (set_all_dones (out_dones out) s, Ok out)
  end end end end.

(** The object between the engine tick and the three dictionary builders of
    one [step]: live agents filtered, frame counted, engine advanced. *)
Definition ticked (s : magent_parallel_env) (ags : list string) (e : world G)
  : magent_parallel_env :=
  set_env e (set_frames (frames s + 1) (set_agents ags s)).

(** The attributes that only [__init__] assigns. *)
Definition setup (s : magent_parallel_env) :=
  (map_size s, max_frames s, handles s, team_sizes s, possible_agents s,
   max_num_agents s, action_spaces s, observation_spaces s, _zero_obs s).

(** What construction establishes and every call keeps. *)
Record consistent (s : magent_parallel_env) : Prop := {
  consistent_count : length (possible_agents s) = max_num_agents s;
  consistent_sizes : sum_list (team_sizes s) = max_num_agents s;
  consistent_groups : length (team_sizes s) = length (handles s);
  consistent_agents : forall a, a ∈ agents s -> a ∈ possible_agents s;
  consistent_dones : forall d a, all_dones s = Some d -> a ∈ agents s -> is_Some (d !! a);
  consistent_zero : forall a, a ∈ possible_agents s ->
    exists space, observation_spaces s !! a = Some space
                  /\ _zero_obs s !! a = Some (np_zeros fzero (box_shape space));
}.

(** *** Runs of one environment object *)

(** The states an environment object constructed as [s0] goes through, whether
    a call returns or raises (a caller may catch the exception and go on). *)
Inductive run (s0 : magent_parallel_env) : magent_parallel_env -> Prop :=
  | run_init : run s0 s0
  | run_seed s sd : run s0 s -> run s0 (seed sd s)
  | run_reset s : run s0 s -> run s0 (reset s).1
  | run_step s all_actions : run s0 s -> run s0 (step s all_actions).1.

(** What the adapter needs from the engine in a given world for its queries to
    go through: every reported id names a slot, and rewards, alive flags and
    observation batches have one entry per reported id. *)
Definition observable (s : magent_parallel_env) : Prop :=
  Forall (fun hd =>
    let ids := gw_get_agent_id G (env s) hd in
    let '(view, features) := gw_get_observation G (env s) hd in
    Forall (fun i => is_Ok (py_index (max_num_agents s) i)) ids
    /\ length (gw_get_reward G (env s) hd) = length ids
    /\ length (gw_get_alive G (env s) hd) = length ids
    /\ is_Ok (group_obs view features)) (handles s).

End Adapter.

Arguments magent_parallel_env {float} G.
Arguments step_output float : clear implicits.
Arguments map_size {float G} _.
Arguments max_frames {float G} _.
Arguments env {float G} _.
Arguments handles {float G} _.
Arguments team_sizes {float G} _.
Arguments agents {float G} _.
Arguments possible_agents {float G} _.
Arguments max_num_agents {float G} _.
Arguments action_spaces {float G} _.
Arguments observation_spaces {float G} _.
Arguments _zero_obs {float G} _.
Arguments frames {float G} _.
Arguments num_agents {float G} _.
Arguments all_dones {float G} _.
Arguments init {float} fzero {G} generate_map e active_handles names msize mframes.
Arguments seed {float G} sd s.
Arguments reset {float G} generate_map s.
Arguments step {float} fzero {G} s all_actions.
Arguments _observe_all {float G} s.
Arguments _all_rewards {float} fzero {G} s.
Arguments _all_dones {float G} s step_done.
Arguments action_array {float G} s all_actions action_list.
Arguments run {float} fzero {G} generate_map s0 _.
Arguments live_items {float G V} s vals.
Arguments out_observes {float} out.
Arguments out_rewards {float} out.
Arguments out_dones {float} out.
Arguments out_infos {float} out.
Arguments step_results {float} fzero {G} s done.
Arguments observe_group {float G} s observes hd.
Arguments ticked {float G} s ags e.
Arguments setup {float G} s.
Arguments consistent {float} fzero {G} s.
Arguments live_agents {float G} s.
Arguments fill_actions {float G} s all_actions action_list.
Arguments set_env {float G} e s.
Arguments set_agents {float G} l s.
Arguments set_frames {float G} f s.
Arguments set_num_agents {float G} k s.
Arguments set_all_dones {float G} d s.
Arguments observable {float G} s.

(** ** The engine with its calls recorded

    Any engine can be run with a log of the lifecycle calls made on it; the
    queries read the underlying world.  Statements about which calls the
    adapter makes, with which arguments and in which order, are statements
    about this log. *)

Inductive call (H : Type) : Type :=
  | CallReset
  | CallStep
  | CallClearDead
  | CallSetAction (hd : H) (actions : list Z)
  | CallSetSeed (sd : Z).
Arguments CallReset {H}.
Arguments CallStep {H}.
Arguments CallClearDead {H}.
Arguments CallSetAction {H} hd actions.
Arguments CallSetSeed {H} sd.

Definition traced {float} (G : Engine float) : Engine float := {|
  world := world G * list (call (handle G));
  handle := handle G;
  gw_reset w := (gw_reset G w.1, w.2 ++ [CallReset]);
  gw_step w := ((gw_step G w.1).1, w.2 ++ [CallStep], (gw_step G w.1).2);
  gw_clear_dead w := (gw_clear_dead G w.1, w.2 ++ [CallClearDead]);
  gw_set_action hd acts w := (gw_set_action G hd acts w.1, w.2 ++ [CallSetAction hd acts]);
  gw_set_seed sd w := (gw_set_seed G sd w.1, w.2 ++ [CallSetSeed sd]);
  gw_get_num w := gw_get_num G w.1;
  gw_get_action_space w := gw_get_action_space G w.1;
  gw_get_view_space w := gw_get_view_space G w.1;
  gw_get_feature_space w := gw_get_feature_space G w.1;
  gw_get_agent_id w := gw_get_agent_id G w.1;
  gw_get_observation w := gw_get_observation G w.1;
  gw_get_reward w := gw_get_reward G w.1;
  gw_get_alive w := gw_get_alive G w.1;
|}.

Definition traced_generate_map {float} {G : Engine float}
    (generate_map : Z -> list (handle G) -> world G -> world G)
  : Z -> list (handle (traced G)) -> world (traced G) -> world (traced G) :=
  fun msize hs w => (generate_map msize hs w.1, w.2).

(** The slice of the flat action array that belongs to group [i] by the team
    sizes: it starts after the members of the groups before [i] and has one
    entry per member of group [i]. *)
Definition group_slice (sizes : list nat) (all_actions : list Z) (i : nat) : list Z :=
  take (default 0 (sizes !! i)) (drop (sum_list (take i sizes)) all_actions).

(** Slot [i] of the per-agent arrays is not written in the current world: no
    id reported for any handle resolves to it. *)
Definition unreported {float} {G : Engine float} (s : magent_parallel_env G) (i : nat) : Prop :=
  forall hd id, hd ∈ handles s -> id ∈ gw_get_agent_id G (env s) hd ->
                py_index (max_num_agents s) id <> Ok i.

(** Group number [j] reports, at position [p] of its id list, an id that
    resolves to slot [i]. *)
Definition reports {float} {G : Engine float} (s : magent_parallel_env G) (j p i : nat) : Prop :=
  exists hd id, handles s !! j = Some hd
                /\ gw_get_agent_id G (env s) hd !! p = Some id
                /\ py_index (max_num_agents s) id = Ok i.

(** Each group paired with its slice, in the order of the handles. *)
Definition group_actions {H} (hs : list H) (sizes : list nat) (all_actions : list Z)
  : list (H * list Z) :=
  zip hs (group_slice sizes all_actions <$> seq 0 (length hs)).

(** The [set_action] calls of a log, in order: which group was handed which
    array. *)
Definition set_action_calls {H} (log : list (call H)) : list (H * list Z) :=
  omap (fun c => match c with CallSetAction hd acts => Some (hd, acts) | _ => None end) log.

(** The calls one [step] makes on an object that has been reset: dead agents
    cleared first; then, if the action array could be built, every group handed
    its slice and the engine ticked. *)
Definition step_log {float} {G : Engine float} (s : magent_parallel_env G)
    (all_actions : gmap string Z) : list (call (handle G)) :=
  match action_array s all_actions (replicate (max_num_agents s) 0%Z) with
  | Raise _ => [CallClearDead]
  | Ok arr =>
      CallClearDead
      :: ((fun p => CallSetAction p.1 p.2)
            <$> group_actions (handles s) (team_sizes s) arr) ++ [CallStep]
  end.

(** The agents of a list whose stored done flag is [False]. *)
Definition not_done (dones : gmap string bool) (ags : list string) : list string :=
  filter (fun a => dones !! a = Some false) ags.

(** ** A small engine

    Two groups on global ids: group 0 owns ids 0 and 1, group 1 owns id 2.
    An agent whose action is 9 dies in the next tick and stays reported (not
    alive) until dead agents are cleared; an agent whose action is 8 leaves the
    engine at once.  The reward of an agent is its last action; scalars are
    integers. *)
Module Toy.

Inductive status : Set := Alive | Dead | Cleared.

Global Instance status_eq_dec : EqDecision status.
Proof. solve_decision. Defined.

Record toy_world : Set := { tick : nat; statuses : list status; last_actions : list Z }.

Definition group_ids (g : nat) : list nat :=
  match g with 0 => [0; 1] | 1 => [2] | _ => [] end.

Definition reported (w : toy_world) (g : nat) : list nat :=
  filter (fun i => statuses w !! i <> Some Cleared) (group_ids g).

Definition toy_step (w : toy_world) : toy_world * bool :=
  let sts := zip_with (fun st a =>
                         match st with
                         | Alive => if decide (a = 9%Z) then Dead
                                    else if decide (a = 8%Z) then Cleared else Alive
                         | _ => st
                         end) (statuses w) (last_actions w) in
  ({| tick := S (tick w); statuses := sts; last_actions := last_actions w |},
   bool_decide (Forall (fun st => st <> Alive) sts)).

Definition toy_set_action (g : nat) (acts : list Z) (w : toy_world) : toy_world :=
  {| tick := tick w; statuses := statuses w;
     last_actions := foldl (fun l ia => <[ia.1 := ia.2]> l) (last_actions w)
                           (zip (group_ids g) acts) |}.

Definition toy_observation (w : toy_world) (g : nat) : ndarray Z * ndarray Z :=
  let ids := reported w g in
  ({| shape := [length ids; 1; 2; 1];
      data := ids ≫= fun i => [Z.of_nat i; Z.of_nat (tick w)] |},
   {| shape := [length ids; 2];
      data := ids ≫= fun i => [default 0%Z (last_actions w !! i); 5%Z] |}).

Definition engine : Engine Z := {|
  world := toy_world;
  handle := nat;
  gw_reset _ := {| tick := 0; statuses := [Alive; Alive; Alive]; last_actions := [0; 0; 0]%Z |};
  gw_step := toy_step;
  gw_clear_dead w :=
    {| tick := tick w;
       statuses := (fun st => match st with Dead => Cleared | _ => st end) <$> statuses w;
       last_actions := last_actions w |};
  gw_set_action := toy_set_action;
  gw_set_seed _ w := w;
  gw_get_num _ g := length (group_ids g);
  gw_get_action_space _ _ := [10];
  gw_get_view_space _ _ := [1; 2; 1];
  gw_get_feature_space _ _ := [2];
  gw_get_agent_id w g := Z.of_nat <$> reported w g;
  gw_get_observation := toy_observation;
  gw_get_reward w g := (fun i => default 0%Z (last_actions w !! i)) <$> reported w g;
  gw_get_alive w g := (fun i => bool_decide (statuses w !! i = Some Alive)) <$> reported w g;
|}.

Definition generate_map (_ : Z) (_ : list (handle engine)) (w : world engine) : world engine := w.

Definition blank : toy_world := {| tick := 7; statuses := []; last_actions := [] |}.

(** [magent_parallel_env(env, [0, 1], ["red", "blue"], 45, 3)] *)
Definition made : result (magent_parallel_env engine) :=
  init 0%Z generate_map blank [0; 1] ["red"; "blue"] 45 3.

(** The same object on the engine that records its calls. *)
Definition made_traced : result (magent_parallel_env (traced engine)) :=
  init (G := traced engine) 0%Z (traced_generate_map (G := engine) generate_map)
       (blank, []) [0; 1] ["red"; "blue"] 45 3.

Definition unwrap {A} (d : A) (r : result A) : A :=
  match r with Ok a => a | Raise _ => d end.

Definition nothing {G : Engine Z} (e : world G) : magent_parallel_env G :=
  {| map_size := 0; max_frames := 0; env := e; handles := []; team_sizes := [];
     agents := []; possible_agents := []; max_num_agents := 0; action_spaces := ∅;
     observation_spaces := ∅; _zero_obs := ∅; frames := 0; num_agents := None;
     all_dones := None |}.

(** The constructed object, after one [reset], and after one and two steps in
    which [red_0] plays 9 (and dies) and [blue_0] plays 8 (and leaves). *)
Definition start : magent_parallel_env engine :=
  unwrap (nothing (G := engine) blank) made.
Definition acts1 : gmap string Z := <["red_0" := 9%Z]> (<["blue_0" := 8%Z]> ∅).
Definition s1 : magent_parallel_env engine := (reset generate_map start).1.
Definition s2 : magent_parallel_env engine := (step 0%Z s1 acts1).1.
Definition s3 : magent_parallel_env engine := (step 0%Z s2 acts1).1.

(** The same on the engine that records its calls. *)
Definition tgm := traced_generate_map (G := engine) generate_map.
Definition start_traced : magent_parallel_env (traced engine) :=
  unwrap (nothing (G := traced engine) (blank, [])) made_traced.
Definition t1 : magent_parallel_env (traced engine) := (reset tgm start_traced).1.
Definition t2 : magent_parallel_env (traced engine) := (step 0%Z t1 acts1).1.

(** After the third step, which exhausts the frame budget of 3. *)
Definition s4 : magent_parallel_env engine := (step 0%Z s3 acts1).1.

(** An object on group 1 alone: its one agent has engine id 2, outside the
    one-slot arrays of the adapter. *)
Definition lone : magent_parallel_env engine :=
  unwrap (nothing (G := engine) blank)
         (init (G := engine) 0%Z generate_map blank [1] ["blue"] 45 3).
Definition lone1 : magent_parallel_env engine := (reset generate_map lone).1.

End Toy.

(** ** Episodes *)

Section Episodes.

Context {float : Type} (fzero : float) {G : Engine float}.

(** The object after a sequence of [step] calls, one action dictionary each. *)
Fixpoint play (s : magent_parallel_env G) (l : list (gmap string Z)) : magent_parallel_env G :=
  match l with
  | [] => s
  | all_actions :: l' => play (step fzero s all_actions).1 l'
  end.

(** Every call of the sequence returns. *)
Fixpoint all_return (s : magent_parallel_env G) (l : list (gmap string Z)) : Prop :=
  match l with
  | [] => True
  | all_actions :: l' =>
      is_Ok (step fzero s all_actions).2 /\ all_return (step fzero s all_actions).1 l'
  end.

End Episodes.

(** * Facts about the building blocks *)

Lemma bind_Ok {A B} (m : result A) (f : A -> result B) b :
  bind m f = Ok b <-> exists a, m = Ok a /\ f a = Ok b.
Proof.
  destruct m as [a|e]; simpl; split.
  - eauto.
  - by intros (a' & [= ->] & Hf).
  - discriminate.
  - by intros (a' & ? & _).
Qed.

Lemma traverse_Ok {A B} (f : A -> result B) l r :
  traverse f l = Ok r -> Forall2 (fun x y => f x = Ok y) l r.
Proof.
  revert r. induction l as [|x l IH]; intros r; simpl.
  - intros [= <-]. constructor.
  - rewrite bind_Ok. intros (y & Hy & Hrest).
    apply bind_Ok in Hrest as (ys & Hys & [= <-]).
    constructor; auto.
Qed.

Lemma traverse_total {A B} (f : A -> result B) l :
  Forall (fun x => is_Ok (f x)) l -> is_Ok (traverse f l).
Proof.
  induction 1 as [|x l [y Hy] _ [ys Hys]]; simpl.
  - by eexists.
  - rewrite Hy. simpl. rewrite Hys. by eexists.
Qed.

(** An invariant of the loop body holds after the loop. *)
Lemma foldM_invariant {A B} (P : B -> Prop) (f : B -> A -> result B) l b b' :
  (forall b x b', x ∈ l -> P b -> f b x = Ok b' -> P b') ->
  P b -> foldM f b l = Ok b' -> P b'.
Proof.
  revert b. induction l as [|x l IH]; intros b Hstep Hb; simpl.
  - by intros [= <-].
  - rewrite bind_Ok. intros (b1 & H1 & Hrest).
    eapply IH; [| |exact Hrest].
    + intros ? ? ? Hin. apply Hstep. by right.
    + eapply Hstep; [by left|exact Hb|exact H1].
Qed.

Lemma foldM_total {A B} (P : B -> Prop) (f : B -> A -> result B) l b :
  (forall b x, x ∈ l -> P b -> exists b', f b x = Ok b' /\ P b') ->
  P b -> exists b', foldM f b l = Ok b' /\ P b'.
Proof.
  revert b. induction l as [|x l IH]; intros b Hstep Hb; simpl.
  - eauto.
  - destruct (Hstep b x) as (b1 & H1 & Hb1); [by left|done|].
    rewrite H1. simpl. apply IH; [|done].
    intros ? ? Hin. apply Hstep. by right.
Qed.

Lemma foldM_app {A B} (f : B -> A -> result B) b l1 l2 :
  foldM f b (l1 ++ l2) = bind (foldM f b l1) (fun b' => foldM f b' l2).
Proof.
  revert b. induction l1 as [|x l1 IH]; intros b; simpl; [done|].
  destruct (f b x) as [b1|ex]; simpl; [apply IH|done].
Qed.

(** *** Dictionaries *)

Lemma dict_of_snoc {V} (l : list (string * V)) k v :
  dict_of (l ++ [(k, v)]) = <[k := v]> (dict_of l).
Proof. unfold dict_of. by rewrite foldl_snoc. Qed.

Lemma dict_of_reverse {V} (l : list (string * V)) : dict_of l = list_to_map (reverse l).
Proof.
  induction l as [|[k v] l IH] using rev_ind; [done|].
  by rewrite dict_of_snoc, reverse_snoc, IH.
Qed.

Lemma dom_dict_of {V} (l : list (string * V)) :
  dom (dict_of l) = list_to_set (C := gset string) l.*1.
Proof.
  induction l as [|[k v] l IH] using rev_ind; [apply dom_empty_L|].
  rewrite dict_of_snoc, dom_insert_L, IH, fmap_app, list_to_set_app_L. simpl.
  rewrite (right_id_L ∅ (∪)). apply (comm_L (∪)).
Qed.

Lemma dict_of_lookup_Some {V} (l : list (string * V)) k v :
  dict_of l !! k = Some v -> (k, v) ∈ l.
Proof.
  rewrite dict_of_reverse. intros H%elem_of_list_to_map_2. by apply elem_of_reverse.
Qed.

Lemma dict_of_lookup_NoDup {V} (l : list (string * V)) k v :
  NoDup l.*1 -> (k, v) ∈ l -> dict_of l !! k = Some v.
Proof.
  intros Hnd Hin. rewrite dict_of_reverse. apply elem_of_list_to_map_1.
  - by rewrite fmap_reverse, reverse_Permutation.
  - by apply elem_of_reverse.
Qed.

Lemma dict_of_const {V} (l : list string) (v : V) k :
  k ∈ l -> dict_of ((fun a => (a, v)) <$> l) !! k = Some v.
Proof.
  intros Hin.
  assert (is_Some (dict_of ((fun a => (a, v)) <$> l) !! k)) as [v' Hv'].
  { apply elem_of_dom. rewrite dom_dict_of, <- list_fmap_compose.
    apply elem_of_list_to_set, list_elem_of_fmap. by exists k. }
  rewrite Hv'. apply dict_of_lookup_Some, list_elem_of_fmap in Hv' as (a & [= -> ->] & _).
  done.
Qed.

(** *** Index assignment *)

Lemma py_index_lt n i k : py_index n i = Ok k -> k < n.
Proof. unfold py_index. repeat case_decide; intros [= <-]; lia. Qed.

Lemma py_index_nonneg n (i : nat) : i < n -> py_index n (Z.of_nat i) = Ok i.
Proof.
  intros Hi. unfold py_index. rewrite decide_True by lia. by rewrite Nat2Z.id.
Qed.

Lemma list_setitem_length {A} (l l' : list A) i x :
  list_setitem l i x = Ok l' -> length l' = length l.
Proof.
  unfold list_setitem. rewrite bind_Ok. intros (k & _ & [= <-]). apply length_insert.
Qed.

Lemma list_setitems_length {A} (l l' : list A) kvs :
  list_setitems l kvs = Ok l' -> length l' = length l.
Proof.
  unfold list_setitems.
  apply (foldM_invariant (fun b => length b = length l)); [|done].
  intros b kv b' _ Hb Hset. apply list_setitem_length in Hset. congruence.
Qed.

(** A slot that no assignment resolves to keeps its content. *)
Lemma list_setitems_untouched {A} (l l' : list A) kvs j :
  list_setitems l kvs = Ok l' ->
  (forall kv, kv ∈ kvs -> py_index (length l) kv.1 <> Ok j) ->
  l' !! j = l !! j.
Proof.
  unfold list_setitems. intros Hfold Hno.
  refine (proj2 (foldM_invariant (fun b => length b = length l /\ b !! j = l !! j)
                   _ kvs l l' _ _ Hfold)); [|done].
  intros b kv b' Hin [Hlen Hb] Hset. split.
  - apply list_setitem_length in Hset. congruence.
  - unfold list_setitem in Hset. apply bind_Ok in Hset as (k & Hk & [= <-]).
    rewrite list_lookup_insert_ne; [done|].
    intros ->. apply (Hno kv Hin). by rewrite <- Hlen.
Qed.

(** A slot that exactly one assignment resolves to holds the assigned value. *)
Lemma list_setitems_unique {A} (l l' : list A) kvs p i x j :
  list_setitems l kvs = Ok l' ->
  kvs !! p = Some (i, x) ->
  py_index (length l) i = Ok j ->
  (forall p' kv, kvs !! p' = Some kv -> py_index (length l) kv.1 = Ok j -> p' = p) ->
  l' !! j = Some x.
Proof.
  unfold list_setitems. revert l p.
  induction kvs as [|kv kvs IH]; intros l p Hfold Hp Hi Huniq; [done|].
  simpl in Hfold. apply bind_Ok in Hfold as (l1 & H1 & Hrest).
  pose proof (list_setitem_length _ _ _ _ H1) as Hlen.
  destruct p as [|p]; simpl in Hp.
  - injection Hp as ->.
    assert (l1 !! j = Some x) as Hl1.
    { unfold list_setitem in H1. simpl in H1. rewrite Hi in H1. simpl in H1.
      injection H1 as <-. apply list_lookup_insert_eq. by eapply py_index_lt. }
    rewrite <- Hl1. eapply list_setitems_untouched; [exact Hrest|].
    intros kv' Hin Hj. apply list_elem_of_lookup in Hin as [p' Hp'].
    rewrite Hlen in Hj. by specialize (Huniq (S p') kv' Hp' Hj).
  - eapply (IH l1 p); [done|done|by rewrite Hlen|].
    intros p' kv' Hp' Hj. rewrite Hlen in Hj.
    by specialize (Huniq (S p') kv' Hp' Hj) as [= ->].
Qed.

Lemma list_setitems_total {A} (l : list A) kvs :
  Forall (fun kv => is_Ok (py_index (length l) kv.1)) kvs ->
  is_Ok (list_setitems l kvs).
Proof.
  intros Hall. unfold list_setitems.
  destruct (foldM_total (fun b => length b = length l)
              (fun l kv => list_setitem l kv.1 kv.2) kvs l) as (b' & Hb' & _);
    [|done|by exists b'].
  intros b kv Hin Hb. rewrite Forall_forall in Hall.
  destruct (Hall kv Hin) as [k Hk]. unfold list_setitem. rewrite Hb, Hk. simpl.
  eexists. split; [done|]. by rewrite length_insert.
Qed.

Lemma np_broadcast_length {A} n (vals vals' : list A) :
  np_broadcast n vals = Ok vals' -> length vals' = n.
Proof.
  unfold np_broadcast. case_decide.
  - by intros [= <-].
  - destruct vals as [|v [|]]; try discriminate. intros [= <-]. apply length_replicate.
Qed.

Lemma np_setitems_length {A} (a a' : list A) ids vals :
  np_setitems a ids vals = Ok a' -> length a' = length a.
Proof.
  unfold np_setitems. rewrite bind_Ok. intros (v' & _ & H).
  by apply list_setitems_length in H.
Qed.

Lemma np_setitems_untouched {A} (a a' : list A) ids vals j :
  np_setitems a ids vals = Ok a' ->
  (forall i, i ∈ ids -> py_index (length a) i <> Ok j) ->
  a' !! j = a !! j.
Proof.
  unfold np_setitems. rewrite bind_Ok. intros (v' & _ & H) Hno.
  eapply list_setitems_untouched; [exact H|].
  intros [i v] Hin. apply Hno. by apply elem_of_zip_l in Hin.
Qed.

Lemma np_setitems_unique {A} (a a' : list A) ids vals p id x j :
  np_setitems a ids vals = Ok a' ->
  length vals = length ids ->
  ids !! p = Some id -> vals !! p = Some x ->
  py_index (length a) id = Ok j ->
  (forall p' id', ids !! p' = Some id' -> py_index (length a) id' = Ok j -> p' = p) ->
  a' !! j = Some x.
Proof.
  unfold np_setitems, np_broadcast. intros Hset Hlen Hid Hx Hj Huniq.
  rewrite decide_True in Hset by done. simpl in Hset.
  eapply (list_setitems_unique _ _ _ p id x j Hset); [|done|].
  - apply lookup_zip_with_Some. eauto.
  - intros p' [id' x'] Hp' Hj'.
    apply lookup_zip_with_Some in Hp' as (? & ? & [= <- <-] & Hid' & _).
    by apply (Huniq p' id').
Qed.

Lemma np_setitems_total {A} (a : list A) ids vals :
  Forall (fun i => is_Ok (py_index (length a) i)) ids ->
  length vals = length ids ->
  is_Ok (np_setitems a ids vals).
Proof.
  intros Hids Hlen. unfold np_setitems, np_broadcast.
  rewrite decide_True by done. simpl. apply list_setitems_total.
  rewrite Forall_forall in Hids. apply Forall_forall. intros [i v] Hin.
  apply Hids. by apply elem_of_zip_l in Hin.
Qed.

(** * Facts about the adapter *)

Section AdapterFacts.

Context {float : Type} (fzero : float) (G : Engine float).
Variable generate_map : Z -> list (handle G) -> world G -> world G.

Implicit Types s : magent_parallel_env G.

(** *** The shared comprehension *)

Lemma live_items_fst {V} s (vals : list V) a :
  a ∈ (live_items s vals).*1 <->
  a ∈ agents s /\ exists i v, possible_agents s !! i = Some a /\ vals !! i = Some v.
Proof.
  unfold live_items. rewrite list_elem_of_fmap. split.
  - intros ([a' v] & -> & Hin). apply list_elem_of_filter in Hin as [Hlive Hzip].
    simpl in *. split; [by apply elem_of_list_to_set in Hlive|].
    apply list_elem_of_lookup in Hzip as [i Hi].
    apply lookup_zip_with_Some in Hi as (x & y & [= <- <-] & Hx & Hy). eauto.
  - intros (Hlive & i & v & Hi & Hv). exists (a, v). split; [done|].
    apply list_elem_of_filter. split; [by apply elem_of_list_to_set|].
    apply list_elem_of_lookup. exists i. apply lookup_zip_with_Some. eauto.
Qed.

(** With one value per possible agent, the comprehension is keyed by exactly
    the live agents. *)
Lemma live_items_keys {V} s (vals : list V) :
  length vals = length (possible_agents s) ->
  (forall a, a ∈ agents s -> a ∈ possible_agents s) ->
  dom (dict_of (live_items s vals)) = list_to_set (agents s).
Proof.
  intros Hlen Hsub. rewrite dom_dict_of. apply set_eq. intros a.
  rewrite !elem_of_list_to_set, live_items_fst. split; [tauto|].
  intros Hlive. split; [done|].
  destruct (proj1 (list_elem_of_lookup _ _) (Hsub a Hlive)) as [i Hi].
  destruct (lookup_lt_is_Some_2 vals i) as [v Hv].
  { rewrite Hlen. by eapply lookup_lt_Some. }
  eauto.
Qed.

(** The value a live agent gets is the one at its position. *)
Lemma live_items_lookup {V} s (vals : list V) a v :
  NoDup (possible_agents s) ->
  dict_of (live_items s vals) !! a = Some v <->
  a ∈ agents s /\ exists i, possible_agents s !! i = Some a /\ vals !! i = Some v.
Proof.
  intros Hnd.
  assert (NoDup (live_items s vals).*1) as Hnd'.
  { unfold live_items. apply NoDup_fmap_fst.
    - intros a' v1 v2 [_ H1]%list_elem_of_filter [_ H2]%list_elem_of_filter.
      apply list_elem_of_lookup in H1 as [i1 H1], H2 as [i2 H2].
      apply lookup_zip_with_Some in H1 as (? & ? & [= <- <-] & Ha1 & Hv1).
      apply lookup_zip_with_Some in H2 as (? & ? & [= <- <-] & Ha2 & Hv2).
      assert (i1 = i2) as -> by (by eapply NoDup_lookup).
      congruence.
    - apply NoDup_filter, NoDup_zip_l, Hnd. }
  split.
  - intros Hin%dict_of_lookup_Some. unfold live_items in Hin.
    apply list_elem_of_filter in Hin as [Hlive Hzip]. simpl in Hlive.
    split; [by apply elem_of_list_to_set in Hlive|].
    apply list_elem_of_lookup in Hzip as [i Hi].
    apply lookup_zip_with_Some in Hi as (x & y & [= <- <-] & Hx & Hy). eauto.
  - intros (Hlive & i & Hi & Hv). apply dict_of_lookup_NoDup; [done|].
    unfold live_items. apply list_elem_of_filter. split; [by apply elem_of_list_to_set|].
    apply list_elem_of_lookup. exists i. apply lookup_zip_with_Some. eauto.
Qed.

(** *** Construction *)

Lemma team_groups_length {A B} (xs : list A) (f : A -> nat -> B) sizes k groups :
  traverse (fun js : nat * nat =>
              match js.2 with
              | 0 => Ok []
              | S _ => x <- list_getitem xs js.1 ;; Ok (f x <$> seq 0 js.2)
              end) (zip (seq k (length sizes)) sizes) = Ok groups ->
  length <$> groups = sizes.
Proof.
  revert k groups. induction sizes as [|sz sizes IH]; intros k groups; simpl.
  - by intros [= <-].
  - rewrite bind_Ok. intros (g & Hg & Hrest).
    apply bind_Ok in Hrest as (gs & Hgs & [= <-]).
    simpl. f_equal; [|by eapply IH].
    destruct sz as [|sz]; [by injection Hg as <-|].
    apply bind_Ok in Hg as (x & _ & [= <-]).
    simpl. by rewrite length_fmap, length_seq.
Qed.

Lemma for_team_members_length {A B} (xs : list A) sizes (f : A -> nat -> B) r :
  for_team_members xs sizes f = Ok r -> length r = sum_list sizes.
Proof.
  unfold for_team_members, enumerate. rewrite bind_Ok.
  intros (groups & Hgroups & [= <-]).
  apply team_groups_length in Hgroups. rewrite <- Hgroups.
  clear. induction groups as [|g groups IH]; [done|].
  simpl. rewrite length_app. by rewrite IH.
Qed.

Lemma init_consistent e hs names msize mframes s0 :
  init fzero generate_map e hs names msize mframes = Ok s0 ->
  consistent fzero s0 /\ agents s0 = possible_agents s0 /\ all_dones s0 = None.
Proof.
  unfold init. rewrite bind_Ok. intros (ags & Hags & H).
  apply bind_Ok in H as (num_actions & _ & H).
  apply bind_Ok in H as (asl & _ & H).
  apply bind_Ok in H as (shapes & _ & H).
  apply bind_Ok in H as (osl & Hosl & [= <-]).
  apply for_team_members_length in Hags, Hosl.
  split; [|done]. split; simpl; [done|done|apply length_fmap|done|done|].
  intros a Ha.
  {
    assert (is_Some (dict_of (zip ags osl) !! a)) as [space Hspace].
    { apply elem_of_dom. rewrite dom_dict_of, fst_zip by lia.
      by apply elem_of_list_to_set. }
    exists space. split; [done|]. by rewrite lookup_fmap, Hspace. }
Qed.

(** *** The live-agent filter *)

Lemma keep_flags_Ok (dones : gmap string bool) l keep :
  traverse (fun agent => d <- dict_getitem dones agent ;; Ok (agent, negb d)) l = Ok keep ->
  (forall a, a ∈ l -> is_Some (dones !! a))
  /\ fst <$> filter (fun ak : string * bool => ak.2 = true) keep
     = filter (fun a => dones !! a = Some false) l.
Proof.
  revert keep. induction l as [|a l IH]; intros keep; simpl.
  - intros [= <-]. split; [by intros ? ?%elem_of_nil|done].
  - rewrite bind_Ok. intros (ak & Hak & Hrest).
    apply bind_Ok in Hrest as (keep' & Hkeep' & [= <-]).
    apply bind_Ok in Hak as (d & Hd & [= <-]).
    unfold dict_getitem in Hd. destruct (dones !! a) as [d'|] eqn:Hda; [|done].
    injection Hd as ->. destruct (IH _ Hkeep') as [Hall Hfilter]. split.
    + intros a' [->|Hin]%elem_of_cons; [by rewrite Hda|by apply Hall].
    + rewrite filter_cons, (filter_cons (fun a => dones !! a = Some false)). simpl.
      rewrite Hda. destruct d; simpl; [exact Hfilter|].
      f_equal. exact Hfilter.
Qed.

Lemma keep_flags_total (dones : gmap string bool) l :
  (forall a, a ∈ l -> is_Some (dones !! a)) ->
  is_Ok (traverse (fun agent => d <- dict_getitem dones agent ;; Ok (agent, negb d)) l).
Proof.
  intros Hall. apply traverse_total, Forall_forall. intros a Ha.
  destruct (Hall a Ha) as [d Hd]. unfold dict_getitem. rewrite Hd. by eexists.
Qed.

(** The comprehension at the top of [step] keeps, in order, the agents whose
    stored done flag is [False]; it needs the flags that [reset] or the last
    [step] stored. *)
Lemma live_agents_Ok s ags :
  live_agents s = Ok ags ->
  exists d, (all_dones s = Some d \/ (all_dones s = None /\ agents s = []))
            /\ (forall a, a ∈ agents s -> is_Some (d !! a))
            /\ ags = filter (fun a => d !! a = Some false) (agents s).
Proof.
  unfold live_agents. destruct (all_dones s) as [d|].
  - rewrite bind_Ok. intros (keep & Hkeep & [= <-]).
    apply keep_flags_Ok in Hkeep as [Hall Hfilter]. eauto.
  - destruct (agents s) as [|a l]; [|done]. simpl. intros [= <-].
    exists ∅. split; [by right|]. split; [by intros ? ?%elem_of_nil|done].
Qed.

(** Before any flags are stored the comprehension fails on its first agent. *)
Lemma live_agents_unset s :
  all_dones s = None -> agents s <> [] -> live_agents s = Raise AttributeError.
Proof.
  intros Hnone Hags. unfold live_agents. rewrite Hnone.
  by destruct (agents s) as [|a l].
Qed.

Lemma live_agents_total s d :
  all_dones s = Some d ->
  (forall a, a ∈ agents s -> is_Some (d !! a)) ->
  is_Ok (live_agents s).
Proof.
  intros Hd Hall. unfold live_agents. rewrite Hd.
  destruct (keep_flags_total d (agents s) Hall) as [keep ->]. by eexists.
Qed.

(** *** The shape of a [step] that returns *)

Lemma step_Ok s all_actions s' out :
  step fzero s all_actions = (s', Ok out) ->
  exists ags arr e1 k,
    live_agents s = Ok ags
    /\ action_array s all_actions (replicate (max_num_agents s) 0%Z) = Ok arr
    /\ set_actions G (handles s) (team_sizes s) arr (seq 0 (length (handles s))) 0
                   (gw_clear_dead G (env s)) = (e1, Ok k)
    /\ let sq := ticked s ags (gw_step G e1).1 in
       _all_dones sq ((gw_step G e1).2 || (frames s + 1 >=? max_frames s)%Z)
       = Ok (out_dones out)
       /\ _all_rewards fzero sq = Ok (out_rewards out)
       /\ _observe_all sq = Ok (out_observes out)
       /\ out_infos out = dict_of ((fun agent => (agent, ∅)) <$> ags)
       /\ s' = set_all_dones (out_dones out) sq.
Proof.
  unfold step. destruct (live_agents s) as [ags|] eqn:Hlive; [|done].
  cbn [possible_agents set_env set_agents handles team_sizes env frames max_frames
       max_num_agents set_frames].
  change (action_array (set_env (gw_clear_dead G (env s)) (set_agents ags s)))
    with (action_array s).
  destruct (action_array s all_actions _) as [arr|] eqn:Harr; [|done].
  destruct (set_actions G _ _ arr _ 0 _) as [e1 [k|]] eqn:Hset; [|done].
  destruct (gw_step G e1) as [e2 signal] eqn:Hstep.
  cbn [possible_agents set_env set_agents handles team_sizes env frames max_frames
       max_num_agents set_frames agents].
  match goal with |- context [step_results _ ?sq _] => change sq with (ticked s ags e2) end.
  unfold step_results.
  destruct (_all_dones (ticked s ags e2) _) as [dones|] eqn:Hdones; [|done].
  simpl. destruct (_all_rewards fzero _) as [rewards|] eqn:Hrewards; [|done].
  simpl. destruct (_observe_all _) as [observes|] eqn:Hobserves; [|done].
  simpl. intros [= <- <-]. exists ags, arr, e1, k. rewrite Hstep. simpl. auto 10.
Qed.

(** A [step] that raises leaves the object as it was, or with the live agents
    filtered and the engine and frame counter wherever the call got to. *)
Lemma step_Raise s all_actions s' ex :
  step fzero s all_actions = (s', Raise ex) ->
  s' = s \/ exists ags e f, live_agents s = Ok ags
                           /\ s' = set_env e (set_frames f (set_agents ags s)).
Proof.
  unfold step. destruct (live_agents s) as [ags|] eqn:Hlive; [|intros [= <- _]; by left].
  intros H. right. exists ags. revert H.
  destruct (action_array _ all_actions _) as [arr|]; [|intros [= <- _]; by do 2 eexists].
  destruct (set_actions G _ _ arr _ 0 _) as [e1 [k|]]; [|intros [= <- _]; by do 2 eexists].
  destruct (gw_step G _) as [e2 signal].
  destruct (step_results _ _ _); [done|]. intros [= <- _]. by do 2 eexists.
Qed.

(** *** Key sets of the three dictionaries *)

Lemma all_dones_array s step_done d :
  _all_dones s step_done = Ok d ->
  exists dones, length dones = max_num_agents s /\ d = dict_of (live_items s dones)
    /\ (if step_done then dones = replicate (max_num_agents s) true
        else foldM (fun dones hd =>
                      np_setitems dones (gw_get_agent_id G (env s) hd)
                                  (negb <$> gw_get_alive G (env s) hd))
                   (replicate (max_num_agents s) true) (handles s) = Ok dones).
Proof.
  unfold _all_dones. rewrite bind_Ok. intros (dones & Hdones & [= <-]).
  exists dones. split; [|split; [done|]].
  - destruct step_done; simpl in Hdones.
    + injection Hdones as <-. apply length_replicate.
    + revert Hdones.
      apply (foldM_invariant (fun b => length b = max_num_agents s)); [|apply length_replicate].
      intros b hd b' _ Hb Hset. apply np_setitems_length in Hset. congruence.
  - destruct step_done; simpl in Hdones; [by injection Hdones|done].
Qed.

Lemma all_rewards_array s r :
  _all_rewards fzero s = Ok r ->
  exists rewards, length rewards = max_num_agents s /\ r = dict_of (live_items s rewards)
    /\ foldM (fun rewards hd =>
                np_setitems rewards (gw_get_agent_id G (env s) hd)
                            (gw_get_reward G (env s) hd))
             (replicate (max_num_agents s) fzero) (handles s) = Ok rewards.
Proof.
  unfold _all_rewards. rewrite bind_Ok. intros (rewards & Hrewards & [= <-]).
  exists rewards. split; [|done].
  revert Hrewards.
  apply (foldM_invariant (fun b => length b = max_num_agents s)); [|apply length_replicate].
  intros b hd b' _ Hb Hset. apply np_setitems_length in Hset. congruence.
Qed.

Lemma observe_group_length s observes hd observes' :
  observe_group s observes hd = Ok observes' -> length observes' = length observes.
Proof.
  unfold observe_group. destruct (gw_get_observation G (env s) hd) as [view features].
  rewrite bind_Ok. intros (fin_obs & _ & H). apply bind_Ok in H as (rows & _ & H).
  by apply list_setitems_length in H.
Qed.

Lemma zero_filled_keys s (l : list (string * option (ndarray float))) items :
  traverse (fun ao : string * option (ndarray float) =>
              match ao.2 with
              | Some obs => Ok (ao.1, obs)
              | None => z <- dict_getitem (_zero_obs s) ao.1 ;; Ok (ao.1, z)
              end) l = Ok items ->
  items.*1 = l.*1.
Proof.
  intros H%traverse_Ok. induction H as [|[a o] [a' t] l items Hhd _ IH]; [done|].
  simpl. f_equal; [|done]. simpl in Hhd. destruct o as [obs|].
  - by injection Hhd as <- _.
  - by apply bind_Ok in Hhd as (z & _ & [= <- _]).
Qed.

Lemma observe_all_array s obs :
  _observe_all s = Ok obs ->
  exists observes items,
    foldM (observe_group s) (replicate (max_num_agents s) None) (handles s) = Ok observes
    /\ length observes = max_num_agents s
    /\ traverse (fun ao : string * option (ndarray float) =>
                   match ao.2 with
                   | Some obs => Ok (ao.1, obs)
                   | None => z <- dict_getitem (_zero_obs s) ao.1 ;; Ok (ao.1, z)
                   end) (live_items s observes) = Ok items
    /\ obs = dict_of items.
Proof.
  unfold _observe_all. rewrite bind_Ok. intros (observes & Hobserves & H).
  apply bind_Ok in H as (items & Hitems & [= <-]).
  exists observes, items. split; [exact Hobserves|]. split; [|done].
  revert Hobserves.
  apply (foldM_invariant (fun b => length b = max_num_agents s)); [|apply length_replicate].
  intros b hd b' _ Hb Hset. apply observe_group_length in Hset. congruence.
Qed.

Section KeySets.

Variable s : magent_parallel_env G.
Hypothesis Hcount : length (possible_agents s) = max_num_agents s.
Hypothesis Hagents : forall a, a ∈ agents s -> a ∈ possible_agents s.

Lemma all_dones_keys step_done d :
  _all_dones s step_done = Ok d -> dom d = list_to_set (agents s).
Proof.
  intros (dones & Hlen & -> & _)%all_dones_array.
  apply live_items_keys; [congruence|done].
Qed.

Lemma all_rewards_keys r :
  _all_rewards fzero s = Ok r -> dom r = list_to_set (agents s).
Proof.
  intros (rewards & Hlen & -> & _)%all_rewards_array.
  apply live_items_keys; [congruence|done].
Qed.

Lemma observe_all_keys obs :
  _observe_all s = Ok obs -> dom obs = list_to_set (agents s).
Proof.
  intros (observes & items & _ & Hlen & Hitems & ->)%observe_all_array.
  rewrite dom_dict_of, (zero_filled_keys _ _ _ Hitems), <- dom_dict_of.
  apply live_items_keys; [congruence|done].
Qed.

End KeySets.

(** *** The flat action array *)

Lemma fill_actions_from (all_actions : gmap string Z) (l : list string) k al :
  length al = k + length l ->
  foldM (fun action_list (ia : nat * string) =>
           match all_actions !! ia.2 with
           | Some a => list_setitem action_list (Z.of_nat ia.1) a
           | None => Ok action_list
           end) al (zip (seq k (length l)) l)
  = Ok (take k al ++ zip_with (fun agent x => default x (all_actions !! agent)) l (drop k al)).
Proof.
  revert k al. induction l as [|a l IH]; intros k al Hlen; simpl in *.
  - rewrite take_ge by lia. by rewrite (right_id_L [] (++)).
  - destruct (lookup_lt_is_Some_2 al k) as [y Hy]; [lia|].
    rewrite (drop_S _ _ _ Hy). simpl.
    destruct (all_actions !! a) as [x|] eqn:Ha; simpl.
    + unfold list_setitem. rewrite py_index_nonneg by lia. simpl.
      rewrite IH by (rewrite length_insert; lia).
      rewrite drop_insert_lt by lia. f_equal.
      rewrite (take_S_r _ _ x) by (apply list_lookup_insert_eq; lia).
      rewrite take_insert_ge by lia. by rewrite <- (assoc_L (++)).
    + rewrite IH by lia. rewrite (take_S_r _ _ _ Hy). by rewrite <- (assoc_L (++)).
Qed.

(** Before the conversion to 32 bits, slot [i] of the flat array holds the
    action supplied for the [i]-th possible agent, or 0. *)
Lemma fill_actions_Ok s (all_actions : gmap string Z) :
  length (possible_agents s) = max_num_agents s ->
  fill_actions s all_actions (replicate (max_num_agents s) 0%Z)
  = Ok ((fun agent => default 0%Z (all_actions !! agent)) <$> possible_agents s).
Proof.
  intros Hcount. unfold fill_actions, enumerate.
  rewrite fill_actions_from by (rewrite length_replicate; lia).
  simpl. rewrite drop_0. by rewrite zip_with_replicate_r_eq.
Qed.

Lemma to_int32_in_range x :
  (- 2 ^ 31 <= x < 2 ^ 31)%Z -> to_int32 x = Ok x.
Proof.
  intros Hx. unfold to_int32, wrap_int32. rewrite decide_True by lia.
  f_equal. rewrite Z.mod_small; lia.
Qed.

Lemma action_array_Ok s (all_actions : gmap string Z) arr :
  length (possible_agents s) = max_num_agents s ->
  action_array s all_actions (replicate (max_num_agents s) 0%Z) = Ok arr ->
  Forall2 (fun agent y => to_int32 (default 0%Z (all_actions !! agent)) = Ok y)
          (possible_agents s) arr.
Proof.
  intros Hcount. unfold action_array. rewrite fill_actions_Ok by done. simpl.
  intros H%traverse_Ok. by apply Forall2_fmap_l in H.
Qed.

Lemma action_array_total s (all_actions : gmap string Z) :
  length (possible_agents s) = max_num_agents s ->
  map_Forall (fun _ a => - 2 ^ 63 <= a < 2 ^ 63)%Z all_actions ->
  is_Ok (action_array s all_actions (replicate (max_num_agents s) 0%Z)).
Proof.
  intros Hcount Hrange. unfold action_array. rewrite fill_actions_Ok by done. simpl.
  apply traverse_total, Forall_fmap, Forall_forall. intros a _. simpl.
  unfold to_int32. destruct (all_actions !! a) as [x|] eqn:Hx; simpl.
  - apply Hrange in Hx. rewrite decide_True by done. by eexists.
  - by eexists.
Qed.

(** *** Handing the slices to the groups *)

Lemma set_actions_seq (G' : Engine float) (hs : list (handle G')) sizes arr m j e :
  j + m <= length hs -> length sizes = length hs ->
  set_actions G' hs sizes arr (seq j m) (sum_list (take j sizes)) e
  = (foldl (fun e (p : handle G' * list Z) => gw_set_action G' p.1 p.2 e) e
           (zip (take m (drop j hs)) (group_slice sizes arr <$> seq j m)),
     Ok (sum_list (take (j + m) sizes))).
Proof.
  revert j e. induction m as [|m IH]; intros j e Hj Hlen; simpl.
  - by rewrite Nat.add_0_r.
  - destruct (lookup_lt_is_Some_2 sizes j) as [sz Hsz]; [lia|].
    destruct (lookup_lt_is_Some_2 hs j) as [hd Hhd]; [lia|].
    unfold list_getitem. rewrite Hsz, Hhd. rewrite (drop_S _ _ _ Hhd). simpl.
    assert (sum_list (take j sizes) + sz = sum_list (take (S j) sizes)) as Hnext.
    { rewrite (take_S_r _ _ _ Hsz), sum_list_with_app. simpl. lia. }
    rewrite Hnext, IH by lia. rewrite <- Nat.add_succ_comm. f_equal. f_equal.
    unfold slice, group_slice. rewrite Hsz. simpl. f_equal. f_equal. f_equal. lia.
Qed.

Lemma traced_set_actions_log (hs : list (handle G * list Z)) (w : world (traced G)) :
  (foldl (fun e (p : handle (traced G) * list Z) => gw_set_action (traced G) p.1 p.2 e) w hs).2
  = w.2 ++ ((fun p => CallSetAction p.1 p.2) <$> hs).
Proof.
  revert w. induction hs as [|p hs IH]; intros w; simpl.
  - by rewrite (right_id_L [] (++)).
  - rewrite IH. simpl. by rewrite <- (assoc_L (++)).
Qed.

(** *** Every case of [step] *)

Lemma live_agents_not_done s d :
  consistent fzero s -> all_dones s = Some d ->
  live_agents s = Ok (not_done d (agents s)).
Proof.
  intros [_ _ _ _ Hflags _] Hd. destruct (live_agents_total s d Hd) as [ags Hags].
  { intros a. by apply Hflags. }
  rewrite Hags. apply live_agents_Ok in Hags as (d' & [Hd'|[Hd' _]] & _ & ->); [|congruence].
  rewrite Hd in Hd'. by injection Hd' as <-.
Qed.

(** On a consistent object that has been reset, [step] filters the live
    agents and clears the dead; it stops there when the action array cannot be
    built; otherwise every group gets its slice, the engine ticks, the frame
    is counted, and the call returns the four dictionaries (storing the done
    flags) unless a builder raises. *)
Lemma step_cases s all_actions d :
  consistent fzero s -> all_dones s = Some d ->
  let ags := not_done d (agents s) in
  match action_array s all_actions (replicate (max_num_agents s) 0%Z) with
  | Raise ex =>
      step fzero s all_actions
      = (set_env (gw_clear_dead G (env s)) (set_agents ags s), Raise ex)
  | Ok arr =>
      let e1 := foldl (fun e (p : handle G * list Z) => gw_set_action G p.1 p.2 e)
                      (gw_clear_dead G (env s))
                      (group_actions (handles s) (team_sizes s) arr) in
      let sq := ticked s ags (gw_step G e1).1 in
      let done := (gw_step G e1).2 || (frames s + 1 >=? max_frames s)%Z in
      match step_results fzero sq done with
      | Raise ex => step fzero s all_actions = (sq, Raise ex)
      | Ok out => step fzero s all_actions = (set_all_dones (out_dones out) sq, Ok out)
      end
  end.
Proof.
  intros Hs Hd ags. unfold step. rewrite (live_agents_not_done s d Hs Hd). fold ags.
  cbn [possible_agents set_env set_agents handles team_sizes env frames max_frames
       max_num_agents set_frames].
  change (action_array (set_env (gw_clear_dead G (env s)) (set_agents ags s)))
    with (action_array s).
  destruct (action_array s all_actions _) as [arr|ex]; [|done].
  pose proof (set_actions_seq G (handles s) (team_sizes s) arr (length (handles s)) 0
                (gw_clear_dead G (env s))) as Hset.
  simpl in Hset. rewrite Hset by (done || by destruct Hs).
  rewrite firstn_all. fold (group_actions (handles s) (team_sizes s) arr).
  destruct (gw_step G _) as [e2 signal].
  cbn [possible_agents set_env set_agents handles team_sizes env frames max_frames
       max_num_agents set_frames agents fst snd].
  match goal with |- context [step_results _ ?sq _] => change sq with (ticked s ags e2) end.
  by destruct (step_results _ _ _).
Qed.

Lemma group_slices_reshape pre sizes (arr : list Z) :
  group_slice (pre ++ sizes) arr <$> seq (length pre) (length sizes)
  = reshape sizes (drop (sum_list pre) arr).
Proof.
  revert pre. induction sizes as [|sz sizes IH]; intros pre; [done|].
  simpl. f_equal.
  - unfold group_slice. rewrite list_lookup_middle by done.
    by rewrite take_app_length.
  - rewrite drop_drop. specialize (IH (pre ++ [sz])).
    rewrite <- (assoc_L (++)), length_app, sum_list_with_app in IH. simpl in IH.
    rewrite Nat.add_1_r, Nat.add_0_r in IH. exact IH.
Qed.

(** The slices of the groups, one after the other, are the flat array. *)
Lemma group_slices_join sizes (arr : list Z) :
  sum_list sizes = length arr ->
  mjoin (group_slice sizes arr <$> seq 0 (length sizes)) = arr.
Proof.
  intros Hlen. pose proof (group_slices_reshape [] sizes arr) as Hre.
  simpl in Hre. rewrite Hre. by apply join_reshape.
Qed.

Lemma group_slice_lookup sizes (arr : list Z) j sz m :
  sizes !! j = Some sz -> m < sz ->
  group_slice sizes arr j !! m = arr !! (sum_list (take j sizes) + m).
Proof.
  intros Hsz Hm. unfold group_slice. rewrite Hsz. simpl.
  rewrite lookup_take_lt by done. apply lookup_drop.
Qed.

Lemma set_action_calls_of_step {H} (pairs : list (H * list Z)) :
  set_action_calls (CallClearDead :: ((fun p => CallSetAction p.1 p.2) <$> pairs)
                                     ++ [CallStep]) = pairs.
Proof.
  unfold set_action_calls. simpl. induction pairs as [|[hd acts] pairs IH]; [done|].
  simpl. f_equal. exact IH.
Qed.

(** *** Names of the agents *)

Lemma team_groups_lookup {A B} (xs : list A) (f : A -> nat -> B) sizes k groups j sz m :
  traverse (fun js : nat * nat =>
              match js.2 with
              | 0 => Ok []
              | S _ => x <- list_getitem xs js.1 ;; Ok (f x <$> seq 0 js.2)
              end) (zip (seq k (length sizes)) sizes) = Ok groups ->
  sizes !! j = Some sz -> m < sz ->
  exists x, xs !! (k + j) = Some x
            /\ mjoin groups !! (sum_list (take j sizes) + m) = Some (f x m).
Proof.
  revert k groups j. induction sizes as [|sz0 sizes IH]; intros k groups j; [done|].
  simpl. rewrite bind_Ok. intros (g & Hg & Hrest) Hj Hm.
  apply bind_Ok in Hrest as (gs & Hgs & [= <-]).
  assert (length g = sz0) as Hlen.
  { destruct sz0; simpl in Hg; [by injection Hg as <-|].
    apply bind_Ok in Hg as (x & _ & [= <-]). simpl. by rewrite length_fmap, length_seq. }
  destruct j as [|j]; simpl in Hj |- *.
  - injection Hj as ->. destruct sz as [|sz]; [lia|]. simpl in Hg.
    apply bind_Ok in Hg as (x & Hx & [= <-]). exists x. split.
    + rewrite Nat.add_0_r. unfold list_getitem in Hx.
      by destruct (xs !! k); [injection Hx as ->|].
    + rewrite lookup_app_l by (simpl; rewrite length_fmap, length_seq; lia).
      change ((f x <$> seq 0 (S sz)) !! m = Some (f x m)).
      rewrite list_lookup_fmap, lookup_seq_lt by done. done.
  - destruct (IH (S k) gs j Hgs Hj Hm) as (x & Hx & Hlook). exists x. split.
    + by rewrite <- Nat.add_succ_comm.
    + rewrite <- Hlen, <- Nat.add_assoc, lookup_app_r by lia.
      rewrite <- Hlook. f_equal. lia.
Qed.

(** Member [m] of group [j] is named after the group and its index, and sits
    after all members of the groups before [j]. *)
Lemma init_agent_names e hs names msize mframes s0 j sz m :
  init fzero generate_map e hs names msize mframes = Ok s0 ->
  team_sizes s0 !! j = Some sz -> m < sz ->
  exists name, names !! j = Some name
    /\ possible_agents s0 !! (sum_list (take j (team_sizes s0)) + m)
       = Some (agent_name name m).
Proof.
  unfold init. rewrite bind_Ok. intros (ags & Hags & H).
  apply bind_Ok in H as (num_actions & _ & H).
  apply bind_Ok in H as (asl & _ & H).
  apply bind_Ok in H as (shapes & _ & H).
  apply bind_Ok in H as (osl & _ & [= <-]). simpl.
  unfold for_team_members, enumerate in Hags.
  apply bind_Ok in Hags as (groups & Hgroups & [= <-]). intros Hsz Hm.
  by apply (team_groups_lookup names agent_name _ 0 groups j sz m Hgroups).
Qed.

(** *** What every call keeps *)

Lemma step_setup s all_actions : setup (step fzero s all_actions).1 = setup s.
Proof.
  destruct (step fzero s all_actions) as [s' [out|ex]] eqn:Hstep.
  - apply step_Ok in Hstep as (ags & arr & e1 & k & _ & _ & _ & _ & _ & _ & _ & ->). done.
  - apply step_Raise in Hstep as [->|(ags & e & f & _ & ->)]; done.
Qed.

Lemma reset_setup s : setup (reset generate_map s).1 = setup s.
Proof. done. Qed.

Lemma run_setup s0 s : run fzero generate_map s0 s -> setup s = setup s0.
Proof.
  induction 1 as [|s sd _ IH|s _ IH|s all_actions _ IH]; [done|done|done|].
  by rewrite step_setup.
Qed.

Lemma consistent_filtered s ags e f :
  consistent fzero s -> live_agents s = Ok ags ->
  consistent fzero (set_env e (set_frames f (set_agents ags s))).
Proof.
  intros [Hc Hs Hg Ha Hd Hz] (d & Hdones & _ & ->)%live_agents_Ok.
  split; simpl; [done|done|done| | |done].
  - intros a [_ Hin]%list_elem_of_filter. by apply Ha.
  - intros d' a Hd' [_ Hin]%list_elem_of_filter. by eapply Hd.
Qed.

Lemma consistent_step s all_actions :
  consistent fzero s -> consistent fzero (step fzero s all_actions).1.
Proof.
  intros Hs. destruct (step fzero s all_actions) as [s' [out|ex]] eqn:Hstep.
  - apply step_Ok in Hstep as (ags & arr & e1 & k & Hlive & _ & _ & Hd & _ & _ & _ & ->).
    pose proof (consistent_filtered s ags (gw_step G e1).1 (frames s + 1)%Z Hs Hlive)
      as [Hc ? ? Ha ? ?].
    apply all_dones_keys in Hd; [|done|done].
    split; simpl; [done|done|done|done| |done].
    intros d a [= <-] Hin. apply elem_of_dom. rewrite Hd. by apply elem_of_list_to_set.
  - apply step_Raise in Hstep as [->|(ags & e & f & Hlive & ->)]; [done|].
    by apply consistent_filtered.
Qed.

Lemma consistent_reset s : consistent fzero s -> consistent fzero (reset generate_map s).1.
Proof.
  intros [Hc Hs Hg Ha Hd Hz]. split; simpl; [done|done|done|done| |done].
  intros d a [= <-] Hin. rewrite dict_of_const; by eauto.
Qed.

(** Every state of a run of a constructed object is consistent. *)
Lemma run_consistent e hs names msize mframes s0 s :
  init fzero generate_map e hs names msize mframes = Ok s0 ->
  run fzero generate_map s0 s -> consistent fzero s.
Proof.
  intros Hinit%init_consistent. destruct Hinit as (Hs0 & _ & _).
  induction 1 as [|s sd _ IH|s _ IH|s all_actions _ IH].
  - done.
  - destruct IH. by split.
  - by apply consistent_reset.
  - by apply consistent_step.
Qed.

(** *** Slots the engine does not report *)

Lemma all_dones_unreported s d i :
  _all_dones s false = Ok d -> unreported s i -> i < max_num_agents s ->
  exists dones, d = dict_of (live_items s dones) /\ dones !! i = Some true.
Proof.
  intros (dones & Hlen & -> & Hfold)%all_dones_array Hun Hi. exists dones. split; [done|].
  rewrite <- (lookup_replicate_2 (max_num_agents s) true i Hi).
  revert Hfold.
  refine (fun H => proj2 (foldM_invariant
    (fun b => length b = max_num_agents s /\ b !! i = replicate (max_num_agents s) true !! i)
    _ _ _ _ _ _ H)); [|by rewrite length_replicate].
  intros b hd b' Hhd [Hb Hbi] Hset. split.
  - apply np_setitems_length in Hset. congruence.
  - rewrite <- Hbi. eapply np_setitems_untouched; [exact Hset|].
    intros id Hid. rewrite Hb. by apply (Hun hd).
Qed.

Lemma all_rewards_unreported s r i :
  _all_rewards fzero s = Ok r -> unreported s i -> i < max_num_agents s ->
  exists rewards, r = dict_of (live_items s rewards) /\ rewards !! i = Some fzero.
Proof.
  intros (rewards & Hlen & -> & Hfold)%all_rewards_array Hun Hi.
  exists rewards. split; [done|].
  rewrite <- (lookup_replicate_2 (max_num_agents s) fzero i Hi).
  revert Hfold.
  refine (fun H => proj2 (foldM_invariant
    (fun b => length b = max_num_agents s /\ b !! i = replicate (max_num_agents s) fzero !! i)
    _ _ _ _ _ _ H)); [|by rewrite length_replicate].
  intros b hd b' Hhd [Hb Hbi] Hset. split.
  - apply np_setitems_length in Hset. congruence.
  - rewrite <- Hbi. eapply np_setitems_untouched; [exact Hset|].
    intros id Hid. rewrite Hb. by apply (Hun hd).
Qed.

(** The slot that one group reports once holds that group's value for it. *)
Lemma scalars_reported {V} (vals : handle G -> list V) (v0 : V) s res j hd p id i x :
  foldM (fun b hd => np_setitems b (gw_get_agent_id G (env s) hd) (vals hd))
        (replicate (max_num_agents s) v0) (handles s) = Ok res ->
  handles s !! j = Some hd ->
  gw_get_agent_id G (env s) hd !! p = Some id ->
  py_index (max_num_agents s) id = Ok i ->
  (forall j' p', reports s j' p' i -> j' = j /\ p' = p) ->
  length (vals hd) = length (gw_get_agent_id G (env s) hd) ->
  vals hd !! p = Some x ->
  res !! i = Some x.
Proof.
  intros Hfold Hhd Hid Hi Huniq Hlen Hx.
  rewrite <- (take_drop_middle _ _ _ Hhd) in Hfold.
  rewrite foldM_app in Hfold. apply bind_Ok in Hfold as (b1 & Hb1 & Hfold).
  simpl in Hfold. apply bind_Ok in Hfold as (b2 & Hb2 & Hfold).
  assert (length b1 = max_num_agents s) as Hlen1.
  { revert Hb1.
    apply (foldM_invariant (fun b => length b = max_num_agents s));
      [|apply length_replicate].
    intros b y b' _ Hb Hset. apply np_setitems_length in Hset. congruence. }
  assert (b2 !! i = Some x) as Hb2i.
  { eapply (np_setitems_unique _ _ _ _ p id x i Hb2); try done.
    - by rewrite Hlen1.
    - intros p' id' Hid' Hi'. rewrite Hlen1 in Hi'.
      apply (Huniq j p'). by exists hd, id'. }
  rewrite <- Hb2i.
  assert (length b2 = max_num_agents s) as Hlen2.
  { apply np_setitems_length in Hb2. congruence. }
  revert Hfold.
  refine (fun H => proj2 (foldM_invariant
    (fun b => length b = max_num_agents s /\ b !! i = b2 !! i) _ _ _ _ _ _ H)); [|done].
  intros b hd' b' Hin [Hb Hbi] Hset. split.
  - apply np_setitems_length in Hset. congruence.
  - rewrite <- Hbi. eapply np_setitems_untouched; [exact Hset|].
    intros id' Hid' Hres. rewrite Hb in Hres.
    apply list_elem_of_lookup in Hin as [k Hk], Hid' as [p' Hp'].
    rewrite lookup_drop in Hk.
    destruct (Huniq (S j + k) p') as [Hj _]; [by exists hd', id'|]. lia.
Qed.

(** On a call that is not terminal, the flag of a live agent that one group
    reports once is the negation of that group's alive flag for it. *)
Lemma all_dones_reported s d j hd p id i agent :
  NoDup (possible_agents s) ->
  _all_dones s false = Ok d ->
  handles s !! j = Some hd ->
  gw_get_agent_id G (env s) hd !! p = Some id ->
  py_index (max_num_agents s) id = Ok i ->
  (forall j' p', reports s j' p' i -> j' = j /\ p' = p) ->
  length (gw_get_alive G (env s) hd) = length (gw_get_agent_id G (env s) hd) ->
  possible_agents s !! i = Some agent ->
  agent ∈ agents s ->
  d !! agent = negb <$> gw_get_alive G (env s) hd !! p.
Proof.
  intros Hnd (dones & _ & -> & Hfold)%all_dones_array Hhd Hid Hi Huniq Hlen Hagent Hlive.
  destruct (lookup_lt_is_Some_2 (gw_get_alive G (env s) hd) p) as [x Hx].
  { rewrite Hlen. by eapply lookup_lt_Some. }
  rewrite Hx. simpl. apply live_items_lookup; [done|]. split; [done|]. exists i.
  split; [done|].
  apply (scalars_reported (fun hd => negb <$> gw_get_alive G (env s) hd) true s dones
           j hd p id i (negb x)); try done.
  - by rewrite length_fmap.
  - by rewrite list_lookup_fmap, Hx.
Qed.

Lemma observe_group_untouched s b hd b' i :
  observe_group s b hd = Ok b' ->
  (forall id, id ∈ gw_get_agent_id G (env s) hd -> py_index (length b) id <> Ok i) ->
  b' !! i = b !! i.
Proof.
  unfold observe_group. destruct (gw_get_observation G (env s) hd) as [view features].
  rewrite bind_Ok. intros (fin_obs & _ & H). apply bind_Ok in H as (rows & _ & H).
  intros Hun. eapply list_setitems_untouched; [exact H|].
  intros [id o] Hin. apply Hun. by apply elem_of_zip_l in Hin.
Qed.

Lemma observes_unreported s observes i :
  foldM (observe_group s) (replicate (max_num_agents s) None) (handles s) = Ok observes ->
  unreported s i -> i < max_num_agents s -> observes !! i = Some None.
Proof.
  intros Hfold Hun Hi.
  rewrite <- (lookup_replicate_2 (max_num_agents s) None i Hi).
  revert Hfold.
  refine (fun H => proj2 (foldM_invariant
    (fun b => length b = max_num_agents s /\ b !! i = replicate (max_num_agents s) None !! i)
    _ _ _ _ _ _ H)); [|by rewrite length_replicate].
  intros b hd b' Hhd [Hb Hbi] Hset. split.
  - apply observe_group_length in Hset. congruence.
  - rewrite <- Hbi. eapply observe_group_untouched; [exact Hset|].
    intros id Hid. rewrite Hb. by apply (Hun hd).
Qed.

(** The entry of an agent in the observation dictionary comes from its slot:
    the engine's row if one was written, its zero observation otherwise. *)
Lemma observe_all_lookup s obs agent t :
  NoDup (possible_agents s) ->
  _observe_all s = Ok obs -> obs !! agent = Some t ->
  exists observes i,
    foldM (observe_group s) (replicate (max_num_agents s) None) (handles s) = Ok observes
    /\ possible_agents s !! i = Some agent
    /\ (observes !! i = Some (Some t)
        \/ observes !! i = Some None /\ _zero_obs s !! agent = Some t).
Proof.
  intros Hnd (observes & items & Hfold & Hlen & Hitems & ->)%observe_all_array Ht.
  exists observes. apply dict_of_lookup_Some in Ht.
  apply traverse_Ok in Hitems.
  apply list_elem_of_lookup in Ht as [p Hp].
  destruct (Forall2_lookup_r _ _ _ _ _ Hitems Hp) as ([a o] & Hao & Hf).
  assert ((a, o) ∈ live_items s observes) as Hin by (by eapply list_elem_of_lookup_2).
  unfold live_items in Hin. apply list_elem_of_filter in Hin as [_ Hin].
  apply list_elem_of_lookup in Hin as [i Hi].
  apply lookup_zip_with_Some in Hi as (a' & o' & [= <- <-] & Ha & Ho).
  exists i. split; [done|]. simpl in Hf. destruct o as [obs|].
  - injection Hf as <- <-. auto.
  - apply bind_Ok in Hf as (z & Hz & [= <- <-]). split; [done|]. right. split; [done|].
    unfold dict_getitem in Hz. by destruct (_zero_obs s !! a) as [z'|]; [injection Hz as ->|].
Qed.

(** *** When the calls return *)

Lemma group_obs_iterable (view features a : ndarray float) :
  group_obs view features = Ok a -> is_Ok (np_iter a).
Proof.
  unfold group_obs. rewrite bind_Ok. intros (f1 & _ & H).
  apply bind_Ok in H as (f2 & _ & H). apply bind_Ok in H as (h & _ & H).
  apply bind_Ok in H as (w & _ & H). unfold np_concatenate_last in H.
  destruct (unsnoc (shape view)) as [[pa ca]|]; [|done].
  destruct (unsnoc _) as [[pb cb]|]; [|done].
  case_decide; [|done]. injection H as <-. unfold np_iter. simpl.
  destruct pa; by eexists.
Qed.

Section Observable.

Variable s : magent_parallel_env G.
Hypothesis Hobs : observable s.

Lemma all_dones_total step_done : is_Ok (_all_dones s step_done).
Proof.
  unfold _all_dones.
  assert (exists dones,
    (if negb step_done
     then foldM (fun dones hd =>
                   np_setitems dones (gw_get_agent_id G (env s) hd)
                               (negb <$> gw_get_alive G (env s) hd))
                (replicate (max_num_agents s) true) (handles s)
     else Ok (replicate (max_num_agents s) true)) = Ok dones) as [dones ->];
    [|by eexists].
  destruct step_done; simpl; [by eexists|].
  destruct (foldM_total (fun b : list bool => length b = max_num_agents s)
              (fun dones hd =>
                 np_setitems dones (gw_get_agent_id G (env s) hd)
                             (negb <$> gw_get_alive G (env s) hd))
              (handles s) (replicate (max_num_agents s) true))
    as (dones & Hdones & _); [|apply length_replicate|by exists dones].
  intros b hd Hhd Hb. unfold observable in Hobs. rewrite Forall_forall in Hobs.
  specialize (Hobs hd Hhd). simpl in Hobs.
  destruct (gw_get_observation G (env s) hd) as [view features].
  destruct Hobs as (Hids & _ & Halive & _).
  destruct (np_setitems_total b (gw_get_agent_id G (env s) hd)
              (negb <$> gw_get_alive G (env s) hd)) as [b' Hb'].
  - by rewrite Hb.
  - by rewrite length_fmap.
  - exists b'. split; [done|]. apply np_setitems_length in Hb'. congruence.
Qed.

Lemma all_rewards_total : is_Ok (_all_rewards fzero s).
Proof.
  unfold _all_rewards.
  destruct (foldM_total (fun b : list float => length b = max_num_agents s)
              (fun rewards hd =>
                 np_setitems rewards (gw_get_agent_id G (env s) hd)
                             (gw_get_reward G (env s) hd))
              (handles s) (replicate (max_num_agents s) fzero))
    as (rewards & -> & _); [|apply length_replicate|by eexists].
  intros b hd Hhd Hb. unfold observable in Hobs. rewrite Forall_forall in Hobs.
  specialize (Hobs hd Hhd). simpl in Hobs.
  destruct (gw_get_observation G (env s) hd) as [view features].
  destruct Hobs as (Hids & Hrew & _ & _).
  destruct (np_setitems_total b (gw_get_agent_id G (env s) hd)
              (gw_get_reward G (env s) hd)) as [b' Hb'].
  - by rewrite Hb.
  - done.
  - exists b'. split; [done|]. apply np_setitems_length in Hb'. congruence.
Qed.

Lemma observe_all_total :
  (forall a, a ∈ possible_agents s -> is_Some (_zero_obs s !! a)) ->
  is_Ok (_observe_all s).
Proof.
  intros Hzero. unfold _observe_all.
  destruct (foldM_total (fun b : list (option (ndarray float)) =>
                           length b = max_num_agents s) (observe_group s)
              (handles s) (replicate (max_num_agents s) None))
    as (observes & -> & _); [|apply length_replicate|].
  - intros b hd Hhd Hb. unfold observable in Hobs. rewrite Forall_forall in Hobs.
    specialize (Hobs hd Hhd). simpl in Hobs. unfold observe_group.
    destruct (gw_get_observation G (env s) hd) as [view features].
    destruct Hobs as (Hids & _ & _ & [fin_obs Hfin]).
    rewrite Hfin. simpl. destruct (group_obs_iterable _ _ _ Hfin) as [rows ->]. simpl.
    edestruct (list_setitems_total b) as [b' Hb']; [|exists b'; split; [exact Hb'|]].
    + rewrite Hb. rewrite Forall_forall in Hids. apply Forall_forall.
      intros [i o] Hin. apply Hids. by apply elem_of_zip_l in Hin.
    + apply list_setitems_length in Hb'. congruence.
  - simpl.
    match goal with |- is_Ok (bind (traverse ?f ?l) _) =>
      destruct (traverse_total f l) as [items ->]; [|by eexists] end.
    apply Forall_forall. intros [a o] Hin. simpl. destruct o as [obs|]; [by eexists|].
    unfold live_items in Hin. apply list_elem_of_filter in Hin as [_ Hin].
    apply elem_of_zip_l in Hin. destruct (Hzero a Hin) as [z Hz].
    unfold dict_getitem. rewrite Hz. by eexists.
Qed.

End Observable.

(** [step] returns on an object that has been reset, when the supplied actions
    fit a C [long] and the engine, after its tick, answers the queries in the
    expected form. *)
Lemma step_returns s all_actions :
  consistent fzero s ->
  is_Some (all_dones s) ->
  map_Forall (fun _ a => - 2 ^ 63 <= a < 2 ^ 63)%Z all_actions ->
  observable (step fzero s all_actions).1 ->
  is_Ok (step fzero s all_actions).2.
Proof.
  intros Hs [d Hd] Hrange.
  destruct Hs as [Hcount Hsizes Hgroups Hagents Hflags Hzero].
  destruct (live_agents_total s d Hd) as [ags Hlive]; [by intros a; apply Hflags|].
  destruct (action_array_total s all_actions Hcount Hrange) as [arr Harr].
  pose proof (set_actions_seq G (handles s) (team_sizes s) arr (length (handles s)) 0
                (gw_clear_dead G (env s))) as Hset.
  simpl in Hset. specialize (Hset (reflexivity _) Hgroups).
  unfold step. rewrite Hlive.
  cbn [possible_agents set_env set_agents handles team_sizes env frames max_frames
       max_num_agents set_frames].
  change (action_array (set_env (gw_clear_dead G (env s)) (set_agents ags s)))
    with (action_array s).
  rewrite Harr, Hset. destruct (gw_step G _) as [e2 signal].
  cbn [possible_agents set_env set_agents handles team_sizes env frames max_frames
       max_num_agents set_frames agents].
  match goal with |- context [step_results _ ?sq _] => change sq with (ticked s ags e2) end.
  destruct (step_results _ _ _) as [out|ex] eqn:Hout; [by eexists|].
  simpl. intros Hobs. exfalso. unfold step_results in Hout.
  destruct (all_dones_total _ Hobs (signal || (frames s + 1 >=? max_frames s)%Z))
    as [dones Hdones].
  destruct (all_rewards_total _ Hobs) as [rewards Hrewards].
  destruct (observe_all_total _ Hobs) as [observes Hobserves].
  { intros a Ha. destruct (Hzero a Ha) as (space & _ & Hz).
    simpl. by rewrite Hz. }
  rewrite Hdones in Hout. simpl in Hout. rewrite Hrewards in Hout. simpl in Hout.
  rewrite Hobserves in Hout. done.
Qed.

Lemma reset_returns s :
  consistent fzero s -> observable (reset generate_map s).1 ->
  is_Ok (reset generate_map s).2.
Proof.
  intros [_ _ _ _ _ Hzero] Hobs. simpl. apply observe_all_total; [exact Hobs|].
  intros a Ha. destruct (Hzero a Ha) as (space & _ & Hz).
  simpl. by rewrite Hz.
Qed.

End AdapterFacts.

(** * Properties of [reset] and [step] *)

Section Properties.

Context {float : Type} (fzero : float) (G : Engine float).
Variable generate_map : Z -> list (handle G) -> world G -> world G.

Implicit Types s : magent_parallel_env G.

Lemma all_dones_terminal s d :
  length (possible_agents s) = max_num_agents s ->
  (forall a, a ∈ agents s -> a ∈ possible_agents s) ->
  _all_dones s true = Ok d ->
  d = gset_to_gmap true (list_to_set (agents s)).
Proof.
  intros Hcount Hsub Hd. pose proof (all_dones_keys G s Hcount Hsub _ _ Hd) as Hdom.
  apply all_dones_array in Hd as (dones & _ & -> & ->).
  apply map_eq. intros a. rewrite lookup_gset_to_gmap.
  destruct (decide (a ∈ (list_to_set (agents s) : gset string))) as [Hin|Hin].
  - rewrite option_guard_True by done. rewrite <- Hdom in Hin.
    apply elem_of_dom in Hin as [v Hv]. rewrite Hv. f_equal.
    apply dict_of_lookup_Some in Hv. unfold live_items in Hv.
    apply list_elem_of_filter in Hv as [_ Hv]. apply elem_of_zip_r in Hv.
    by apply elem_of_replicate in Hv as [-> _].
  - rewrite option_guard_False by done. apply not_elem_of_dom. by rewrite Hdom.
Qed.

(** C1. On an environment that has been reset, the observation, reward and
    done dictionaries that [step] returns have the same key set: the agents
    that were live and not marked done when the step started, whatever keys the
    action dictionary has.  ([step] does return when the actions fit a C long
    and the engine answers the queries in the expected form.) *)
Theorem step_key_sets e hs names msize mframes s0 s d all_actions :
  init fzero generate_map e hs names msize mframes = Ok s0 ->
  run fzero generate_map s0 s ->
  all_dones s = Some d ->
  let live : gset string := list_to_set (not_done d (agents s)) in
  (map_Forall (fun _ a => - 2 ^ 63 <= a < 2 ^ 63)%Z all_actions ->
   observable (step fzero s all_actions).1 ->
   is_Ok (step fzero s all_actions).2)
  /\ forall out, (step fzero s all_actions).2 = Ok out ->
       dom (out_observes out) = live
       /\ dom (out_rewards out) = live
       /\ dom (out_dones out) = live.
Proof.
  intros Hinit Hrun Hd live.
  pose proof (run_consistent _ _ _ _ _ _ _ _ _ _ Hinit Hrun) as Hs.
  split; [by apply step_returns|].
  intros out Hout. destruct (step fzero s all_actions) as [s' r] eqn:Hstep.
  simpl in Hout. subst r.
  apply step_Ok in Hstep as (ags & arr & e1 & k & Hlive & _ & _ & Hdones & Hrew & Hobs & _).
  pose proof (consistent_filtered _ _ s ags (gw_step G e1).1 (frames s + 1)%Z Hs Hlive)
    as [Hc _ _ Ha _ _].
  rewrite (live_agents_not_done _ _ s d Hs Hd) in Hlive. injection Hlive as <-.
  split; [|split].
  - by apply (observe_all_keys G _ Hc Ha).
  - by apply (all_rewards_keys fzero G _ Hc Ha).
  - by apply (all_dones_keys G _ Hc Ha) in Hdones.
Qed.

(** C2. A step is terminal exactly when the engine's [step()] returned a true
    signal or the frame counter, once incremented, has reached [max_frames].
    On a terminal step every returned done flag is [True]: the dictionary is
    the constant map on the live agents, whatever the engine's alive flags
    are.  On any other step the returned flags are read off the world the
    engine's [step()] left: an agent that one group reports once gets the
    negation of its alive flag, so an agent the engine reports alive is not
    done, and an agent that no group reports is done. *)
Theorem step_termination e hs names msize mframes s0 s d all_actions arr out :
  init fzero generate_map e hs names msize mframes = Ok s0 ->
  run fzero generate_map s0 s ->
  all_dones s = Some d ->
  action_array s all_actions (replicate (max_num_agents s) 0%Z) = Ok arr ->
  (step fzero s all_actions).2 = Ok out ->
  let e1 := foldl (fun e (p : handle G * list Z) => gw_set_action G p.1 p.2 e)
                  (gw_clear_dead G (env s))
                  (group_actions (handles s) (team_sizes s) arr) in
  let signal := (gw_step G e1).2 in
  let s' := (step fzero s all_actions).1 in
  frames s' = (frames s + 1)%Z
  /\ env s' = (gw_step G e1).1
  /\ (signal = true \/ (frames s' >= max_frames s')%Z ->
      out_dones out = gset_to_gmap true (list_to_set (agents s')))
  /\ (signal = false /\ (frames s' < max_frames s')%Z ->
      _all_dones s' false = Ok (out_dones out)
      /\ forall i agent,
           NoDup (possible_agents s0) ->
           possible_agents s' !! i = Some agent ->
           agent ∈ agents s' ->
           (unreported s' i -> out_dones out !! agent = Some true)
           /\ (forall j hd p id,
                 handles s' !! j = Some hd ->
                 gw_get_agent_id G (env s') hd !! p = Some id ->
                 py_index (max_num_agents s') id = Ok i ->
                 (forall j' p', reports s' j' p' i -> j' = j /\ p' = p) ->
                 length (gw_get_alive G (env s') hd)
                 = length (gw_get_agent_id G (env s') hd) ->
                 out_dones out !! agent = negb <$> gw_get_alive G (env s') hd !! p)).
Proof.
  intros Hinit Hrun Hd Harr Hout e1 signal s'.
  pose proof (run_consistent _ _ _ _ _ _ _ _ _ _ Hinit Hrun) as Hs.
  assert (possible_agents s = possible_agents s0) as Hpa.
  { apply run_setup in Hrun. by injection Hrun. }
  pose proof (step_cases fzero G s all_actions d Hs Hd) as Hcases.
  simpl in Hcases. rewrite Harr in Hcases. fold e1 in Hcases. fold signal in Hcases.
  unfold s'. destruct (step_results _ _ _) as [out'|ex] eqn:Hres;
    rewrite Hcases in Hout |- *; [|done].
  simpl in Hout. injection Hout as ->. simpl.
  pose proof (consistent_filtered _ _ s (not_done d (agents s)) (gw_step G e1).1
                (frames s + 1)%Z Hs (live_agents_not_done _ _ s d Hs Hd))
    as [Hc _ _ Ha _ _].
  unfold step_results in Hres. apply bind_Ok in Hres as (dd & Hdd & Hres).
  apply bind_Ok in Hres as (rr & _ & Hres). apply bind_Ok in Hres as (oo & _ & [= <-]).
  unfold out_dones. simpl. split; [done|]. split; [done|]. split.
  - intros Hterm.
    assert (signal || (frames s + 1 >=? max_frames s)%Z = true) as Hdone.
    { destruct Hterm as [->|Hge]; [done|]. apply orb_true_iff. right.
      apply Z.geb_le. lia. }
    rewrite Hdone in Hdd. by apply all_dones_terminal in Hdd.
  - intros [Hsig Hlt].
    assert (signal || (frames s + 1 >=? max_frames s)%Z = false) as Hdone.
    { rewrite Hsig. simpl. rewrite Z.geb_leb. apply Z.leb_gt. lia. }
    rewrite Hdone in Hdd. split; [done|].
    intros i agent Hnd Hagent Hlive. rewrite <- Hpa in Hnd. split.
    + intros Hun.
      assert (i < max_num_agents s) as Hi.
      { destruct Hs as [<- _ _ _ _ _]. by eapply lookup_lt_Some. }
      destruct (all_dones_unreported G _ _ i Hdd Hun Hi) as (dones & -> & Hdi).
      apply live_items_lookup; [done|]. split; [done|]. by exists i.
    + intros j hd p id Hhd Hid Hres Huniq Hlen.
      exact (all_dones_reported G (ticked s (not_done d (agents s)) (gw_step G e1).1) dd
               j hd p id i agent Hnd Hdd Hhd Hid Hres Huniq Hlen Hagent Hlive).
Qed.

Lemma observe_all_zero s obs i agent t :
  consistent fzero s -> NoDup (possible_agents s) ->
  _observe_all s = Ok obs ->
  possible_agents s !! i = Some agent -> unreported s i -> obs !! agent = Some t ->
  exists space, observation_spaces s !! agent = Some space
                /\ t = np_zeros fzero (box_shape space).
Proof.
  intros [Hc _ _ _ _ Hz] Hnd Hobs Hi Hun Ht.
  destruct (observe_all_lookup G s obs agent t Hnd Hobs Ht)
    as (observes & i' & Hfold & Hi' & Hslot).
  assert (i' = i) as -> by (by eapply NoDup_lookup).
  assert (i < max_num_agents s) as Hlt by (rewrite <- Hc; by eapply lookup_lt_Some).
  rewrite (observes_unreported G s observes i Hfold Hun Hlt) in Hslot.
  destruct Hslot as [[=]|[_ Hzero]].
  destruct (Hz agent) as (space & Hspace & Hzero'); [by eapply list_elem_of_lookup_2|].
  exists space. split; [done|]. congruence.
Qed.

(** C4. Whenever observations are built, by [reset] or by [step], an agent of
    the returned dictionary whose slot no handle's [get_agent_id] list names
    gets the all-zero array of the shape of its observation space. *)
Theorem unreported_agent_zero_observation e hs names msize mframes s0 s :
  init fzero generate_map e hs names msize mframes = Ok s0 ->
  run fzero generate_map s0 s ->
  NoDup (possible_agents s0) ->
  let zeroed (s' : magent_parallel_env G) (obs : gmap string (ndarray float)) :=
    forall i agent t,
      possible_agents s' !! i = Some agent -> unreported s' i -> obs !! agent = Some t ->
      exists space, observation_spaces s' !! agent = Some space
                    /\ t = np_zeros fzero (box_shape space) in
  (forall obs, (reset generate_map s).2 = Ok obs -> zeroed (reset generate_map s).1 obs)
  /\ (forall all_actions out,
        (step fzero s all_actions).2 = Ok out ->
        zeroed (step fzero s all_actions).1 (out_observes out)).
Proof.
  intros Hinit Hrun Hnd zeroed.
  pose proof (run_consistent _ _ _ _ _ _ _ _ _ _ Hinit Hrun) as Hs.
  assert (possible_agents s = possible_agents s0) as Hpa.
  { apply run_setup in Hrun. by injection Hrun. }
  split.
  - intros obs Hobs i agent t. apply observe_all_zero; [|by rewrite <- Hpa in Hnd|done].
    by apply consistent_reset.
  - intros all_actions out Hout i agent t.
    pose proof (consistent_step fzero G s all_actions Hs) as Hs'.
    destruct (step fzero s all_actions) as [s' r] eqn:Hstep. simpl in Hout, Hs' |- *.
    subst r. apply step_Ok in Hstep as (ags & arr & e1 & k & _ & _ & _ & _ & _ & Hobs & _ & ->).
    apply observe_all_zero; [done|by rewrite <- Hpa in Hnd|exact Hobs].
Qed.

(** C9. An agent that is still live but whose slot no handle's [get_agent_id]
    list names comes back from [step] with done [True] and reward zero: both
    arrays start out that way and only reported slots are overwritten.  (On a
    terminal step every done flag is [True] in any case.) *)
Theorem unreported_live_agent_done e hs names msize mframes s0 s all_actions out i agent :
  init fzero generate_map e hs names msize mframes = Ok s0 ->
  run fzero generate_map s0 s ->
  NoDup (possible_agents s0) ->
  (step fzero s all_actions).2 = Ok out ->
  let s' := (step fzero s all_actions).1 in
  possible_agents s' !! i = Some agent ->
  agent ∈ agents s' ->
  unreported s' i ->
  out_dones out !! agent = Some true /\ out_rewards out !! agent = Some fzero.
Proof.
  intros Hinit Hrun Hnd Hout s'.
  pose proof (run_consistent _ _ _ _ _ _ _ _ _ _ Hinit Hrun) as Hs.
  assert (possible_agents s = possible_agents s0) as Hpa.
  { apply run_setup in Hrun. by injection Hrun. }
  rewrite <- Hpa in Hnd. unfold s'. clear s'.
  destruct (step fzero s all_actions) as [s' r] eqn:Hstep. simpl in Hout |- *. subst r.
  apply step_Ok in Hstep as (ags & arr & e1 & k & Hlive & _ & _ & Hdones & Hrew & _ & _ & ->).
  pose proof (consistent_filtered _ _ s ags (gw_step G e1).1 (frames s + 1)%Z Hs Hlive)
    as [Hc _ _ Ha _ _].
  simpl. intros Hi Hin Hun.
  assert (i < max_num_agents s) as Hlt.
  { destruct Hs as [<- _ _ _ _ _]. by eapply lookup_lt_Some. }
  split.
  - destruct ((gw_step G e1).2 || (frames s + 1 >=? max_frames s)%Z).
    + apply all_dones_terminal in Hdones; [|done|done]. rewrite Hdones.
      rewrite lookup_gset_to_gmap, option_guard_True; [done|].
      by apply elem_of_list_to_set.
    + destruct (all_dones_unreported G _ _ i Hdones Hun Hlt) as (dones & -> & Hdi).
      apply live_items_lookup; [done|]. split; [done|]. by exists i.
  - destruct (all_rewards_unreported fzero G _ _ i Hrew Hun Hlt) as (rewards & -> & Hri).
    apply live_items_lookup; [done|]. split; [done|]. by exists i.
Qed.

End Properties.

(** * The calls the adapter makes on the engine *)

Section Calls.

Context {float : Type} (fzero : float) (G : Engine float).
Variable generate_map : Z -> list (handle G) -> world G -> world G.

Implicit Types s : magent_parallel_env (traced G).

Lemma traced_step_log (w : world (traced G)) :
  (gw_step (traced G) w).1.2 = w.2 ++ [CallStep].
Proof. done. Qed.

Lemma traced_clear_dead_log (w : world (traced G)) :
  (gw_clear_dead (traced G) w).2 = w.2 ++ [CallClearDead].
Proof. done. Qed.

Lemma step_appends s all_actions d :
  consistent fzero s -> all_dones s = Some d ->
  (env (step fzero s all_actions).1).2 = (env s).2 ++ step_log s all_actions.
Proof.
  intros Hs Hd. pose proof (step_cases fzero (traced G) s all_actions d Hs Hd) as Hcases.
  cbv zeta in Hcases. unfold step_log.
  destruct (action_array s all_actions _) as [arr|ex].
  - assert (env (step fzero s all_actions).1
            = (gw_step (traced G)
                 (foldl (fun e (p : handle (traced G) * list Z) =>
                           gw_set_action (traced G) p.1 p.2 e)
                        (gw_clear_dead (traced G) (env s))
                        (group_actions (handles s) (team_sizes s) arr))).1) as ->.
    { destruct (step_results _ _ _); by rewrite Hcases. }
    rewrite traced_step_log, traced_set_actions_log, traced_clear_dead_log.
    by rewrite <- !(assoc_L (++)).
  - rewrite Hcases. cbn [fst env set_env]. by rewrite traced_clear_dead_log.
Qed.

Lemma step_calls s all_actions d :
  consistent fzero s -> all_dones s = Some d ->
  drop (length (env s).2) (env (step fzero s all_actions).1).2 = step_log s all_actions.
Proof.
  intros Hs Hd. rewrite (step_appends s all_actions d Hs Hd). apply drop_app_length.
Qed.

Lemma step_agents s all_actions d :
  consistent fzero s -> all_dones s = Some d ->
  agents (step fzero s all_actions).1 = not_done d (agents s).
Proof.
  intros Hs Hd. pose proof (step_cases fzero (traced G) s all_actions d Hs Hd) as Hcases.
  cbv zeta in Hcases. destruct (action_array s all_actions _) as [arr|ex].
  - destruct (step_results _ _ _); by rewrite Hcases.
  - by rewrite Hcases.
Qed.

(** The arrays handed to the groups during one [step], one after the other,
    are the flat action array. *)
Lemma step_forwarded s all_actions d arr :
  consistent fzero s -> all_dones s = Some d ->
  action_array s all_actions (replicate (max_num_agents s) 0%Z) = Ok arr ->
  set_action_calls (drop (length (env s).2) (env (step fzero s all_actions).1).2)
  = group_actions (handles s) (team_sizes s) arr
  /\ mjoin (set_action_calls
             (drop (length (env s).2) (env (step fzero s all_actions).1).2)).*2 = arr.
Proof.
  intros Hs Hd Harr. rewrite (step_calls s all_actions d Hs Hd). unfold step_log.
  rewrite Harr, set_action_calls_of_step. split; [done|].
  destruct Hs as [Hcount Hsizes Hgroups _ _ _].
  unfold group_actions. rewrite snd_zip by (by rewrite length_fmap, length_seq).
  rewrite <- Hgroups. apply group_slices_join.
  apply action_array_Ok in Harr; [|done]. apply Forall2_length in Harr. congruence.
Qed.

(** C3. In any [step] on an environment that has been reset, the slot of a
    possible agent that has no entry in the action dictionary holds 0 in the
    flat action array, and that array is what the groups are handed. *)
Theorem absent_action_is_zero e hs names msize mframes s0 s d all_actions arr i agent :
  init fzero (traced_generate_map generate_map) e hs names msize mframes = Ok s0 ->
  run fzero (traced_generate_map generate_map) s0 s ->
  all_dones s = Some d ->
  action_array s all_actions (replicate (max_num_agents s) 0%Z) = Ok arr ->
  possible_agents s !! i = Some agent ->
  all_actions !! agent = None ->
  let calls := drop (length (env s).2) (env (step fzero s all_actions).1).2 in
  arr !! i = Some 0%Z /\ mjoin (set_action_calls calls).*2 !! i = Some 0%Z.
Proof.
  intros Hinit Hrun Hd Harr Hi Hnone calls.
  pose proof (run_consistent _ _ _ _ _ _ _ _ _ _ Hinit Hrun) as Hs.
  assert (arr !! i = Some 0%Z) as Hzero.
  { apply action_array_Ok in Harr; [|by destruct Hs].
    destruct (Forall2_lookup_l _ _ _ _ _ Harr Hi) as (y & Hy & Hconv).
    rewrite Hnone in Hconv. simpl in Hconv. rewrite Hy. f_equal.
    rewrite to_int32_in_range in Hconv by lia. by injection Hconv. }
  split; [done|]. unfold calls.
  by rewrite (proj2 (step_forwarded s all_actions d arr Hs Hd Harr)).
Qed.

(** C10. An action supplied for an agent that is already marked done, and so
    dropped from the live agents when the step starts, still goes into the
    flat action array at the agent's position in [possible_agents] and on to
    the engine: the slot holds the supplied value as a 32-bit integer, the
    value itself when it fits. *)
Theorem done_agent_action_forwarded
    e hs names msize mframes s0 s d all_actions arr i agent a :
  init fzero (traced_generate_map generate_map) e hs names msize mframes = Ok s0 ->
  run fzero (traced_generate_map generate_map) s0 s ->
  all_dones s = Some d ->
  action_array s all_actions (replicate (max_num_agents s) 0%Z) = Ok arr ->
  possible_agents s !! i = Some agent ->
  d !! agent = Some true ->
  all_actions !! agent = Some a ->
  let s' := (step fzero s all_actions).1 in
  let calls := drop (length (env s).2) (env s').2 in
  (agent ∉ agents s')
  /\ mjoin (set_action_calls calls).*2 !! i = Some (wrap_int32 a)
  /\ ((- 2 ^ 31 <= a < 2 ^ 31)%Z -> wrap_int32 a = a).
Proof.
  intros Hinit Hrun Hd Harr Hi Hdone Ha s' calls.
  pose proof (run_consistent _ _ _ _ _ _ _ _ _ _ Hinit Hrun) as Hs.
  split; [|split].
  - unfold s'. rewrite (step_agents s all_actions d Hs Hd).
    unfold not_done. rewrite list_elem_of_filter. intros [Hflag _]. congruence.
  - unfold calls, s'. rewrite (proj2 (step_forwarded s all_actions d arr Hs Hd Harr)).
    apply action_array_Ok in Harr; [|by destruct Hs].
    destruct (Forall2_lookup_l _ _ _ _ _ Harr Hi) as (y & Hy & Hconv).
    rewrite Ha in Hconv. simpl in Hconv. unfold to_int32 in Hconv.
    case_decide; [|done]. injection Hconv as <-. done.
  - intros Hrange. unfold wrap_int32. rewrite Z.mod_small; lia.
Qed.

Lemma dict_of_const_map {V} (l : list string) (v : V) :
  dict_of ((fun a => (a, v)) <$> l) = gset_to_gmap v (list_to_set l).
Proof.
  apply map_eq. intros a. rewrite lookup_gset_to_gmap.
  destruct (decide (a ∈ (list_to_set l : gset string))) as [Hin|Hin].
  - rewrite option_guard_True by done. apply dict_of_const.
    by apply elem_of_list_to_set in Hin.
  - rewrite option_guard_False by done. apply not_elem_of_dom.
    rewrite dom_dict_of, <- list_fmap_compose. by rewrite list_fmap_id.
Qed.

Lemma sum_list_take_le (l : list nat) k : sum_list (take k l) <= sum_list l.
Proof.
  rewrite <- (take_drop k l) at 2. rewrite sum_list_with_app. lia.
Qed.

(** C5. When [step] starts on an environment that has been reset, the live
    agents become exactly the previously live agents whose stored done flag is
    [False]; the first call the step makes on the engine is [clear_dead()], so
    it precedes every [set_action]; and the dictionaries a returning step
    hands back are keyed by the filtered agents. *)
Theorem step_filters_then_clears e hs names msize mframes s0 s d all_actions :
  init fzero (traced_generate_map generate_map) e hs names msize mframes = Ok s0 ->
  run fzero (traced_generate_map generate_map) s0 s ->
  all_dones s = Some d ->
  let s' := (step fzero s all_actions).1 in
  agents s' = filter (fun a => d !! a = Some false) (agents s)
  /\ (exists rest, (env s').2 = (env s).2 ++ CallClearDead :: rest)
  /\ forall out, (step fzero s all_actions).2 = Ok out ->
       dom (out_observes out) = list_to_set (agents s')
       /\ dom (out_rewards out) = list_to_set (agents s')
       /\ dom (out_dones out) = list_to_set (agents s')
       /\ dom (out_infos out) = list_to_set (agents s').
Proof.
  intros Hinit Hrun Hd s'.
  pose proof (run_consistent _ _ _ _ _ _ _ _ _ _ Hinit Hrun) as Hs.
  pose proof (step_agents s all_actions d Hs Hd) as Hags. fold s' in Hags.
  split; [exact Hags|]. split.
  - unfold s'. rewrite (step_appends s all_actions d Hs Hd). unfold step_log.
    destruct (action_array s all_actions _); by eexists.
  - intros out Hout. rewrite Hags. clear Hags. unfold s' in *. clear s'.
    destruct (step fzero s all_actions) as [s' r] eqn:Hstep. simpl in Hout. subst r.
    apply step_Ok in Hstep
      as (ags & arr & e1 & k & Hlive & _ & _ & Hdones & Hrew & Hobs & Hinfos & _).
    pose proof (consistent_filtered _ _ s ags (gw_step (traced G) e1).1
                  (frames s + 1)%Z Hs Hlive) as [Hc _ _ Ha _ _].
    rewrite (live_agents_not_done _ _ s d Hs Hd) in Hlive. injection Hlive as <-.
    split; [|split; [|split]].
    + by apply (observe_all_keys (traced G) _ Hc Ha).
    + by apply (all_rewards_keys fzero (traced G) _ Hc Ha).
    + by apply (all_dones_keys (traced G) _ Hc Ha) in Hdones.
    + rewrite Hinfos, dom_dict_of, <- list_fmap_compose. by rewrite list_fmap_id.
Qed.

(** C6. [reset] sets the frame counter to 0, stores a done flag [False] for
    every possible agent, makes the live agents the full list of possible
    agents, calls the engine's [reset()], and (when the engine answers the
    queries in the expected form, so that the call returns) hands back
    observations keyed by exactly the possible agents. *)
Theorem reset_restores e hs names msize mframes s0 s :
  init fzero (traced_generate_map generate_map) e hs names msize mframes = Ok s0 ->
  run fzero (traced_generate_map generate_map) s0 s ->
  let s' := (reset (traced_generate_map generate_map) s).1 in
  frames s' = 0%Z
  /\ all_dones s' = Some (gset_to_gmap false (list_to_set (possible_agents s0)))
  /\ agents s' = possible_agents s0
  /\ possible_agents s' = possible_agents s0
  /\ (env s').2 = (env s).2 ++ [CallReset]
  /\ (observable s' -> is_Ok (reset (traced_generate_map generate_map) s).2)
  /\ forall obs, (reset (traced_generate_map generate_map) s).2 = Ok obs ->
                 dom obs = list_to_set (possible_agents s0).
Proof.
  intros Hinit Hrun s'.
  pose proof (run_consistent _ _ _ _ _ _ _ _ _ _ Hinit Hrun) as Hs.
  assert (possible_agents s = possible_agents s0) as Hpa.
  { apply run_setup in Hrun. by injection Hrun. }
  rewrite <- Hpa. repeat split.
  - simpl. by rewrite dict_of_const_map.
  - by apply (reset_returns fzero (traced G) (traced_generate_map generate_map) s Hs).
  - intros obs Hobs.
    pose proof (consistent_reset fzero (traced G) (traced_generate_map generate_map) s Hs)
      as [Hc _ _ Ha _ _].
    apply (observe_all_keys (traced G) _ Hc Ha) in Hobs. exact Hobs.
Qed.

(** C8. In a [step], handle number [j] is handed the contiguous piece of the
    flat action array that starts at the sum of the team sizes before [j] and
    has [team_sizes[j]] entries; entry [m] of it is the action of member [m] of
    group [j], the agent at that position of [possible_agents]; and the pieces
    of all handles, one after the other, make up the flat array, so every slot
    goes to exactly one handle. *)
Theorem groups_receive_their_slices e hs names msize mframes s0 s d all_actions arr :
  init fzero (traced_generate_map generate_map) e hs names msize mframes = Ok s0 ->
  run fzero (traced_generate_map generate_map) s0 s ->
  all_dones s = Some d ->
  action_array s all_actions (replicate (max_num_agents s) 0%Z) = Ok arr ->
  let calls := set_action_calls
                 (drop (length (env s).2) (env (step fzero s all_actions).1).2) in
  let start j := sum_list (take j (team_sizes s)) in
  length calls = length (handles s)
  /\ (forall j hd, handles s !! j = Some hd ->
        exists sz piece,
          team_sizes s !! j = Some sz
          /\ calls !! j = Some (hd, piece)
          /\ piece = take sz (drop (start j) arr)
          /\ length piece = sz
          /\ forall m, m < sz ->
               exists name y,
                 names !! j = Some name
                 /\ possible_agents s !! (start j + m) = Some (agent_name name m)
                 /\ to_int32 (default 0%Z (all_actions !! agent_name name m)) = Ok y
                 /\ piece !! m = Some y)
  /\ mjoin calls.*2 = arr.
Proof.
  intros Hinit Hrun Hd Harr calls start.
  pose proof (run_consistent _ _ _ _ _ _ _ _ _ _ Hinit Hrun) as Hs.
  destruct (step_forwarded s all_actions d arr Hs Hd Harr) as [Hcalls Hjoin].
  fold calls in Hcalls, Hjoin.
  assert (setup s = setup s0) as Hsetup by (by eapply run_setup).
  injection Hsetup as _ _ _ Hsizes Hpa _ _ _ _.
  destruct Hs as [Hcount Hsum Hgroups _ _ _].
  pose proof (action_array_Ok _ s all_actions arr Hcount Harr) as Hall.
  assert (length arr = sum_list (team_sizes s)) as Hlen.
  { apply Forall2_length in Hall. congruence. }
  split; [|split; [|exact Hjoin]].
  - rewrite Hcalls. unfold group_actions.
    rewrite length_zip_with, length_fmap, length_seq. lia.
  - intros j hd Hhd.
    destruct (lookup_lt_is_Some_2 (team_sizes s) j) as [sz Hsz].
    { rewrite Hgroups. by eapply lookup_lt_Some. }
    exists sz, (take sz (drop (start j) arr)).
    assert (start j + sz <= length arr) as Hfit.
    { rewrite Hlen. unfold start. etrans; [|apply (sum_list_take_le _ (S j))].
      rewrite (take_S_r _ _ _ Hsz), sum_list_with_app. simpl. lia. }
    split; [done|]. split; [|split; [done|split]].
    + rewrite Hcalls. unfold group_actions. apply lookup_zip_with_Some.
      exists hd, (group_slice (team_sizes s) arr j). split; [|split; [done|]].
      * unfold group_slice. by rewrite Hsz.
      * rewrite list_lookup_fmap, lookup_seq_lt; [done|]. by eapply lookup_lt_Some.
    + rewrite length_take, length_drop. lia.
    + intros m Hm.
      pose proof Hsz as Hsz0. rewrite Hsizes in Hsz0.
      destruct (init_agent_names fzero (traced G) _ e hs names msize mframes s0 j sz m
                  Hinit Hsz0 Hm) as (name & Hname & Hag).
      rewrite <- Hpa, <- Hsizes in Hag. fold (start j) in Hag.
      destruct (Forall2_lookup_l _ _ _ _ _ Hall Hag) as (y & Hy & Hconv).
      exists name, y. split; [done|]. split; [exact Hag|]. split; [done|].
      rewrite lookup_take_lt by done. by rewrite lookup_drop.
Qed.

End Calls.

(** * Observation tensors *)

Section Chunks.

Context {A : Type}.
Implicit Types (d : list A) (ls : list (list A)).

Lemma chunks_length n k d : length (chunks n k d) = n.
Proof. revert d. induction n as [|n IH]; intros d; simpl; [done|]. by rewrite IH. Qed.

Lemma chunks_lookup n k d i :
  i < n -> chunks n k d !! i = Some (take k (drop (i * k) d)).
Proof.
  revert d i. induction n as [|n IH]; intros d i Hi; [lia|].
  destruct i as [|i]; simpl; [done|].
  rewrite IH by lia. by rewrite drop_drop.
Qed.

Lemma chunks_uniform n k d :
  n * k <= length d -> Forall (fun c => length c = k) (chunks n k d).
Proof.
  revert d. induction n as [|n IH]; intros d Hlen; simpl; constructor.
  - rewrite length_take. lia.
  - apply IH. rewrite length_drop. lia.
Qed.

Lemma join_chunks n k d : mjoin (chunks n k d) = take (n * k) d.
Proof.
  revert d. induction n as [|n IH]; intros d; simpl; [done|].
  by rewrite IH, take_take_drop.
Qed.

Lemma chunks_take n k d : chunks n k (take (n * k) d) = chunks n k d.
Proof.
  revert d. induction n as [|n IH]; intros d; simpl; [done|].
  rewrite take_take, Nat.min_l by lia. f_equal.
  rewrite <- (IH (drop k d)). f_equal.
  by rewrite take_drop_commute.
Qed.

Lemma chunks_drop n k d j :
  drop j (chunks n k d) = chunks (n - j) k (drop (j * k) d).
Proof.
  revert d j. induction n as [|n IH]; intros d j; simpl.
  - by rewrite drop_nil.
  - destruct j as [|j]; simpl; [done|]. rewrite IH. by rewrite drop_drop.
Qed.

Lemma chunks_take_prefix n m k d : m <= n -> take m (chunks n k d) = chunks m k d.
Proof.
  revert d m. induction n as [|n IH]; intros d m Hm.
  - by replace m with 0 by lia.
  - destruct m as [|m]; simpl; [done|]. f_equal. apply IH. lia.
Qed.

(** A list of pieces of one length, joined and cut again, gives the pieces. *)
Lemma join_uniform_length ls k :
  Forall (fun c => length c = k) ls -> length (mjoin ls) = length ls * k.
Proof.
  induction 1 as [|c ls Hc _ IH]; simpl; [done|]. rewrite length_app. lia.
Qed.

Lemma take_join_uniform ls k m :
  Forall (fun c => length c = k) ls -> take (m * k) (mjoin ls) = mjoin (take m ls).
Proof.
  intros Hls. revert m. induction Hls as [|c ls Hc Hls IH]; intros m.
  - simpl. by rewrite !take_nil.
  - destruct m as [|m]; simpl; [done|].
    rewrite take_app_ge by lia. f_equal.
    replace (k + m * k - length c) with (m * k) by lia. apply IH.
Qed.

Lemma drop_join_uniform ls k j :
  Forall (fun c => length c = k) ls -> drop (j * k) (mjoin ls) = mjoin (drop j ls).
Proof.
  intros Hls. revert j. induction Hls as [|c ls Hc Hls IH]; intros j.
  - simpl. by rewrite !drop_nil.
  - destruct j as [|j]; simpl; [done|].
    rewrite drop_app_ge by lia. replace (k + j * k - length c) with (j * k) by lia.
    apply IH.
Qed.

Lemma take_drop_join_uniform ls k j m :
  Forall (fun c => length c = k) ls ->
  take (m * k) (drop (j * k) (mjoin ls)) = mjoin (take m (drop j ls)).
Proof.
  intros Hls. rewrite drop_join_uniform by done. apply take_join_uniform.
  by apply Forall_drop.
Qed.

Lemma chunks_join_uniform ls k :
  Forall (fun c => length c = k) ls -> chunks (length ls) k (mjoin ls) = ls.
Proof.
  induction 1 as [|c ls Hc _ IH]; simpl; [done|].
  rewrite take_app_length' by done. rewrite drop_app_length' by done. by rewrite IH.
Qed.

Lemma join_replicate_mul (row : list A) h w :
  mjoin (replicate h (mjoin (replicate w row))) = mjoin (replicate (h * w) row).
Proof.
  induction h as [|h IH]; simpl; [done|].
  rewrite IH, replicate_add, join_app. done.
Qed.

Lemma join_join_fmap (lss : list (list (list A))) :
  mjoin (mjoin <$> lss) = mjoin (mjoin lss).
Proof.
  induction lss as [|ls lss IH]; [done|].
  change (mjoin ls ++ mjoin (mjoin <$> lss) = mjoin (ls ++ mjoin lss)).
  by rewrite join_app, IH.
Qed.

End Chunks.

Section Tensors.

Context {float : Type}.
Implicit Types (row d : list float).

Lemma tile_data_cons n shp r reps d :
  tile_data (n :: shp) (r :: reps) d
  = mjoin (replicate r (mjoin (tile_data shp reps <$> chunks n (product shp) d))).
Proof. done. Qed.

Lemma join_singleton (l : list float) : mjoin [l] = l.
Proof. simpl. apply (right_id_L [] (++)). Qed.

(** A feature vector tiled over an [h] by [w] grid is [h * w] copies of it. *)
Lemma tile_row row f h w :
  length row = f -> tile_data [1; 1; f] [h; w; 1] row = mjoin (replicate (h * w) row).
Proof.
  intros Hrow.
  assert (tile_data [f] [1] row = row) as Hinner.
  { rewrite tile_data_cons. change (replicate 1 ?x) with [x]. rewrite join_singleton.
    change (product []) with 1.
    rewrite (list_fmap_ext (tile_data [] []) id (chunks f 1 row)) by done.
    rewrite list_fmap_id, join_chunks. apply take_ge. lia. }
  assert (forall k, k = f -> chunks 1 k row = [row]) as Hone.
  { intros k ->. simpl. by rewrite take_ge by lia. }
  assert (tile_data [1; f] [w; 1] row = mjoin (replicate w row)) as Hmid.
  { rewrite tile_data_cons, Hone by (simpl; lia).
    change (tile_data [f] [1] <$> [row]) with [tile_data [f] [1] row].
    by rewrite join_singleton, Hinner. }
  rewrite tile_data_cons, Hone by (simpl; lia).
  change (tile_data [1; f] [w; 1] <$> [row]) with [tile_data [1; f] [w; 1] row].
  rewrite join_singleton, Hmid. apply join_replicate_mul.
Qed.

(** The tiled feature image of a batch, read cell by cell. *)
Lemma tile_batch d n f h w :
  length d = n * f ->
  chunks (n * (h * w)) f (tile_data [n; 1; 1; f] [1; h; w; 1] d)
  = mjoin ((fun row => replicate (h * w) row) <$> chunks n f d).
Proof.
  intros Hd.
  pose proof (chunks_uniform n f d ltac:(lia)) as Hrows.
  assert (tile_data [n; 1; 1; f] [1; h; w; 1] d
          = mjoin (mjoin ((fun row => replicate (h * w) row) <$> chunks n f d))) as ->.
  { rewrite tile_data_cons. change (replicate 1 ?x) with [x]. rewrite join_singleton.
    replace (product [1; 1; f]) with f by (simpl; lia).
    rewrite <- join_join_fmap, <- list_fmap_compose. f_equal.
    apply Forall_fmap_ext_1. eapply Forall_impl; [exact Hrows|].
    intros row Hrow. simpl. by apply tile_row. }
  set (cells := mjoin ((fun row => replicate (h * w) row) <$> chunks n f d)).
  assert (Forall (fun c => length c = f) cells) as Hcells.
  { unfold cells. apply Forall_forall. intros c Hc.
    apply list_elem_of_join in Hc as (block & Hc & Hblock).
    apply list_elem_of_fmap in Hblock as (row & -> & Hrow).
    apply elem_of_replicate in Hc as [-> _].
    rewrite Forall_forall in Hrows. by apply Hrows. }
  assert (length cells = n * (h * w)) as <-.
  { unfold cells. rewrite (join_uniform_length _ (h * w)).
    - by rewrite length_fmap, chunks_length.
    - apply Forall_fmap, Forall_forall. intros row _. simpl. apply length_replicate. }
  by apply chunks_join_uniform.
Qed.

(** The observation batch of a group with [n] reported agents, a view of
    shape [(n, h, w, c)] and features of shape [(n, f)]. *)
Lemma group_obs_shaped n h w c f (dv df : list float) :
  length df = n * f ->
  group_obs (NDArray [n; h; w; c] dv) (NDArray [n; f] df)
  = Ok (NDArray [n; h; w; c + f]
          (mjoin (zip_with app (chunks (n * (h * w)) c dv)
                    (mjoin ((fun row => replicate (h * w) row) <$> chunks n f df))))).
Proof.
  intros Hdf. unfold group_obs, np_expand_dims, np_tile, np_concatenate_last, unsnoc.
  cbn [shape data length].
  rewrite decide_True by lia. cbn [bind shape data length firstn skipn app].
  rewrite decide_True by lia.
  cbn [bind shape data length firstn skipn app list_getitem lookup list_lookup
       Nat.max Nat.sub replicate zip_with reverse rev_append product foldr].
  rewrite !Nat.mul_1_r, !Nat.mul_1_l.
  rewrite decide_True by done. do 3 f_equal.
  by rewrite <- (tile_batch df n f h w Hdf).
Qed.

(** Row [p] of that batch is the view of agent [p] with the features of
    agent [p] appended to every cell. *)
Lemma group_obs_rows n h w c f (dv df : list float) p :
  length dv = n * (h * w * c) -> length df = n * f -> p < n ->
  exists fin rows,
    group_obs (NDArray [n; h; w; c] dv) (NDArray [n; f] df) = Ok fin
    /\ np_iter fin = Ok rows
    /\ length rows = n
    /\ rows !! p = Some (view_with_features h w c
                           (take (h * w * c) (drop (p * (h * w * c)) dv))
                           (take f (drop (p * f) df))).
Proof.
  intros Hdv Hdf Hp. rewrite group_obs_shaped by done. eexists _, _.
  split; [done|]. split; [done|]. split.
  { by rewrite length_fmap, chunks_length. }
  rewrite list_lookup_fmap, chunks_lookup by done. simpl. f_equal.
  unfold view_with_features.
  assert (length (take f (drop (p * f) df)) = f) as ->.
  { rewrite length_take, length_drop. nia. }
  f_equal.
  set (pv := chunks (n * (h * w)) c dv).
  set (blocks := (fun row => replicate (h * w) row) <$> chunks n f df).
  assert (Forall (fun px => length px = c + f) (zip_with app pv (mjoin blocks))) as Hcells.
  { apply (Forall_zip_with_fst _ (fun px => length px = c)).
    - apply chunks_uniform. nia.
    - apply Forall_forall. intros y Hy px Hpx. rewrite length_app, Hpx. f_equal.
      apply list_elem_of_join in Hy as (block & Hy & Hblock).
      apply list_elem_of_fmap in Hblock as (row & -> & Hrow).
      apply elem_of_replicate in Hy as [-> _].
      pose proof (chunks_uniform n f df ltac:(lia)) as Hrows.
      rewrite Forall_forall in Hrows. by apply Hrows. }
  replace (h * (w * ((c + f) * 1))) with (h * w * (c + f)) by lia.
  replace (p * (h * w * (c + f))) with (p * (h * w) * (c + f)) by lia.
  rewrite (take_drop_join_uniform _ _ _ _ Hcells).
  rewrite zip_with_drop, zip_with_take. f_equal.
  assert (take (h * w) (drop (p * (h * w)) pv)
          = chunks (h * w) c (take (h * w * c) (drop (p * (h * w * c)) dv))) as ->.
  { unfold pv. rewrite chunks_drop, chunks_take_prefix by nia.
    rewrite chunks_take. f_equal. f_equal. lia. }
  assert (take (h * w) (drop (p * (h * w)) (mjoin blocks))
          = replicate (h * w) (take f (drop (p * f) df))) as ->.
  { assert (Forall (fun b => length b = h * w) blocks) as Hblocks.
    { unfold blocks. apply Forall_fmap, Forall_forall. intros row _. simpl.
      apply length_replicate. }
    rewrite <- (Nat.mul_1_l (h * w)) at 1.
    rewrite (take_drop_join_uniform _ _ _ _ Hblocks).
    assert (blocks !! p = Some (replicate (h * w) (take f (drop (p * f) df)))) as Hblock.
    { unfold blocks. by rewrite list_lookup_fmap, chunks_lookup. }
    rewrite (drop_S _ _ _ Hblock). simpl. apply (right_id_L [] (++)). }
  apply zip_with_replicate_r_eq. apply chunks_length.
Qed.

End Tensors.

Section Observations.

Context {float : Type} (fzero : float) (G : Engine float).
Variable generate_map : Z -> list (handle G) -> world G -> world G.

Implicit Types s : magent_parallel_env G.


Lemma live_items_NoDup {V} s (vals : list V) :
  NoDup (possible_agents s) -> NoDup (live_items s vals).*1.
Proof.
  intros Hnd. unfold live_items. apply NoDup_fmap_fst.
  - intros a' v1 v2 [_ H1]%list_elem_of_filter [_ H2]%list_elem_of_filter.
    apply list_elem_of_lookup in H1 as [i1 H1], H2 as [i2 H2].
    apply lookup_zip_with_Some in H1 as (? & ? & [= <- <-] & Ha1 & Hv1).
    apply lookup_zip_with_Some in H2 as (? & ? & [= <- <-] & Ha2 & Hv2).
    assert (i1 = i2) as -> by (by eapply NoDup_lookup).
    congruence.
  - apply NoDup_filter, NoDup_zip_l, Hnd.
Qed.

(** A live agent whose slot holds a row of the engine gets that row. *)
Lemma observe_all_row s obs i agent t :
  NoDup (possible_agents s) ->
  _observe_all s = Ok obs ->
  possible_agents s !! i = Some agent -> agent ∈ agents s ->
  (forall observes,
     foldM (observe_group s) (replicate (max_num_agents s) None) (handles s) = Ok observes ->
     observes !! i = Some (Some t)) ->
  obs !! agent = Some t.
Proof.
  intros Hnd (observes & items & Hfold & Hlen & Hitems & ->)%observe_all_array Hi Hlive Hrow.
  specialize (Hrow observes Hfold).
  apply dict_of_lookup_NoDup.
  - rewrite (zero_filled_keys G _ _ _ Hitems). by apply live_items_NoDup.
  - assert ((agent, Some t) ∈ live_items s observes) as Hin.
    { unfold live_items. apply list_elem_of_filter. split; [by apply elem_of_list_to_set|].
      apply list_elem_of_lookup. exists i. apply lookup_zip_with_Some. eauto. }
    apply list_elem_of_lookup in Hin as [q Hq]. apply traverse_Ok in Hitems.
    destruct (Forall2_lookup_l _ _ _ _ _ Hitems Hq) as (y & Hy & Hf).
    simpl in Hf. injection Hf as <-. by eapply list_elem_of_lookup_2.
Qed.

(** The slot that exactly one group reports, at exactly one position, holds
    that group's row for that position. *)
Lemma observes_reported s observes j hd p id i fin rows row :
  foldM (observe_group s) (replicate (max_num_agents s) None) (handles s) = Ok observes ->
  handles s !! j = Some hd ->
  gw_get_agent_id G (env s) hd !! p = Some id ->
  py_index (max_num_agents s) id = Ok i ->
  (forall j' p', reports s j' p' i -> j' = j /\ p' = p) ->
  group_obs (gw_get_observation G (env s) hd).1 (gw_get_observation G (env s) hd).2 = Ok fin ->
  np_iter fin = Ok rows ->
  rows !! p = Some row ->
  observes !! i = Some (Some row).
Proof.
  intros Hfold Hhd Hid Hi Huniq Hfin Hrows Hrow.
  rewrite <- (take_drop_middle _ _ _ Hhd) in Hfold.
  rewrite foldM_app in Hfold. apply bind_Ok in Hfold as (b1 & Hb1 & Hfold).
  simpl in Hfold. apply bind_Ok in Hfold as (b2 & Hb2 & Hfold).
  assert (length b1 = max_num_agents s) as Hlen1.
  { revert Hb1.
    apply (foldM_invariant (fun b => length b = max_num_agents s));
      [|apply length_replicate].
    intros b x b' _ Hb Hset. apply observe_group_length in Hset. congruence. }
  assert (b2 !! i = Some (Some row)) as Hb2i.
  { unfold observe_group in Hb2.
    destruct (gw_get_observation G (env s) hd) as [view features]. simpl in Hfin.
    rewrite Hfin in Hb2. simpl in Hb2. rewrite Hrows in Hb2. simpl in Hb2.
    eapply (list_setitems_unique _ _ _ p id (Some row) i Hb2).
    - apply lookup_zip_with_Some. exists id, (Some row).
      split; [done|]. split; [done|]. by rewrite list_lookup_fmap, Hrow.
    - by rewrite Hlen1.
    - intros p' [id' o'] Hp' Hi'. simpl in Hi'. rewrite Hlen1 in Hi'.
      apply lookup_zip_with_Some in Hp' as (? & ? & [= <- <-] & Hid' & _).
      apply (Huniq j p'). by exists hd, id'. }
  rewrite <- Hb2i.
  assert (length b2 = max_num_agents s) as Hlen2.
  { apply observe_group_length in Hb2. congruence. }
  revert Hfold.
  refine (fun H => proj2 (foldM_invariant
    (fun b => length b = max_num_agents s /\ b !! i = b2 !! i) _ _ _ _ _ _ H)); [|done].
  intros b hd' b' Hin [Hb Hbi] Hset. split.
  - apply observe_group_length in Hset. congruence.
  - rewrite <- Hbi. eapply observe_group_untouched; [exact Hset|].
    intros id' Hid' Hres. rewrite Hb in Hres.
    apply list_elem_of_lookup in Hin as [k Hk], Hid' as [p' Hp'].
    rewrite lookup_drop in Hk.
    destruct (Huniq (S j + k) p') as [Hj _]; [by exists hd', id'|]. lia.
Qed.

(** The observation space declared for member [m] of group [j]: the view
    space of the group with the feature length added to its channels. *)
Lemma init_observation_space e hs names msize mframes s0 j hd sz m agent :
  init fzero generate_map e hs names msize mframes = Ok s0 ->
  NoDup (possible_agents s0) ->
  handles s0 !! j = Some hd ->
  team_sizes s0 !! j = Some sz -> m < sz ->
  possible_agents s0 !! (sum_list (take j (team_sizes s0)) + m) = Some agent ->
  exists c f,
    length (gw_get_view_space G (env s0) hd) = 3
    /\ length (gw_get_feature_space G (env s0) hd) = 1
    /\ gw_get_view_space G (env s0) hd !! 2 = Some c
    /\ gw_get_feature_space G (env s0) hd !! 0 = Some f
    /\ observation_spaces s0 !! agent
       = Some {| box_shape := take 2 (gw_get_view_space G (env s0) hd) ++ [c + f] |}.
Proof.
  unfold init. rewrite bind_Ok. intros (ags & Hags & H).
  apply bind_Ok in H as (num_actions & _ & H).
  apply bind_Ok in H as (asl & _ & H).
  apply bind_Ok in H as (shapes & Hshapes & H).
  apply bind_Ok in H as (osl & Hosl & [= <-]). simpl.
  intros Hnd Hhd Hsz Hm Hagent.
  set (e0 := generate_map msize hs (gw_reset G e)) in *.
  pose proof (for_team_members_length _ _ _ _ Hags) as Hlen_ags.
  pose proof (for_team_members_length _ _ _ _ Hosl) as Hlen_osl.
  unfold for_team_members, enumerate in Hosl.
  apply bind_Ok in Hosl as (groups & Hgroups & [= <-]).
  destruct (team_groups_lookup _ _ _ 0 groups j sz m Hgroups Hsz Hm)
    as (shp & Hshp & Hbox).
  simpl in Hshp.
  unfold _calc_obs_shapes in Hshapes.
  destruct (forallb _ (gw_get_view_space G e0 <$> hs)) eqn:Hviews; [|done].
  destruct (forallb _ (gw_get_feature_space G e0 <$> hs)) eqn:Hfeats; [|done].
  simpl in Hshapes. apply traverse_Ok in Hshapes.
  destruct (Forall2_lookup_r _ _ _ _ _ Hshapes Hshp) as ([vs fs] & Hzip & Hcalc).
  apply lookup_zip_with_Some in Hzip as (vs' & fs' & [= <- <-] & Hvs & Hfs).
  rewrite list_lookup_fmap, Hhd in Hvs, Hfs. simpl in Hvs, Hfs.
  injection Hvs as <-. injection Hfs as <-. simpl in Hcalc.
  apply bind_Ok in Hcalc as (c & Hc & Hcalc). apply bind_Ok in Hcalc as (f & Hf & [= <-]).
  exists c, f.
  rewrite forallb_forall in Hviews, Hfeats.
  split; [|split; [|split; [|split]]].
  - apply Nat.eqb_eq, Hviews, list_elem_of_In, list_elem_of_fmap. exists hd.
    split; [done|]. by eapply list_elem_of_lookup_2.
  - apply Nat.eqb_eq, Hfeats, list_elem_of_In, list_elem_of_fmap. exists hd.
    split; [done|]. by eapply list_elem_of_lookup_2.
  - unfold list_getitem in Hc. by destruct (_ !! 2); [injection Hc as ->|].
  - unfold list_getitem in Hf. by destruct (_ !! 0); [injection Hf as ->|].
  - apply dict_of_lookup_NoDup.
    + rewrite fst_zip by lia. done.
    + apply list_elem_of_lookup. exists (sum_list (take j (gw_get_num G e0 <$> hs)) + m).
      apply lookup_zip_with_Some. eauto.
Qed.

(** What [reset] and [step] hand back as observations is [_observe_all] of
    the object they leave behind. *)
Lemma returned_observations s :
  (reset generate_map s).2 = _observe_all (reset generate_map s).1
  /\ forall all_actions out,
       (step fzero s all_actions).2 = Ok out ->
       _observe_all (step fzero s all_actions).1 = Ok (out_observes out).
Proof.
  split; [done|]. intros all_actions out Hout.
  destruct (step fzero s all_actions) as [s' r] eqn:Hstep. simpl in Hout. subst r.
  by apply step_Ok in Hstep as (ags & arr & e1 & k & _ & _ & _ & _ & _ & Hobs & _ & ->).
Qed.

(** C7. An agent alive in the engine, reported by group [j] at position [p]
    (and by nothing else), whose group has a view batch of shape
    [(n, h, w, c)] and a feature batch of shape [(n, f)]: its observation is
    its view with its feature vector appended to every cell of the [h] by [w]
    grid on the channel axis.  Its shape is [(h, w, c + f)], and that is the
    shape declared for the agent when the engine's view space is [(h, w, c)]
    and its feature space [(f)].  The observations are those of any object
    left by [reset] or [step] (see [returned_observations]). *)
Theorem alive_agent_observation
    e hs names msize mframes s0 s obs j hd p id i sz m agent n h w c f dv df :
  init fzero generate_map e hs names msize mframes = Ok s0 ->
  run fzero generate_map s0 s ->
  NoDup (possible_agents s0) ->
  _observe_all s = Ok obs ->
  handles s !! j = Some hd ->
  gw_get_agent_id G (env s) hd !! p = Some id ->
  py_index (max_num_agents s) id = Ok i ->
  (forall j' p', reports s j' p' i -> j' = j /\ p' = p) ->
  gw_get_observation G (env s) hd = (NDArray [n; h; w; c] dv, NDArray [n; f] df) ->
  n = length (gw_get_agent_id G (env s) hd) ->
  length dv = n * (h * w * c) ->
  length df = n * f ->
  team_sizes s !! j = Some sz -> m < sz ->
  i = sum_list (take j (team_sizes s)) + m ->
  possible_agents s !! i = Some agent ->
  agent ∈ agents s ->
  gw_get_view_space G (env s0) hd = [h; w; c] ->
  gw_get_feature_space G (env s0) hd = [f] ->
  let t := view_with_features h w c (take (h * w * c) (drop (p * (h * w * c)) dv))
                              (take f (drop (p * f) df)) in
  obs !! agent = Some t
  /\ shape t = [h; w; c + f]
  /\ observation_spaces s !! agent = Some {| box_shape := [h; w; c + f] |}.
Proof.
  intros Hinit Hrun Hnd Hobs Hhd Hid Hi Huniq Hview Hn Hdv Hdf Hsz Hm Hslot Hagent Hlive
         Hvs Hfs t.
  assert (setup s = setup s0) as Hsetup by (by eapply run_setup).
  injection Hsetup as _ _ Hhs Hsizes Hpa _ _ Hos _.
  assert (p < n) as Hp by (rewrite Hn; by eapply lookup_lt_Some).
  assert (length (take f (drop (p * f) df)) = f) as Hfeat.
  { rewrite length_take, length_drop. nia. }
  destruct (group_obs_rows n h w c f dv df p Hdv Hdf Hp)
    as (fin & rows & Hfin & Hrows & _ & Hrow).
  split; [|split].
  - apply (observe_all_row s obs i agent t); [by rewrite Hpa|done|done|done|].
    intros observes Hfold.
    eapply (observes_reported s observes j hd p id i fin rows t); try done.
    by rewrite Hview.
  - unfold t, view_with_features. simpl. by rewrite Hfeat.
  - rewrite Hos. rewrite Hpa, Hslot, Hsizes in Hagent. rewrite Hhs in Hhd.
    rewrite Hsizes in Hsz.
    destruct (init_observation_space e hs names msize mframes s0 j hd sz m agent
                Hinit Hnd Hhd Hsz Hm Hagent) as (c' & f' & _ & _ & Hc' & Hf' & ->).
    rewrite Hvs in Hc' |- *. rewrite Hfs in Hf'. simpl in *.
    by injection Hc' as <-; injection Hf' as <-.
Qed.

End Observations.

(** * Checking reports on a concrete world *)

Section Reports.

Context {float : Type} (G : Engine float).
Implicit Types s : magent_parallel_env G.

Lemma enumerate_lookup {A} (l : list A) k x : l !! k = Some x -> (k, x) ∈ enumerate l.
Proof.
  intros Hk. unfold enumerate. apply list_elem_of_lookup. exists k.
  apply lookup_zip_with_Some. exists k, x. split; [done|]. split; [|done].
  apply lookup_seq. split; [done|]. by eapply lookup_lt_Some.
Qed.

Lemma unreported_Forall s i :
  Forall (fun hd => Forall (fun id => py_index (max_num_agents s) id <> Ok i)
                           (gw_get_agent_id G (env s) hd)) (handles s) ->
  unreported s i.
Proof.
  intros Hall hd id Hhd Hid. rewrite Forall_forall in Hall.
  specialize (Hall hd Hhd). rewrite Forall_forall in Hall. by apply Hall.
Qed.

Lemma reports_unique_Forall s i j p :
  Forall (fun jh : nat * handle G =>
            Forall (fun pi : nat * Z =>
                      py_index (max_num_agents s) pi.2 = Ok i -> jh.1 = j /\ pi.1 = p)
                   (enumerate (gw_get_agent_id G (env s) jh.2)))
         (enumerate (handles s)) ->
  forall j' p', reports s j' p' i -> j' = j /\ p' = p.
Proof.
  intros Hall j' p' (hd & id & Hhd & Hid & Hres). rewrite Forall_forall in Hall.
  specialize (Hall (j', hd) (enumerate_lookup _ _ _ Hhd)). rewrite Forall_forall in Hall.
  exact (Hall (p', id) (enumerate_lookup _ _ _ Hid) Hres).
Qed.

End Reports.

(** * The small engine at work *)

Lemma toy_made : Toy.made = Ok Toy.start.
Proof. vm_compute. reflexivity. Defined.

Lemma toy_made_traced : Toy.made_traced = Ok Toy.start_traced.
Proof. vm_compute. reflexivity. Defined.

Lemma toy_run_s1 : run 0%Z Toy.generate_map Toy.start Toy.s1.
Proof. apply run_reset, run_init. Defined.

Lemma toy_run_s2 : run 0%Z Toy.generate_map Toy.start Toy.s2.
Proof. apply run_step, toy_run_s1. Defined.

Lemma toy_run_s3 : run 0%Z Toy.generate_map Toy.start Toy.s3.
Proof. apply run_step, toy_run_s2. Defined.

Lemma toy_run_t1 : run 0%Z Toy.tgm Toy.start_traced Toy.t1.
Proof. apply run_reset, run_init. Defined.

Lemma toy_run_t2 : run 0%Z Toy.tgm Toy.start_traced Toy.t2.
Proof. apply run_step, toy_run_t1. Defined.

Lemma step_key_sets_witness :
  exists d out,
    all_dones Toy.s1 = Some d
    /\ (step 0%Z Toy.s1 Toy.acts1).2 = Ok out
    /\ dom (out_observes out) = list_to_set (not_done d (agents Toy.s1))
    /\ dom (out_rewards out) = list_to_set (not_done d (agents Toy.s1))
    /\ dom (out_dones out) = list_to_set (not_done d (agents Toy.s1)).
Proof.
  assert (exists d, all_dones Toy.s1 = Some d) as [d Hd]
    by (eexists; vm_compute; reflexivity).
  assert (exists out, (step 0%Z Toy.s1 Toy.acts1).2 = Ok out) as [out Hout]
    by (eexists; vm_compute; reflexivity).
  exists d, out. split; [exact Hd|]. split; [exact Hout|].
  exact (proj2 (step_key_sets 0%Z Toy.engine Toy.generate_map Toy.blank [0; 1]
                  ["red"; "blue"] 45%Z 3%Z Toy.start Toy.s1 d Toy.acts1
                  toy_made toy_run_s1 Hd) out Hout).
Defined.

Lemma step_termination_witness :
  exists d arr out d1 out1,
    all_dones Toy.s3 = Some d
    /\ action_array Toy.s3 Toy.acts1 (replicate (max_num_agents Toy.s3) 0%Z) = Ok arr
    /\ (step 0%Z Toy.s3 Toy.acts1).2 = Ok out
    /\ frames (step 0%Z Toy.s3 Toy.acts1).1 = (frames Toy.s3 + 1)%Z
    /\ out_dones out = gset_to_gmap true (list_to_set (agents (step 0%Z Toy.s3 Toy.acts1).1))
    /\ all_dones Toy.s1 = Some d1
    /\ action_array Toy.s1 Toy.acts1 (replicate (max_num_agents Toy.s1) 0%Z)
       = Ok [9; 0; 8]%Z
    /\ (step 0%Z Toy.s1 Toy.acts1).2 = Ok out1
    /\ out_dones out1 !! "red_0" = Some true
    /\ out_dones out1 !! "red_1" = Some false
    /\ out_dones out1 !! "blue_0" = Some true.
Proof.
  assert (exists d, all_dones Toy.s3 = Some d) as [d Hd]
    by (eexists; vm_compute; reflexivity).
  assert (exists arr,
    action_array Toy.s3 Toy.acts1 (replicate (max_num_agents Toy.s3) 0%Z) = Ok arr)
    as [arr Harr] by (eexists; vm_compute; reflexivity).
  assert (exists out, (step 0%Z Toy.s3 Toy.acts1).2 = Ok out) as [out Hout]
    by (eexists; vm_compute; reflexivity).
  assert (exists d, all_dones Toy.s1 = Some d) as [d1 Hd1]
    by (eexists; vm_compute; reflexivity).
  assert (action_array Toy.s1 Toy.acts1 (replicate (max_num_agents Toy.s1) 0%Z)
          = Ok [9; 0; 8]%Z) as Harr1 by (vm_compute; reflexivity).
  assert (exists out, (step 0%Z Toy.s1 Toy.acts1).2 = Ok out) as [out1 Hout1]
    by (eexists; vm_compute; reflexivity).
  assert (NoDup (possible_agents Toy.start)) as Hnd
    by (apply (bool_decide_unpack _); vm_compute; exact I).
  exists d, arr, out, d1, out1.
  split; [exact Hd|]. split; [exact Harr|]. split; [exact Hout|].
  destruct (step_termination 0%Z Toy.engine Toy.generate_map Toy.blank [0; 1]
              ["red"; "blue"] 45%Z 3%Z Toy.start Toy.s3 d Toy.acts1 arr out
              toy_made toy_run_s3 Hd Harr Hout) as (Hframes & _ & Hterminal & _).
  split; [exact Hframes|]. split; [apply Hterminal; right; vm_compute; discriminate|].
  split; [exact Hd1|]. split; [exact Harr1|]. split; [exact Hout1|].
  destruct (step_termination 0%Z Toy.engine Toy.generate_map Toy.blank [0; 1]
              ["red"; "blue"] 45%Z 3%Z Toy.start Toy.s1 d1 Toy.acts1 [9; 0; 8]%Z out1
              toy_made toy_run_s1 Hd1 Harr1 Hout1) as (_ & _ & _ & Hrunning).
  destruct Hrunning as [_ Hflags]; [split; vm_compute; reflexivity|].
  split; [|split].
  - destruct (Hflags 0 "red_0" Hnd) as [_ Hrep].
    + vm_compute. reflexivity.
    + apply (bool_decide_unpack _). vm_compute. exact I.
    + rewrite (Hrep 0 0 0 0%Z).
      * vm_compute. reflexivity.
      * vm_compute. reflexivity.
      * vm_compute. reflexivity.
      * vm_compute. reflexivity.
      * apply reports_unique_Forall. apply (bool_decide_unpack _). vm_compute. exact I.
      * vm_compute. reflexivity.
  - destruct (Hflags 1 "red_1" Hnd) as [_ Hrep].
    + vm_compute. reflexivity.
    + apply (bool_decide_unpack _). vm_compute. exact I.
    + rewrite (Hrep 0 0 1 1%Z).
      * vm_compute. reflexivity.
      * vm_compute. reflexivity.
      * vm_compute. reflexivity.
      * vm_compute. reflexivity.
      * apply reports_unique_Forall. apply (bool_decide_unpack _). vm_compute. exact I.
      * vm_compute. reflexivity.
  - destruct (Hflags 2 "blue_0" Hnd) as [Hun _].
    + vm_compute. reflexivity.
    + apply (bool_decide_unpack _). vm_compute. exact I.
    + apply Hun. apply unreported_Forall. apply (bool_decide_unpack _). vm_compute. exact I.
Defined.

Lemma absent_action_is_zero_witness :
  exists d arr,
    all_dones Toy.t1 = Some d
    /\ action_array Toy.t1 Toy.acts1 (replicate (max_num_agents Toy.t1) 0%Z) = Ok arr
    /\ possible_agents Toy.t1 !! 1 = Some "red_1"
    /\ Toy.acts1 !! "red_1" = None
    /\ arr !! 1 = Some 0%Z
    /\ mjoin (set_action_calls
               (drop (length (env Toy.t1).2) (env (step 0%Z Toy.t1 Toy.acts1).1).2)).*2 !! 1
       = Some 0%Z.
Proof.
  assert (exists d, all_dones Toy.t1 = Some d) as [d Hd]
    by (eexists; vm_compute; reflexivity).
  assert (exists arr,
    action_array Toy.t1 Toy.acts1 (replicate (max_num_agents Toy.t1) 0%Z) = Ok arr)
    as [arr Harr] by (eexists; vm_compute; reflexivity).
  assert (possible_agents Toy.t1 !! 1 = Some "red_1") as Hagent
    by (vm_compute; reflexivity).
  assert (Toy.acts1 !! "red_1" = None) as Hnone by (vm_compute; reflexivity).
  exists d, arr. split; [exact Hd|]. split; [exact Harr|].
  split; [exact Hagent|]. split; [exact Hnone|].
  exact (absent_action_is_zero 0%Z Toy.engine Toy.generate_map (Toy.blank, []) [0; 1]
           ["red"; "blue"] 45%Z 3%Z Toy.start_traced Toy.t1 d Toy.acts1 arr 1 "red_1"
           toy_made_traced toy_run_t1 Hd Harr Hagent Hnone).
Defined.

Lemma toy_agents_distinct : NoDup (possible_agents Toy.start).
Proof. apply (bool_decide_unpack _). vm_compute. exact I. Defined.

Lemma toy_blue_unreported : unreported Toy.s2 2.
Proof. apply unreported_Forall. apply (bool_decide_unpack _). vm_compute. exact I. Defined.

Lemma unreported_agent_zero_observation_witness :
  exists out t,
    (step 0%Z Toy.s1 Toy.acts1).2 = Ok out
    /\ out_observes out !! "blue_0" = Some t
    /\ exists space, observation_spaces Toy.s2 !! "blue_0" = Some space
                     /\ t = np_zeros 0%Z (box_shape space).
Proof.
  assert (exists out, (step 0%Z Toy.s1 Toy.acts1).2 = Ok out) as [out Hout]
    by (eexists; vm_compute; reflexivity).
  assert (exists t, out_observes out !! "blue_0" = Some t) as [t Ht].
  { assert (Ok out = (step 0%Z Toy.s1 Toy.acts1).2) as Hout' by (symmetry; exact Hout).
    vm_compute in Hout'. injection Hout' as ->. eexists. vm_compute. reflexivity. }
  exists out, t. split; [exact Hout|]. split; [exact Ht|].
  refine (proj2 (unreported_agent_zero_observation 0%Z Toy.engine Toy.generate_map
                   Toy.blank [0; 1] ["red"; "blue"] 45%Z 3%Z Toy.start Toy.s1
                   toy_made toy_run_s1 toy_agents_distinct)
            Toy.acts1 out Hout 2 "blue_0" t _ toy_blue_unreported Ht).
  vm_compute. reflexivity.
Defined.

Lemma unreported_live_agent_done_witness :
  exists out,
    (step 0%Z Toy.s1 Toy.acts1).2 = Ok out
    /\ out_dones out !! "blue_0" = Some true
    /\ out_rewards out !! "blue_0" = Some 0%Z.
Proof.
  assert (exists out, (step 0%Z Toy.s1 Toy.acts1).2 = Ok out) as [out Hout]
    by (eexists; vm_compute; reflexivity).
  exists out. split; [exact Hout|].
  refine (unreported_live_agent_done 0%Z Toy.engine Toy.generate_map
            Toy.blank [0; 1] ["red"; "blue"] 45%Z 3%Z Toy.start Toy.s1 Toy.acts1 out
            2 "blue_0" toy_made toy_run_s1 toy_agents_distinct Hout _ _
            toy_blue_unreported).
  - vm_compute. reflexivity.
  - apply (bool_decide_unpack _). vm_compute. exact I.
Defined.

Lemma step_filters_then_clears_witness :
  exists d,
    all_dones Toy.t2 = Some d
    /\ agents (step 0%Z Toy.t2 Toy.acts1).1
       = filter (fun a => d !! a = Some false) (agents Toy.t2)
    /\ exists rest,
         (env (step 0%Z Toy.t2 Toy.acts1).1).2 = (env Toy.t2).2 ++ CallClearDead :: rest.
Proof.
  assert (exists d, all_dones Toy.t2 = Some d) as [d Hd]
    by (eexists; vm_compute; reflexivity).
  exists d. split; [exact Hd|].
  destruct (step_filters_then_clears 0%Z Toy.engine Toy.generate_map (Toy.blank, [])
              [0; 1] ["red"; "blue"] 45%Z 3%Z Toy.start_traced Toy.t2 d Toy.acts1
              toy_made_traced toy_run_t2 Hd) as (Hagents & Hcalls & _).
  split; [exact Hagents|exact Hcalls].
Defined.

Lemma reset_restores_witness :
  frames Toy.t1 = 0%Z
  /\ agents Toy.t1 = possible_agents Toy.start_traced
  /\ (env Toy.t1).2 = (env Toy.start_traced).2 ++ [CallReset].
Proof.
  destruct (reset_restores 0%Z Toy.engine Toy.generate_map (Toy.blank, []) [0; 1]
              ["red"; "blue"] 45%Z 3%Z Toy.start_traced Toy.start_traced
              toy_made_traced (run_init 0%Z (traced Toy.engine) Toy.tgm Toy.start_traced))
    as (Hframes & _ & Hagents & _ & Hlog & _).
  split; [exact Hframes|]. split; [exact Hagents|exact Hlog].
Defined.

Lemma groups_receive_their_slices_witness :
  exists d arr,
    all_dones Toy.t1 = Some d
    /\ action_array Toy.t1 Toy.acts1 (replicate (max_num_agents Toy.t1) 0%Z) = Ok arr
    /\ mjoin (set_action_calls
               (drop (length (env Toy.t1).2) (env (step 0%Z Toy.t1 Toy.acts1).1).2)).*2
       = arr.
Proof.
  assert (exists d, all_dones Toy.t1 = Some d) as [d Hd]
    by (eexists; vm_compute; reflexivity).
  assert (exists arr,
    action_array Toy.t1 Toy.acts1 (replicate (max_num_agents Toy.t1) 0%Z) = Ok arr)
    as [arr Harr] by (eexists; vm_compute; reflexivity).
  exists d, arr. split; [exact Hd|]. split; [exact Harr|].
  exact (proj2 (proj2 (groups_receive_their_slices 0%Z Toy.engine Toy.generate_map
                         (Toy.blank, []) [0; 1] ["red"; "blue"] 45%Z 3%Z
                         Toy.start_traced Toy.t1 d Toy.acts1 arr
                         toy_made_traced toy_run_t1 Hd Harr))).
Defined.

Lemma done_agent_action_forwarded_witness :
  exists d arr,
    all_dones Toy.t2 = Some d
    /\ d !! "red_0" = Some true
    /\ Toy.acts1 !! "red_0" = Some 9%Z
    /\ action_array Toy.t2 Toy.acts1 (replicate (max_num_agents Toy.t2) 0%Z) = Ok arr
    /\ ("red_0" ∉ agents (step 0%Z Toy.t2 Toy.acts1).1)
    /\ mjoin (set_action_calls
               (drop (length (env Toy.t2).2) (env (step 0%Z Toy.t2 Toy.acts1).1).2)).*2 !! 0
       = Some (wrap_int32 9).
Proof.
  assert (exists d, all_dones Toy.t2 = Some d /\ d !! "red_0" = Some true)
    as (d & Hd & Hdone) by (eexists; split; vm_compute; reflexivity).
  assert (exists arr,
    action_array Toy.t2 Toy.acts1 (replicate (max_num_agents Toy.t2) 0%Z) = Ok arr)
    as [arr Harr] by (eexists; vm_compute; reflexivity).
  assert (possible_agents Toy.t2 !! 0 = Some "red_0") as Hagent
    by (vm_compute; reflexivity).
  assert (Toy.acts1 !! "red_0" = Some 9%Z) as Hact by (vm_compute; reflexivity).
  exists d, arr. split; [exact Hd|]. split; [exact Hdone|]. split; [exact Hact|].
  split; [exact Harr|].
  destruct (done_agent_action_forwarded 0%Z Toy.engine Toy.generate_map (Toy.blank, [])
              [0; 1] ["red"; "blue"] 45%Z 3%Z Toy.start_traced Toy.t2 d Toy.acts1 arr
              0 "red_0" 9%Z toy_made_traced toy_run_t2 Hd Harr Hagent Hdone Hact)
    as (Hgone & Hslot & _).
  split; [exact Hgone|exact Hslot].
Defined.

Lemma alive_agent_observation_witness :
  exists obs,
    _observe_all Toy.s1 = Ok obs
    /\ obs !! "red_1"
       = Some (view_with_features 1 2 1 [1; 0]%Z [0; 5]%Z)
    /\ observation_spaces Toy.s1 !! "red_1" = Some {| box_shape := [1; 2; 3] |}.
Proof.
  assert (exists obs, _observe_all Toy.s1 = Ok obs) as [obs Hobs]
    by (eexists; vm_compute; reflexivity).
  exists obs. split; [exact Hobs|].
  destruct (alive_agent_observation 0%Z Toy.engine Toy.generate_map Toy.blank [0; 1]
              ["red"; "blue"] 45%Z 3%Z Toy.start Toy.s1 obs 0 0 1 1%Z 1 2 1 "red_1"
              2 1 2 1 2 [0; 0; 1; 0]%Z [0; 5; 0; 5]%Z
              toy_made toy_run_s1 toy_agents_distinct Hobs)
    as (Hrow & _ & Hspace).
  - vm_compute. reflexivity.
  - vm_compute. reflexivity.
  - vm_compute. reflexivity.
  - apply reports_unique_Forall. apply (bool_decide_unpack _). vm_compute. exact I.
  - vm_compute. reflexivity.
  - vm_compute. reflexivity.
  - vm_compute. reflexivity.
  - vm_compute. reflexivity.
  - vm_compute. reflexivity.
  - lia.
  - vm_compute. reflexivity.
  - vm_compute. reflexivity.
  - apply (bool_decide_unpack _). vm_compute. exact I.
  - vm_compute. reflexivity.
  - vm_compute. reflexivity.
  - split; [exact Hrow|exact Hspace].
Defined.

(** * Further properties of the life cycle *)

Section Lifecycle.

Context {float : Type} (fzero : float) (G : Engine float).
Variable generate_map : Z -> list (handle G) -> world G -> world G.

Implicit Types s : magent_parallel_env G.

Lemma step_agents_sublist s all_actions :
  agents (step fzero s all_actions).1 `sublist_of` agents s.
Proof.
  destruct (step fzero s all_actions) as [s' [out|ex]] eqn:Hstep.
  - apply step_Ok in Hstep as (ags & arr & e1 & k & Hlive & _ & _ & _ & _ & _ & _ & ->).
    apply live_agents_Ok in Hlive as (d & _ & _ & ->). simpl. apply sublist_filter.
  - apply step_Raise in Hstep as [->|(ags & e & f & Hlive & ->)]; [done|].
    apply live_agents_Ok in Hlive as (d & _ & _ & ->). simpl. apply sublist_filter.
Qed.

(** The key sets of a returning step, from the stored flags. *)
Lemma step_dom s d all_actions out :
  consistent fzero s -> all_dones s = Some d ->
  (step fzero s all_actions).2 = Ok out ->
  agents (step fzero s all_actions).1 = not_done d (agents s)
  /\ dom (out_observes out) = list_to_set (not_done d (agents s))
  /\ dom (out_rewards out) = list_to_set (not_done d (agents s))
  /\ dom (out_dones out) = list_to_set (not_done d (agents s))
  /\ dom (out_infos out) = list_to_set (not_done d (agents s)).
Proof.
  intros Hs Hd Hout. destruct (step fzero s all_actions) as [s' r] eqn:Hstep.
  simpl in Hout. subst r.
  apply step_Ok in Hstep
    as (ags & arr & e1 & k & Hlive & _ & _ & Hdones & Hrew & Hobs & Hinfos & ->).
  pose proof (consistent_filtered _ _ s ags (gw_step G e1).1 (frames s + 1)%Z Hs Hlive)
    as [Hc _ _ Ha _ _].
  rewrite (live_agents_not_done _ _ s d Hs Hd) in Hlive. injection Hlive as <-.
  split; [done|]. split; [|split; [|split]].
  - by apply (observe_all_keys G _ Hc Ha).
  - by apply (all_rewards_keys fzero G _ Hc Ha).
  - by apply (all_dones_keys G _ Hc Ha) in Hdones.
  - rewrite Hinfos, dom_dict_of, <- list_fmap_compose. by rewrite list_fmap_id.
Qed.

(** X1. [step] on an object that has at least one agent and was constructed
    but never reset raises [AttributeError] (there are no stored done flags
    yet) and leaves the object exactly as it was: no agent is filtered, the
    engine is not touched.  (An object without agents never reads the flags.) *)
Theorem step_before_reset e hs names msize mframes s0 all_actions :
  init fzero generate_map e hs names msize mframes = Ok s0 ->
  possible_agents s0 <> [] ->
  step fzero s0 all_actions = (s0, Raise AttributeError).
Proof.
  intros (_ & Hags & Hnone)%init_consistent Hsome. unfold step.
  rewrite live_agents_unset; [done|done|]. by rewrite Hags.
Qed.

(** X2. Live agents are never added: in every state of a run the live agents
    are a sublist of the possible agents (same order, some left out), and a
    [step], returning or raising, leaves a sublist of the agents it found. *)
Theorem live_agents_only_shrink e hs names msize mframes s0 s :
  init fzero generate_map e hs names msize mframes = Ok s0 ->
  run fzero generate_map s0 s ->
  agents s `sublist_of` possible_agents s0
  /\ forall all_actions, agents (step fzero s all_actions).1 `sublist_of` agents s.
Proof.
  intros Hinit Hrun. split; [|intros; apply step_agents_sublist].
  apply init_consistent in Hinit as (_ & Hags & _).
  induction Hrun as [|s sd _ IH|s Hrun IH|s a _ IH].
  - by rewrite Hags.
  - exact IH.
  - simpl. apply run_setup in Hrun. injection Hrun as _ _ _ _ -> _ _ _ _. done.
  - etrans; [apply step_agents_sublist|exact IH].
Qed.

(** X3. The stored done flags follow the call: a [step] that returns stores
    exactly the done dictionary it returns; a [step] that raises leaves the
    stored flags as they were, wherever it stopped. *)
Theorem step_stores_returned_flags s all_actions :
  match (step fzero s all_actions).2 with
  | Ok out => all_dones (step fzero s all_actions).1 = Some (out_dones out)
  | Raise _ => all_dones (step fzero s all_actions).1 = all_dones s
  end.
Proof.
  destruct (step fzero s all_actions) as [s' [out|ex]] eqn:Hstep; simpl.
  - by apply step_Ok in Hstep as (ags & arr & e1 & k & _ & _ & _ & _ & _ & _ & _ & ->).
  - by apply step_Raise in Hstep as [->|(ags & e & f & _ & ->)].
Qed.

(** X4. The info dictionary of a returning [step] has an empty dictionary for
    every live agent and nothing else. *)
Theorem step_infos_empty s all_actions out :
  (step fzero s all_actions).2 = Ok out ->
  out_infos out = gset_to_gmap ∅ (list_to_set (agents (step fzero s all_actions).1)).
Proof.
  intros Hout. destruct (step fzero s all_actions) as [s' r] eqn:Hstep.
  simpl in Hout. subst r.
  apply step_Ok in Hstep as (ags & arr & e1 & k & _ & _ & _ & _ & _ & _ & Hinfos & ->).
  rewrite Hinfos. simpl. apply dict_of_const_map.
Qed.

Lemma not_done_all_true (d : gmap string bool) (l : list string) :
  (forall a, a ∈ l -> d !! a = Some true) -> not_done d l = [].
Proof.
  unfold not_done. induction l as [|a l IH]; intros Hall; [done|].
  rewrite filter_cons_False.
  - apply IH. intros a' Ha'. apply Hall. by right.
  - rewrite (Hall a) by (by left). done.
Qed.

(** X5. When every live agent is already marked done (as after a terminal
    step), the next [step] has no live agent left: if it returns, all four
    dictionaries are empty. *)
Theorem all_done_step_returns_nothing e hs names msize mframes s0 s d all_actions out :
  init fzero generate_map e hs names msize mframes = Ok s0 ->
  run fzero generate_map s0 s ->
  all_dones s = Some d ->
  (forall a, a ∈ agents s -> d !! a = Some true) ->
  (step fzero s all_actions).2 = Ok out ->
  agents (step fzero s all_actions).1 = []
  /\ out_observes out = ∅ /\ out_rewards out = ∅
  /\ out_dones out = ∅ /\ out_infos out = ∅.
Proof.
  intros Hinit Hrun Hd Hall Hout.
  pose proof (run_consistent _ _ _ _ _ _ _ _ _ _ Hinit Hrun) as Hs.
  destruct (step_dom s d all_actions out Hs Hd Hout) as (Hags & Ho & Hr & Hdn & Hi).
  pose proof (not_done_all_true d (agents s) Hall) as Hnone.
  rewrite Hnone in *. simpl in *.
  split; [done|]. by repeat split; apply dom_empty_inv_L.
Qed.

(** X6. The first [step] after a [reset] finds every possible agent live:
    its dictionaries are keyed by exactly the possible agents. *)
Theorem first_step_keys_all_agents e hs names msize mframes s0 s all_actions out :
  init fzero generate_map e hs names msize mframes = Ok s0 ->
  run fzero generate_map s0 s ->
  (step fzero (reset generate_map s).1 all_actions).2 = Ok out ->
  dom (out_observes out) = list_to_set (possible_agents s0)
  /\ dom (out_rewards out) = list_to_set (possible_agents s0)
  /\ dom (out_dones out) = list_to_set (possible_agents s0)
  /\ dom (out_infos out) = list_to_set (possible_agents s0).
Proof.
  intros Hinit Hrun Hout.
  pose proof (run_consistent _ _ _ _ _ _ _ _ _ _ Hinit (run_reset _ _ _ _ _ Hrun)) as Hs.
  assert (possible_agents s = possible_agents s0) as Hpa.
  { apply run_setup in Hrun. by injection Hrun. }
  destruct (step_dom _ _ all_actions out Hs eq_refl Hout) as (_ & Hdoms).
  assert (not_done (dict_of ((fun agent => (agent, false)) <$> possible_agents s))
                   (possible_agents s) = possible_agents s0) as Hall.
  { rewrite <- Hpa. unfold not_done.
    assert (forall l2 l1 : list string, (forall a, a ∈ l1 -> a ∈ l2) ->
              filter (fun a => dict_of ((fun agent => (agent, false)) <$> l2) !! a
                               = Some false) l1 = l1) as Hkeep.
    { intros l2. induction l1 as [|a l1 IH]; intros Hsub; [done|].
      rewrite filter_cons_True by (apply dict_of_const, Hsub; by left).
      f_equal. apply IH. intros a' Ha'. apply Hsub. by right. }
    by apply Hkeep. }
  simpl in Hdoms. rewrite Hall in Hdoms. exact Hdoms.
Qed.

End Lifecycle.

(** * Further properties of the per-agent arrays *)

Section EngineData.

Context {float : Type} (fzero : float) (G : Engine float).

Implicit Types s : magent_parallel_env G.



(** X7. Rewards and done flags are gathered through the engine's id lists: an
    agent that group [j] reports at position [p] (and nothing else reports)
    gets the reward at position [p] of that group's reward array, and, on a
    step that is not terminal, the negation of the alive flag at position
    [p]. *)
Theorem reported_agent_reward_and_flag s j hd p id i agent :
  NoDup (possible_agents s) ->
  handles s !! j = Some hd ->
  gw_get_agent_id G (env s) hd !! p = Some id ->
  py_index (max_num_agents s) id = Ok i ->
  (forall j' p', reports s j' p' i -> j' = j /\ p' = p) ->
  possible_agents s !! i = Some agent ->
  agent ∈ agents s ->
  (forall r, _all_rewards fzero s = Ok r ->
             length (gw_get_reward G (env s) hd) = length (gw_get_agent_id G (env s) hd) ->
             r !! agent = gw_get_reward G (env s) hd !! p)
  /\ (forall d, _all_dones s false = Ok d ->
                length (gw_get_alive G (env s) hd) = length (gw_get_agent_id G (env s) hd) ->
                d !! agent = negb <$> gw_get_alive G (env s) hd !! p).
Proof.
  intros Hnd Hhd Hid Hi Huniq Hagent Hlive. split.
  - intros r (rewards & _ & -> & Hfold)%all_rewards_array Hlen.
    destruct (lookup_lt_is_Some_2 (gw_get_reward G (env s) hd) p) as [x Hx].
    { rewrite Hlen. by eapply lookup_lt_Some. }
    rewrite Hx. apply live_items_lookup; [done|]. split; [done|]. exists i.
    split; [done|].
    by apply (scalars_reported G (gw_get_reward G (env s)) fzero s rewards j hd p id i x).
  - intros d (dones & _ & -> & Hfold)%all_dones_array Hlen.
    destruct (lookup_lt_is_Some_2 (gw_get_alive G (env s) hd) p) as [x Hx].
    { rewrite Hlen. by eapply lookup_lt_Some. }
    rewrite Hx. simpl. apply live_items_lookup; [done|]. split; [done|]. exists i.
    split; [done|].
    apply (scalars_reported G (fun hd => negb <$> gw_get_alive G (env s) hd) true s dones
             j hd p id i (negb x)); try done.
    + by rewrite length_fmap.
    + by rewrite list_lookup_fmap, Hx.
Qed.

Lemma foldM_each {A B} (P : B -> Prop) (f : B -> A -> result B) l b b' x :
  (forall b y b', P b -> f b y = Ok b' -> P b') ->
  P b -> foldM f b l = Ok b' -> x ∈ l -> exists b1 b2, P b1 /\ f b1 x = Ok b2.
Proof.
  intros Hstep. revert b. induction l as [|y l IH]; intros b Hb Hfold Hin.
  - by apply elem_of_nil in Hin.
  - simpl in Hfold. apply bind_Ok in Hfold as (b1 & H1 & Hrest).
    apply elem_of_cons in Hin as [->|Hin]; [by eauto|].
    eapply IH; [|exact Hrest|exact Hin]. by eapply Hstep.
Qed.

Lemma list_setitems_indices {A} (l l' : list A) kvs kv :
  list_setitems l kvs = Ok l' -> kv ∈ kvs -> is_Ok (py_index (length l) kv.1).
Proof.
  unfold list_setitems. intros Hfold Hin.
  destruct (foldM_each (fun b => length b = length l) _ _ _ _ kv
              (fun b y b' Hb Hset => eq_trans (list_setitem_length _ _ _ _ Hset) Hb)
              eq_refl Hfold Hin) as (b1 & b2 & Hb1 & Hset).
  unfold list_setitem in Hset. apply bind_Ok in Hset as (k & Hk & _).
  rewrite Hb1 in Hk. by exists k.
Qed.

Lemma np_setitems_indices {A} (a a' : list A) ids vals id :
  np_setitems a ids vals = Ok a' -> id ∈ ids -> is_Ok (py_index (length a) id).
Proof.
  unfold np_setitems. rewrite bind_Ok. intros (vals' & Hb & Hset) Hin.
  apply np_broadcast_length in Hb.
  apply list_elem_of_lookup in Hin as [p Hp].
  destruct (lookup_lt_is_Some_2 vals' p) as [v Hv].
  { rewrite Hb. by eapply lookup_lt_Some. }
  apply (list_setitems_indices _ _ _ (id, v) Hset).
  apply list_elem_of_lookup. exists p. apply lookup_zip_with_Some. eauto.
Qed.

Lemma rewards_need_valid_ids s hd id :
  hd ∈ handles s -> id ∈ gw_get_agent_id G (env s) hd ->
  is_Ok (_all_rewards fzero s) -> is_Ok (py_index (max_num_agents s) id).
Proof.
  intros Hhd Hid [r (rewards & _ & _ & Hfold)%all_rewards_array].
  destruct (foldM_each (fun b => length b = max_num_agents s) _ _ _ _ hd
              (fun b y b' Hb Hset => eq_trans (np_setitems_length _ _ _ _ Hset) Hb)
              (length_replicate _ _) Hfold Hhd) as (b1 & b2 & Hb1 & Hset).
  rewrite <- Hb1. by eapply np_setitems_indices.
Qed.

(** X8. An engine id outside the slot range is not dropped silently: when
    some handle reports an id that is neither in [0, n) nor in [-n, 0) for the
    [n] slots of the adapter, the reward builder does not return, and neither
    does a [step] whose engine tick leads to such a report. *)
Theorem out_of_range_id_raises s hd id :
  hd ∈ handles s ->
  (id ∈ gw_get_agent_id G (env s) hd ->
   py_index (max_num_agents s) id = Raise IndexError ->
   ~ is_Ok (_all_rewards fzero s))
  /\ (forall all_actions,
        id ∈ gw_get_agent_id G (env (step fzero s all_actions).1) hd ->
        py_index (max_num_agents s) id = Raise IndexError ->
        ~ is_Ok (step fzero s all_actions).2).
Proof.
  intros Hhd. split.
  - intros Hid Hbad Hok.
    destruct (rewards_need_valid_ids s hd id Hhd Hid Hok) as [k Hk]. congruence.
  - intros all_actions Hid Hbad [out Hout].
    destruct (step fzero s all_actions) as [s' r] eqn:Hstep. simpl in Hout, Hid. subst r.
    apply step_Ok in Hstep as (ags & arr & e1 & k & _ & _ & _ & _ & Hrew & _ & _ & ->).
    destruct (rewards_need_valid_ids (ticked s ags (gw_step G e1).1) hd id Hhd Hid
                (ex_intro _ _ Hrew)) as [k' Hk'].
    simpl in Hk'. congruence.
Qed.

(** X9. The observation batch of a group cannot be built when the engine
    hands back a view batch and a feature batch for different numbers of
    agents: the concatenation raises [ValueError]. *)
Theorem group_obs_batch_mismatch n n' h w c f (dv df : list float) :
  n <> n' ->
  group_obs (NDArray [n; h; w; c] dv) (NDArray [n'; f] df) = Raise ValueError.
Proof.
  intros Hne. unfold group_obs, np_expand_dims, np_tile, np_concatenate_last, unsnoc.
  cbn [shape data length].
  rewrite decide_True by lia. cbn [bind shape data length firstn skipn app].
  rewrite decide_True by lia.
  cbn [bind shape data length firstn skipn app list_getitem lookup list_lookup
       Nat.max Nat.sub replicate zip_with reverse rev_append product foldr].
  rewrite !Nat.mul_1_r, !Nat.mul_1_l.
  rewrite decide_False; [done|]. intros [= ->]. done.
Qed.

End EngineData.

(** * Further properties of construction *)

Section Construction.

Context {float : Type} (fzero : float) (G : Engine float).
Variable generate_map : Z -> list (handle G) -> world G -> world G.

Implicit Types s : magent_parallel_env G.

Lemma pretty_N_char_free x : pretty_N_char x <> "_"%char.
Proof. unfold pretty_N_char. by repeat case_match. Qed.

Lemma pretty_N_go_free x str : free_of "_" str -> free_of "_" (pretty_N_go x str).
Proof.
  revert str. induction (N.lt_wf_0 x) as [x _ IH]. intros str Hstr.
  destruct (decide (x = 0)%N) as [->|Hx]; [by rewrite pretty_N_go_0|].
  rewrite pretty_N_go_step by lia. apply IH.
  - apply N.div_lt; lia.
  - split; [apply pretty_N_char_free|done].
Qed.

(** The decimal numeral of an index has no underscore. *)
Lemma pretty_nat_free (i : nat) : free_of "_" (pretty i).
Proof.
  unfold pretty, pretty_nat, pretty, pretty_N. case_decide.
  - simpl. split; done.
  - by apply pretty_N_go_free.
Qed.

Lemma underscore_not_free (str t : string) : ~ free_of "_" (str +:+ String "_" t).
Proof. induction str as [|c str IH]; simpl; intros [? ?]; auto. Qed.

(** The last underscore of [name_index] splits it in one way only. *)
Lemma underscore_split_inj (s1 s2 t1 t2 : string) :
  free_of "_" t1 -> free_of "_" t2 ->
  s1 +:+ String "_" t1 = s2 +:+ String "_" t2 -> s1 = s2 /\ t1 = t2.
Proof.
  intros Ht1 Ht2. revert s2. induction s1 as [|c s1 IH]; intros [|c' s2]; simpl.
  - by intros [= ->].
  - intros [= <- ->]. by apply underscore_not_free in Ht1.
  - intros [= -> <-]. by apply underscore_not_free in Ht2.
  - intros [= -> Heq]. destruct (IH _ Heq) as [-> ->]. done.
Qed.

Lemma agent_name_inj n1 n2 i1 i2 :
  agent_name n1 i1 = agent_name n2 i2 -> n1 = n2 /\ i1 = i2.
Proof.
  unfold agent_name. intros Heq.
  apply underscore_split_inj in Heq as [-> Hi]; try apply pretty_nat_free.
  split; [done|]. by apply (inj pretty) in Hi.
Qed.

(** A position in the concatenation of the teams is a member of one team. *)
Lemma sizes_decompose (sizes : list nat) i :
  i < sum_list sizes ->
  exists j sz m, sizes !! j = Some sz /\ m < sz /\ i = sum_list (take j sizes) + m.
Proof.
  revert i. induction sizes as [|sz0 sizes IH]; simpl; intros i Hi; [lia|].
  destruct (decide (i < sz0)) as [Hlt|Hge].
  - exists 0, sz0, i. simpl. auto.
  - destruct (IH (i - sz0)) as (j & sz & m & Hj & Hm & Heq); [lia|].
    exists (S j), sz, m. simpl. repeat split; [done|done|lia].
Qed.

(** X10. Agent ids are unique when the team names are: distinct team names
    give pairwise distinct ids [name_index], whatever the names contain. *)
Theorem distinct_names_distinct_agents e hs names msize mframes s0 :
  init fzero generate_map e hs names msize mframes = Ok s0 ->
  NoDup names ->
  NoDup (possible_agents s0).
Proof.
  intros Hinit Hnd.
  destruct (init_consistent _ _ _ _ _ _ _ _ _ Hinit) as [[Hcount Hsizes _ _ _ _] _].
  apply NoDup_alt. intros i1 i2 a H1 H2.
  assert (i1 < sum_list (team_sizes s0)) as Hi1
    by (rewrite Hsizes, <- Hcount; by eapply lookup_lt_Some).
  assert (i2 < sum_list (team_sizes s0)) as Hi2
    by (rewrite Hsizes, <- Hcount; by eapply lookup_lt_Some).
  destruct (sizes_decompose _ _ Hi1) as (j1 & sz1 & m1 & Hj1 & Hm1 & ->).
  destruct (sizes_decompose _ _ Hi2) as (j2 & sz2 & m2 & Hj2 & Hm2 & ->).
  destruct (init_agent_names _ _ _ _ _ _ _ _ _ _ _ _ Hinit Hj1 Hm1) as (n1 & Hn1 & Ha1).
  destruct (init_agent_names _ _ _ _ _ _ _ _ _ _ _ _ Hinit Hj2 Hm2) as (n2 & Hn2 & Ha2).
  rewrite H1 in Ha1. rewrite H2 in Ha2.
  assert (agent_name n1 m1 = agent_name n2 m2) as Heq by congruence.
  apply agent_name_inj in Heq as [-> ->].
  by rewrite (NoDup_lookup _ _ _ _ Hnd Hn1 Hn2).
Qed.

Lemma traverse_raise {A B} (f : A -> result B) l x ex :
  (forall y, y ∈ l -> is_Ok (f y) \/ f y = Raise ex) ->
  x ∈ l -> f x = Raise ex -> traverse f l = Raise ex.
Proof.
  induction l as [|y l IH]; intros Hall Hin Hx; [by apply elem_of_nil in Hin|].
  simpl. destruct (Hall y (list_elem_of_here _ _)) as [[b Hb]|Hb]; rewrite Hb; [|done].
  simpl. apply elem_of_cons in Hin as [->|Hin]; [congruence|].
  rewrite IH; [done| |done|done]. intros z Hz. apply Hall. by apply list_elem_of_further.
Qed.

(** X11. Construction fails with [IndexError] when a group that has members
    has no team name: the list of names is shorter than its position. *)
Theorem init_needs_team_names e hs names msize mframes j hd :
  hs !! j = Some hd ->
  0 < gw_get_num G (generate_map msize hs (gw_reset G e)) hd ->
  length names <= j ->
  init fzero generate_map e hs names msize mframes = Raise IndexError.
Proof.
  intros Hhd Hnum Hlen. unfold init, for_team_members at 1.
  erewrite traverse_raise with (x := (j, gw_get_num G (generate_map msize hs (gw_reset G e)) hd))
                               (ex := IndexError); [done| | |].
  - intros [k sz] _. simpl. destruct sz as [|sz]; [left; by eexists|].
    unfold list_getitem. destruct (names !! k); [left; by eexists|by right].
  - unfold enumerate. apply list_elem_of_lookup. exists j.
    apply lookup_zip_with_Some. eexists _, _. split; [done|]. split.
    + rewrite length_fmap. apply lookup_seq. split; [done|]. by eapply lookup_lt_Some.
    + by rewrite list_lookup_fmap, Hhd.
  - simpl. destruct (gw_get_num _ _ hd) as [|sz]; [lia|].
    unfold list_getitem. rewrite lookup_ge_None_2 by lia. done.
Qed.

Lemma forallb_length {A} k (l : list (list A)) :
  forallb (fun tup => length tup =? k) l = true <-> Forall (fun tup => length tup = k) l.
Proof.
  induction l as [|x l IH]; simpl; [by split|].
  rewrite andb_true_iff, Nat.eqb_eq, IH, Forall_cons. done.
Qed.

Lemma calc_obs_shapes_rows (e : world G) (hs : list (handle G)) shapes :
  Forall (fun tup => length tup = 3) (gw_get_view_space G e <$> hs) ->
  Forall (fun tup => length tup = 1) (gw_get_feature_space G e <$> hs) ->
  traverse (fun vf : list nat * list nat =>
              c <- list_getitem vf.1 2 ;;
              f <- list_getitem vf.2 0 ;;
              Ok (take 2 vf.1 ++ [c + f]))
           (zip (gw_get_view_space G e <$> hs) (gw_get_feature_space G e <$> hs))
  = Ok shapes ->
  Forall2 (fun hd shp => exists h w c f,
               gw_get_view_space G e hd = [h; w; c]
               /\ gw_get_feature_space G e hd = [f]
               /\ shp = [h; w; c + f]) hs shapes.
Proof.
  revert shapes. induction hs as [|hd hs' IH]; intros shapes; simpl.
  - intros _ _ [= <-]. constructor.
  - intros [Hv Hvs]%Forall_cons [Hf Hfs]%Forall_cons.
    destruct (gw_get_view_space G e hd) as [|h [|w [|c [|]]]] eqn:Hview; try done.
    destruct (gw_get_feature_space G e hd) as [|f [|]] eqn:Hfeat; try done.
    simpl. rewrite bind_Ok. intros (rest & Hrest & [= <-]).
    constructor; [by exists h, w, c, f|by apply IH].
Qed.

Lemma calc_obs_shapes_build (e : world G) (hs : list (handle G)) shapes :
  Forall2 (fun hd shp => exists h w c f,
               gw_get_view_space G e hd = [h; w; c]
               /\ gw_get_feature_space G e hd = [f]
               /\ shp = [h; w; c + f]) hs shapes ->
  Forall (fun tup => length tup = 3) (gw_get_view_space G e <$> hs)
  /\ Forall (fun tup => length tup = 1) (gw_get_feature_space G e <$> hs)
  /\ traverse (fun vf : list nat * list nat =>
                 c <- list_getitem vf.1 2 ;;
                 f <- list_getitem vf.2 0 ;;
                 Ok (take 2 vf.1 ++ [c + f]))
              (zip (gw_get_view_space G e <$> hs) (gw_get_feature_space G e <$> hs))
     = Ok shapes.
Proof.
  induction 1 as [|hd shp hs' shapes' (h & w & c & f & Hview & Hfeat & ->) _ (IHv & IHf & IH)];
    [done|].
  rewrite !fmap_cons. cbn [zip_with traverse]. rewrite IH, Hview, Hfeat.
  repeat split; [by constructor|by constructor].
Qed.

Lemma calc_obs_shapes_total (views feats : list (list nat)) :
  Forall (fun tup => length tup = 3) views -> Forall (fun tup => length tup = 1) feats ->
  is_Ok (traverse (fun vf : list nat * list nat =>
                     c <- list_getitem vf.1 2 ;;
                     f <- list_getitem vf.2 0 ;;
                     Ok (take 2 vf.1 ++ [c + f])) (zip views feats)).
Proof.
  intros Hv Hf. apply traverse_total. apply Forall_forall. intros [v f] Hin.
  apply elem_of_zip_l in Hin as Hl. apply elem_of_zip_r in Hin as Hr. simpl in *.
  rewrite Forall_forall in Hv, Hf. specialize (Hv _ Hl). specialize (Hf _ Hr).
  destruct v as [|? [|? [|c [|]]]]; try done. destruct f as [|x [|]]; try done.
  by eexists.
Qed.

(** X12. The observation shapes are computed exactly when every group has a
    three-axis view space and a one-axis feature space; the shape of a group
    is then its view shape with the feature count added to the channels.
    In every other case the exception is [AssertionError]. *)
Theorem calc_obs_shapes_spec (e : world G) (hs : list (handle G)) :
  (forall shapes,
     _calc_obs_shapes G e hs = Ok shapes <->
     Forall2 (fun hd shp => exists h w c f,
                  gw_get_view_space G e hd = [h; w; c]
                  /\ gw_get_feature_space G e hd = [f]
                  /\ shp = [h; w; c + f]) hs shapes)
  /\ (forall ex, _calc_obs_shapes G e hs = Raise ex -> ex = AssertionError).
Proof.
  unfold _calc_obs_shapes. split.
  - intros shapes. split.
    + destruct (forallb _ (gw_get_view_space G e <$> hs)) eqn:Hv; [|done].
      destruct (forallb _ (gw_get_feature_space G e <$> hs)) eqn:Hf; [|done].
      simpl. apply forallb_length in Hv, Hf. by apply calc_obs_shapes_rows.
    + intros (Hv & Hf & Hrows)%calc_obs_shapes_build.
      apply forallb_length in Hv, Hf. by rewrite Hv, Hf.
  - intros ex.
    destruct (forallb _ (gw_get_view_space G e <$> hs)) eqn:Hv; [|by intros [= <-]].
    destruct (forallb _ (gw_get_feature_space G e <$> hs)) eqn:Hf; [|by intros [= <-]].
    simpl. apply forallb_length in Hv, Hf.
    destruct (calc_obs_shapes_total _ _ Hv Hf) as [shapes ->]. done.
Qed.

End Construction.

(** * Further properties of the calls of a step *)

Section StepCalls.

Context {float : Type} (fzero : float) (G : Engine float).
Variable generate_map : Z -> list (handle G) -> world G -> world G.

Implicit Types s : magent_parallel_env (traced G).

Lemma action_array_overflow {G' : Engine float} (s : magent_parallel_env G')
    (all_actions : gmap string Z) i agent a :
  length (possible_agents s) = max_num_agents s ->
  possible_agents s !! i = Some agent ->
  all_actions !! agent = Some a ->
  ~ (- 2 ^ 63 <= a < 2 ^ 63)%Z ->
  action_array s all_actions (replicate (max_num_agents s) 0%Z) = Raise OverflowError.
Proof.
  intros Hcount Hagent Ha Hbig. unfold action_array.
  rewrite (fill_actions_Ok G' s all_actions Hcount). simpl. unfold np_asarray_int32.
  apply (traverse_raise _ _ a).
  - intros y _. unfold to_int32. case_decide; [left; by eexists|by right].
  - apply list_elem_of_lookup. exists i. by rewrite list_lookup_fmap, Hagent; simpl; rewrite Ha.
  - unfold to_int32. by rewrite decide_False.
Qed.

(** X13. An action that does not fit a 64-bit integer makes [step] raise
    [OverflowError] when the action array is built.  By then the live agents
    are already filtered and the engine has been asked to clear its dead, and
    nothing else has happened: no action was handed over, the engine was not
    advanced, the frame counter and the stored done flags are as before. *)
Theorem oversized_action_stops_step e hs names msize mframes s0 s d all_actions i agent a :
  init fzero (traced_generate_map generate_map) e hs names msize mframes = Ok s0 ->
  run fzero (traced_generate_map generate_map) s0 s ->
  all_dones s = Some d ->
  possible_agents s !! i = Some agent ->
  all_actions !! agent = Some a ->
  ~ (- 2 ^ 63 <= a < 2 ^ 63)%Z ->
  (step fzero s all_actions).2 = Raise OverflowError
  /\ (env (step fzero s all_actions).1).2 = (env s).2 ++ [CallClearDead]
  /\ agents (step fzero s all_actions).1 = not_done d (agents s)
  /\ frames (step fzero s all_actions).1 = frames s
  /\ all_dones (step fzero s all_actions).1 = Some d.
Proof.
  intros Hinit Hrun Hd Hagent Ha Hbig.
  pose proof (run_consistent _ _ _ _ _ _ _ _ _ _ Hinit Hrun) as Hs.
  pose proof (step_cases fzero (traced G) s all_actions d Hs Hd) as Hcases.
  cbv zeta in Hcases. destruct Hs as [Hcount _ _ _ _ _].
  rewrite (action_array_overflow s all_actions i agent a Hcount Hagent Ha Hbig) in Hcases.
  rewrite Hcases. done.
Qed.

Lemma fmap_zip_calls (hs : list (handle G)) (slices : list (list Z)) :
  (fun p : handle G * list Z => CallSetAction p.1 p.2) <$> zip hs slices
  = zip_with CallSetAction hs slices.
Proof.
  revert slices. induction hs as [|hd hs' IH]; intros [|sl slices]; simpl; try done.
  f_equal. apply IH.
Qed.

(** X14. The engine calls of one step whose action array is built are, in
    order: [clear_dead()] once, one [set_action] per handle in the order of
    the handles, the arrays handed over being consecutive pieces of the flat
    action array, and [step()] once, last.  The step makes no other lifecycle
    call; in particular it never resets or reseeds the engine. *)
Theorem step_call_sequence e hs names msize mframes s0 s d all_actions arr :
  init fzero (traced_generate_map generate_map) e hs names msize mframes = Ok s0 ->
  run fzero (traced_generate_map generate_map) s0 s ->
  all_dones s = Some d ->
  action_array s all_actions (replicate (max_num_agents s) 0%Z) = Ok arr ->
  exists slices,
    length slices = length (handles s)
    /\ mjoin slices = arr
    /\ (env (step fzero s all_actions).1).2
       = (env s).2 ++ CallClearDead :: zip_with CallSetAction (handles s) slices ++ [CallStep].
Proof.
  intros Hinit Hrun Hd Harr.
  pose proof (run_consistent _ _ _ _ _ _ _ _ _ _ Hinit Hrun) as Hs.
  exists (group_slice (team_sizes s) arr <$> seq 0 (length (handles s))).
  pose proof Hs as [Hcount Hsizes Hgroups _ _ _].
  split; [by rewrite length_fmap, length_seq|]. split.
  - rewrite <- Hgroups. apply group_slices_join.
    apply (action_array_Ok (traced G)) in Harr; [|done].
    apply Forall2_length in Harr. congruence.
  - rewrite (step_appends fzero G s all_actions d Hs Hd). unfold step_log.
    rewrite Harr. unfold group_actions. by rewrite fmap_zip_calls.
Qed.

End StepCalls.

(** * Episodes *)

Section EpisodeFacts.

Context {float : Type} (fzero : float) (G : Engine float).
Variable generate_map : Z -> list (handle G) -> world G -> world G.

Implicit Types s : magent_parallel_env G.

Lemma step_frames s all_actions :
  is_Ok (step fzero s all_actions).2 ->
  frames (step fzero s all_actions).1 = (frames s + 1)%Z.
Proof.
  intros [out Hout]. destruct (step fzero s all_actions) as [s' r] eqn:Hstep.
  simpl in Hout. subst r.
  by apply step_Ok in Hstep as (ags & arr & e1 & k & _ & _ & _ & _ & _ & _ & _ & ->).
Qed.

Lemma play_frames s l :
  all_return fzero s l -> frames (play fzero s l) = (frames s + Z.of_nat (length l))%Z.
Proof.
  revert s. induction l as [|all_actions l IH]; intros s; simpl; [lia|].
  intros [Hok Hrest]. rewrite (IH _ Hrest), (step_frames _ _ Hok). lia.
Qed.

Lemma play_run s0 s l :
  run fzero generate_map s0 s -> run fzero generate_map s0 (play fzero s l).
Proof.
  revert s. induction l as [|all_actions l IH]; intros s Hrun; simpl; [done|].
  apply IH. by apply run_step.
Qed.

(** X15. The frame budget bounds an episode: after a [reset] and [n] steps
    that return, the frame counter is [n]; and when [n + 1] reaches
    [max_frames], the next step that returns marks every agent it returns as
    done, whatever the engine reports. *)
Theorem frame_budget_ends_episode e hs names msize mframes s0 s l all_actions out :
  init fzero generate_map e hs names msize mframes = Ok s0 ->
  run fzero generate_map s0 s ->
  all_return fzero (reset generate_map s).1 l ->
  frames (play fzero (reset generate_map s).1 l) = Z.of_nat (length l)
  /\ ((max_frames s0 <= Z.of_nat (length l) + 1)%Z ->
      (step fzero (play fzero (reset generate_map s).1 l) all_actions).2 = Ok out ->
      out_dones out
      = gset_to_gmap true
          (list_to_set (agents (step fzero (play fzero (reset generate_map s).1 l)
                                     all_actions).1))).
Proof.
  intros Hinit Hrun Hall.
  pose proof (play_frames _ _ Hall) as Hframes.
  change (frames (reset generate_map s).1) with 0%Z in Hframes.
  split; [lia|]. intros Hbudget Hout.
  pose proof (play_run s0 _ l (run_reset fzero G generate_map s0 s Hrun)) as Hrun'.
  pose proof (run_consistent _ _ _ _ _ _ _ _ _ _ Hinit Hrun') as Hs.
  pose proof (run_setup _ _ _ _ _ Hrun') as Hsetup.
  set (sp := play fzero (reset generate_map s).1 l) in *.
  assert (max_frames sp = max_frames s0) as Hmax by (unfold setup in Hsetup; congruence).
  destruct (step fzero sp all_actions) as [s' r] eqn:Hstep. simpl in Hout. subst r.
  apply step_Ok in Hstep as (ags & arr & e1 & k & Hlive & _ & _ & Hdones & _ & _ & _ & ->).
  pose proof (consistent_filtered _ _ sp ags (gw_step G e1).1 (frames sp + 1)%Z Hs Hlive)
    as [Hc _ _ Ha _ _].
  assert ((frames sp + 1 >=? max_frames sp)%Z = true) as Hge
    by (apply Z.geb_le; lia).
  rewrite Hge, orb_true_r in Hdones. by apply all_dones_terminal in Hdones.
Qed.

End EpisodeFacts.

(** * The small engine at work: life cycle, construction and failures *)

Lemma toy_run_s4 : run 0%Z Toy.generate_map Toy.start Toy.s4.
Proof. apply run_step, toy_run_s3. Defined.

Lemma step_before_reset_witness :
  possible_agents Toy.start <> []
  /\ step 0%Z Toy.start Toy.acts1 = (Toy.start, Raise AttributeError).
Proof.
  assert (possible_agents Toy.start <> []) as Hsome by (vm_compute; discriminate).
  split; [exact Hsome|].
  exact (step_before_reset 0%Z Toy.engine Toy.generate_map Toy.blank [0; 1]
           ["red"; "blue"] 45%Z 3%Z Toy.start Toy.acts1 toy_made Hsome).
Defined.

Lemma live_agents_only_shrink_witness :
  agents Toy.s2 `sublist_of` possible_agents Toy.start
  /\ forall all_actions,
       agents (step 0%Z Toy.s2 all_actions).1 `sublist_of` agents Toy.s2.
Proof.
  exact (live_agents_only_shrink 0%Z Toy.engine Toy.generate_map Toy.blank [0; 1]
           ["red"; "blue"] 45%Z 3%Z Toy.start Toy.s2 toy_made toy_run_s2).
Defined.

Lemma step_infos_empty_witness :
  exists out,
    (step 0%Z Toy.s1 Toy.acts1).2 = Ok out
    /\ out_infos out
       = gset_to_gmap ∅ (list_to_set (agents (step 0%Z Toy.s1 Toy.acts1).1)).
Proof.
  assert (exists out, (step 0%Z Toy.s1 Toy.acts1).2 = Ok out) as [out Hout]
    by (eexists; vm_compute; reflexivity).
  exists out. split; [exact Hout|].
  exact (step_infos_empty 0%Z Toy.engine Toy.s1 Toy.acts1 out Hout).
Defined.

Lemma all_done_step_returns_nothing_witness :
  exists d out,
    all_dones Toy.s4 = Some d
    /\ (forall a, a ∈ agents Toy.s4 -> d !! a = Some true)
    /\ (step 0%Z Toy.s4 Toy.acts1).2 = Ok out
    /\ agents (step 0%Z Toy.s4 Toy.acts1).1 = []
    /\ out_observes out = ∅ /\ out_rewards out = ∅
    /\ out_dones out = ∅ /\ out_infos out = ∅.
Proof.
  assert (exists d, all_dones Toy.s4 = Some d
                    /\ Forall (fun a => d !! a = Some true) (agents Toy.s4))
    as (d & Hd & Hall).
  { eexists. split; [vm_compute; reflexivity|].
    apply (bool_decide_unpack _). vm_compute. exact I. }
  assert (exists out, (step 0%Z Toy.s4 Toy.acts1).2 = Ok out) as [out Hout]
    by (eexists; vm_compute; reflexivity).
  exists d, out. split; [exact Hd|].
  split; [exact (proj1 (Forall_forall _ _) Hall)|]. split; [exact Hout|].
  exact (all_done_step_returns_nothing 0%Z Toy.engine Toy.generate_map Toy.blank [0; 1]
           ["red"; "blue"] 45%Z 3%Z Toy.start Toy.s4 d Toy.acts1 out
           toy_made toy_run_s4 Hd (proj1 (Forall_forall _ _) Hall) Hout).
Defined.

Lemma first_step_keys_all_agents_witness :
  exists out,
    (step 0%Z (reset Toy.generate_map Toy.start).1 Toy.acts1).2 = Ok out
    /\ dom (out_observes out) = list_to_set (possible_agents Toy.start)
    /\ dom (out_rewards out) = list_to_set (possible_agents Toy.start)
    /\ dom (out_dones out) = list_to_set (possible_agents Toy.start)
    /\ dom (out_infos out) = list_to_set (possible_agents Toy.start).
Proof.
  assert (exists out,
    (step 0%Z (reset Toy.generate_map Toy.start).1 Toy.acts1).2 = Ok out) as [out Hout]
    by (eexists; vm_compute; reflexivity).
  exists out. split; [exact Hout|].
  exact (first_step_keys_all_agents 0%Z Toy.engine Toy.generate_map Toy.blank [0; 1]
           ["red"; "blue"] 45%Z 3%Z Toy.start Toy.start Toy.acts1 out
           toy_made (run_init 0%Z Toy.engine Toy.generate_map Toy.start) Hout).
Defined.

Lemma reported_agent_reward_and_flag_witness :
  exists r d,
    _all_rewards 0%Z Toy.s2 = Ok r
    /\ _all_dones Toy.s2 false = Ok d
    /\ r !! "red_0" = gw_get_reward Toy.engine (env Toy.s2) 0 !! 0
    /\ d !! "red_0" = negb <$> gw_get_alive Toy.engine (env Toy.s2) 0 !! 0.
Proof.
  assert (exists r, _all_rewards 0%Z Toy.s2 = Ok r) as [r Hr]
    by (eexists; vm_compute; reflexivity).
  assert (exists d, _all_dones Toy.s2 false = Ok d) as [d Hd]
    by (eexists; vm_compute; reflexivity).
  exists r, d. split; [exact Hr|]. split; [exact Hd|].
  destruct (reported_agent_reward_and_flag 0%Z Toy.engine Toy.s2 0 0 0 0%Z 0 "red_0")
    as [Hrew Hflag].
  - apply (bool_decide_unpack _). vm_compute. exact I.
  - vm_compute. reflexivity.
  - vm_compute. reflexivity.
  - vm_compute. reflexivity.
  - apply reports_unique_Forall. apply (bool_decide_unpack _). vm_compute. exact I.
  - vm_compute. reflexivity.
  - apply (bool_decide_unpack _). vm_compute. exact I.
  - split.
    + apply (Hrew r Hr). vm_compute. reflexivity.
    + apply (Hflag d Hd). vm_compute. reflexivity.
Defined.

Lemma out_of_range_id_raises_witness :
  ~ is_Ok (_all_rewards 0%Z Toy.lone1) /\ ~ is_Ok (step 0%Z Toy.lone1 ∅).2.
Proof.
  destruct (out_of_range_id_raises 0%Z Toy.engine Toy.lone1 1 2%Z) as [Hbuild Hstep].
  - apply (bool_decide_unpack _). vm_compute. exact I.
  - split.
    + apply Hbuild.
      * apply (bool_decide_unpack _). vm_compute. exact I.
      * vm_compute. reflexivity.
    + apply (Hstep ∅).
      * apply (bool_decide_unpack _). vm_compute. exact I.
      * vm_compute. reflexivity.
Defined.

Lemma group_obs_batch_mismatch_witness :
  1 <> 2
  /\ group_obs (NDArray [1; 1; 2; 1] [0; 0]%Z) (NDArray [2; 2] [0; 5; 0; 5]%Z)
     = Raise ValueError.
Proof.
  split; [lia|].
  apply (group_obs_batch_mismatch 1 2 1 2 1 2 [0; 0]%Z [0; 5; 0; 5]%Z). lia.
Defined.

Lemma distinct_names_distinct_agents_witness :
  NoDup ["red"; "blue"] /\ NoDup (possible_agents Toy.start).
Proof.
  assert (NoDup ["red"; "blue"]) as Hnames
    by (apply (bool_decide_unpack _); vm_compute; exact I).
  split; [exact Hnames|].
  exact (distinct_names_distinct_agents 0%Z Toy.engine Toy.generate_map Toy.blank [0; 1]
           ["red"; "blue"] 45%Z 3%Z Toy.start toy_made Hnames).
Defined.

Lemma init_needs_team_names_witness :
  init 0%Z Toy.generate_map Toy.blank [0; 1] ["red"] 45 3 = Raise IndexError.
Proof.
  apply (init_needs_team_names 0%Z Toy.engine Toy.generate_map Toy.blank [0; 1]
           ["red"] 45%Z 3%Z 1 1).
  - reflexivity.
  - vm_compute. lia.
  - simpl. lia.
Defined.

Lemma calc_obs_shapes_spec_witness :
  Forall2 (fun hd shp => exists h w c f,
               gw_get_view_space Toy.engine Toy.blank hd = [h; w; c]
               /\ gw_get_feature_space Toy.engine Toy.blank hd = [f]
               /\ shp = [h; w; c + f]) [0; 1] [[1; 2; 3]; [1; 2; 3]].
Proof.
  apply (proj1 (proj1 (calc_obs_shapes_spec Toy.engine Toy.blank [0; 1]) _)).
  vm_compute. reflexivity.
Defined.

Lemma oversized_action_stops_step_witness :
  exists d,
    all_dones Toy.t1 = Some d
    /\ (step 0%Z Toy.t1 (<["red_1" := (2 ^ 63)%Z]> ∅)).2 = Raise OverflowError
    /\ (env (step 0%Z Toy.t1 (<["red_1" := (2 ^ 63)%Z]> ∅)).1).2
       = (env Toy.t1).2 ++ [CallClearDead]
    /\ agents (step 0%Z Toy.t1 (<["red_1" := (2 ^ 63)%Z]> ∅)).1
       = not_done d (agents Toy.t1)
    /\ frames (step 0%Z Toy.t1 (<["red_1" := (2 ^ 63)%Z]> ∅)).1 = frames Toy.t1
    /\ all_dones (step 0%Z Toy.t1 (<["red_1" := (2 ^ 63)%Z]> ∅)).1 = Some d.
Proof.
  assert (exists d, all_dones Toy.t1 = Some d) as [d Hd]
    by (eexists; vm_compute; reflexivity).
  exists d. split; [exact Hd|].
  apply (oversized_action_stops_step 0%Z Toy.engine Toy.generate_map (Toy.blank, [])
           [0; 1] ["red"; "blue"] 45%Z 3%Z Toy.start_traced Toy.t1 d
           (<["red_1" := (2 ^ 63)%Z]> ∅) 1 "red_1" (2 ^ 63)%Z
           toy_made_traced toy_run_t1 Hd).
  - vm_compute. reflexivity.
  - vm_compute. reflexivity.
  - lia.
Defined.

Lemma step_call_sequence_witness :
  exists d arr slices,
    all_dones Toy.t1 = Some d
    /\ action_array Toy.t1 Toy.acts1 (replicate (max_num_agents Toy.t1) 0%Z) = Ok arr
    /\ length slices = length (handles Toy.t1)
    /\ mjoin slices = arr
    /\ (env (step 0%Z Toy.t1 Toy.acts1).1).2
       = (env Toy.t1).2
         ++ CallClearDead :: zip_with CallSetAction (handles Toy.t1) slices ++ [CallStep].
Proof.
  assert (exists d, all_dones Toy.t1 = Some d) as [d Hd]
    by (eexists; vm_compute; reflexivity).
  assert (exists arr,
    action_array Toy.t1 Toy.acts1 (replicate (max_num_agents Toy.t1) 0%Z) = Ok arr)
    as [arr Harr] by (eexists; vm_compute; reflexivity).
  destruct (step_call_sequence 0%Z Toy.engine Toy.generate_map (Toy.blank, []) [0; 1]
              ["red"; "blue"] 45%Z 3%Z Toy.start_traced Toy.t1 d Toy.acts1 arr
              toy_made_traced toy_run_t1 Hd Harr) as (slices & Hlen & Hjoin & Hlog).
  exists d, arr, slices. repeat split; assumption.
Defined.

Lemma frame_budget_ends_episode_witness :
  exists out,
    all_return 0%Z (reset Toy.generate_map Toy.start).1 [Toy.acts1; Toy.acts1]
    /\ (step 0%Z (play 0%Z (reset Toy.generate_map Toy.start).1 [Toy.acts1; Toy.acts1])
             Toy.acts1).2 = Ok out
    /\ frames (play 0%Z (reset Toy.generate_map Toy.start).1 [Toy.acts1; Toy.acts1])
       = Z.of_nat 2
    /\ out_dones out
       = gset_to_gmap true
           (list_to_set
              (agents (step 0%Z (play 0%Z (reset Toy.generate_map Toy.start).1
                                      [Toy.acts1; Toy.acts1]) Toy.acts1).1)).
Proof.
  assert (all_return 0%Z (reset Toy.generate_map Toy.start).1 [Toy.acts1; Toy.acts1])
    as Hall.
  { cbn [all_return]. split; [eexists; vm_compute; reflexivity|].
    split; [eexists; vm_compute; reflexivity|exact I]. }
  assert (exists out,
    (step 0%Z (play 0%Z (reset Toy.generate_map Toy.start).1 [Toy.acts1; Toy.acts1])
          Toy.acts1).2 = Ok out) as [out Hout]
    by (eexists; vm_compute; reflexivity).
  destruct (frame_budget_ends_episode 0%Z Toy.engine Toy.generate_map Toy.blank [0; 1]
              ["red"; "blue"] 45%Z 3%Z Toy.start Toy.start [Toy.acts1; Toy.acts1]
              Toy.acts1 out toy_made (run_init 0%Z Toy.engine Toy.generate_map Toy.start)
              Hall) as [Hframes Hdone].
  exists out. split; [exact Hall|]. split; [exact Hout|]. split; [exact Hframes|].
  apply Hdone; [vm_compute; discriminate|exact Hout].
Defined.
